(** * MuseAir 0.2: a shallow embedding of [museair.h] and its self-test

    The hash is a pure function of a byte buffer, a length and a 64-bit seed.
    Every [uint64_t] is a [Z] in [0, 2^64) with the wrap-around of the C
    arithmetic written out; the input buffer is a [list byte] and a pointer
    into it is an offset.  A read past the end of the buffer, which is
    undefined behaviour in C, is [None] here, so that a result [Some _] also
    says that the code stayed inside the buffer.

    The embedding is that of a little-endian build ([MUSEAIR_BSWAP] is 0, the
    configuration [selftests.c] asks for). *)

From Stdlib Require Import ZArith List Lia Bool.
From Stdlib Require Import Strings.Byte.
Import ListNotations.

Local Open Scope Z_scope.

(** ** 64-bit unsigned arithmetic *)

Module U64.

Definition modulus : Z := 2 ^ 64.
Definition max : Z := 2 ^ 64 - 1.

Definition wrap (x : Z) : Z := x mod modulus.

Definition add (a b : Z) : Z := wrap (a + b).
Definition sub (a b : Z) : Z := wrap (a - b).
Definition not (a : Z) : Z := wrap (Z.lnot a).
Definition shl (v n : Z) : Z := wrap (Z.shiftl v n).
Definition shr (v n : Z) : Z := Z.shiftr v n.

Definition in_range (x : Z) : Prop := 0 <= x < modulus.

End U64.

Declare Scope u64_scope.
Delimit Scope u64_scope with u64.
Infix ".+" := U64.add (at level 50, left associativity) : u64_scope.
Infix ".-" := U64.sub (at level 50, left associativity) : u64_scope.
Infix "<<" := U64.shl (at level 52, left associativity) : u64_scope.
Infix ">>" := U64.shr (at level 52, left associativity) : u64_scope.
Infix ".&" := Z.land (at level 54, left associativity) : u64_scope.
Infix ".^" := Z.lxor (at level 56, left associativity) : u64_scope.
Infix ".|" := Z.lor (at level 58, left associativity) : u64_scope.
Notation ".~ x" := (U64.not x) (at level 35, right associativity) : u64_scope.

(** ** Errors: the option monad *)

Definition bind {A B : Type} (c : option A) (k : A -> option B) : option B :=
  match c with
  | Some a => k a
  | None => None
  end.

Notation "x <- c ;; k" := (bind c (fun x => k))
  (at level 61, c at next level, right associativity).
Notation "' pat <- c ;; k" := (bind c (fun x => match x with pat => k end))
  (at level 61, pat pattern, c at next level, right associativity).

(** ** The constants *)

Definition MUSEAIR_SECRET : list Z :=
  [ 0x5ae31e589c56e17a; 0x96d7bb04e64f6da9; 0x7ab1006b26f9eb64;
    0x21233394220b8457; 0x047cb9557c9f3b43; 0xd24f2590c0bcee28 ].

(** [MUSEAIR_SECRET[k]]. *)
Definition MUSEAIR_SECRET_0 : Z := nth 0 MUSEAIR_SECRET 0.
Definition MUSEAIR_SECRET_1 : Z := nth 1 MUSEAIR_SECRET 0.
Definition MUSEAIR_SECRET_2 : Z := nth 2 MUSEAIR_SECRET 0.
Definition MUSEAIR_SECRET_3 : Z := nth 3 MUSEAIR_SECRET 0.
Definition MUSEAIR_SECRET_4 : Z := nth 4 MUSEAIR_SECRET 0.
Definition MUSEAIR_SECRET_5 : Z := nth 5 MUSEAIR_SECRET 0.

Definition MUSEAIR_RING_PREV : Z := 0x33ea8f71bb6016d8.

(** ** Memory *)

Definition buffer : Type := list byte.

Definition byte_val (b : byte) : Z := Z.of_N (Byte.to_N b).

(** The byte [*p] for the pointer at offset [p] of the buffer [m]; [None]
    outside the buffer. *)
Definition load (m : buffer) (p : Z) : option Z :=
  if p <? 0 then None
  else match nth_error m (Z.to_nat p) with
       | Some b => Some (byte_val b)
       | None => None
       end.

(** [memcpy(&v, p, n)] followed by the little-endian reading of [v]. *)
Fixpoint load_le (n : nat) (m : buffer) (p : Z) : option Z :=
  match n with
  | O => Some 0
  | S n' =>
      b <- load m p ;;
      r <- load_le n' m (p + 1) ;;
      Some (Z.lor b (Z.shiftl r 8))
  end.

Definition _museair_read_u64 (m : buffer) (p : Z) : option Z := load_le 8 m p.

Definition _museair_read_u32 (m : buffer) (p : Z) : option Z := load_le 4 m p.

Section Primitives.

Local Open Scope u64_scope.

Definition _museair_read_short (m : buffer) (bytes : Z) (len : Z)
  : option (Z * Z) :=
  if len >=? 4 then
    let off := (len .& 24) >> (len >> 3) in
    a <- _museair_read_u32 m bytes ;;
    b <- _museair_read_u32 m (bytes + len - 4)%Z ;;
    let i := (a << 32) .| b in
    c <- _museair_read_u32 m (bytes + off)%Z ;;
    d <- _museair_read_u32 m (bytes + len - 4 - off)%Z ;;
    let j := (c << 32) .| d in
    Some (i, j)
  else if len >? 0 then
    b0 <- load m bytes ;;
    b1 <- load m (bytes + (len >> 1))%Z ;;
    b2 <- load m (bytes + (len - 1))%Z ;;
    let i := (b0 << 48) .| (b1 << 24) .| b2 in
    Some (i, 0)
  else
    Some (0, 0).

(** [n] is a [uint8_t] below 64; [(-n) & 63] keeps the low six bits of its
    negation. *)
Definition _museair_rotl (v n : Z) : Z := (v << n) .| (v >> (Z.opp n .& 63)).
Definition _museair_rotr (v n : Z) : Z := (v >> n) .| (v << (Z.opp n .& 63)).

(** Returns [(lo, hi)]. *)
Definition _museair_wmul (a b : Z) : Z * Z :=
  let v := (a * b)%Z in
  (U64.wrap v, U64.wrap (Z.shiftr v 64)).

Definition _museair_chixx (t u v : Z) : Z * Z * Z :=
  let x := .~ u .& v in
  let y := .~ v .& t in
  let z := .~ t .& u in
  let t := t .^ x in
  let u := u .^ y in
  let v := v .^ z in
  (t, u, v).

Definition _museair_frac_6 (BFast : bool) (state_p state_q input_p input_q : Z)
  : Z * Z :=
  if negb BFast then
    let state_p := state_p .^ input_p in
    let state_q := state_q .^ input_q in
    let '(lo, hi) := _museair_wmul state_p state_q in
    let state_p := state_p .^ lo in
    let state_q := state_q .^ hi in
    (state_p, state_q)
  else
    let '(lo, hi) := _museair_wmul (state_p .^ input_p) (state_q .^ input_q) in
    (lo, hi).

Definition _museair_frac_3 (BFast : bool) (state_p state_q input : Z)
  : Z * Z :=
  if negb BFast then
    let state_q := state_q .^ input in
    let '(lo, hi) := _museair_wmul state_p state_q in
    let state_p := state_p .^ lo in
    let state_q := state_q .^ hi in
    (state_p, state_q)
  else
    let '(lo, hi) := _museair_wmul state_p (state_q .^ input) in
    (lo, hi).

End Primitives.

(** ** Byte order

    A build with [MUSEAIR_BSWAP > 0], for a big-endian host, swaps the bytes
    of what it reads.  The swaps are modelled by their portable branch; the
    compiler builtins of the other branches reverse the bytes alike. *)

Section ByteOrder.

Local Open Scope u64_scope.

(** The portable branch of [_museair_bswap_64]. *)
Definition _museair_bswap_64 (v : Z) : Z :=
  ((v .& 0xFF00000000000000) >> 56) .| ((v .& 0x00FF000000000000) >> 40) .|
  ((v .& 0x0000FF0000000000) >> 24) .| ((v .& 0x000000FF00000000) >> 8) .|
  ((v .& 0x00000000FF000000) << 8) .|
  ((v .& 0x0000000000FF0000) << 24) .| ((v .& 0x000000000000FF00) << 40) .|
  ((v .& 0x00000000000000FF) << 56).

(** [<<] on a [uint32_t]. *)
Definition shl32 (v n : Z) : Z := (Z.shiftl v n) mod 2 ^ 32.

(** The portable branch of [_museair_bswap_32]. *)
Definition _museair_bswap_32 (v : Z) : Z :=
  ((v .& 0xFF000000) >> 24) .| ((v .& 0x00FF0000) >> 8) .|
  (shl32 (v .& 0x0000FF00) 8) .| (shl32 (v .& 0x000000FF) 24).

End ByteOrder.

(** [memcpy(&v, p, n)] read on a big-endian host. *)
Fixpoint load_be (n : nat) (m : buffer) (p : Z) : option Z :=
  match n with
  | O => Some 0
  | S n' =>
      b <- load m p ;;
      r <- load_be n' m (p + 1) ;;
      Some (Z.lor (Z.shiftl b (8 * Z.of_nat n')) r)
  end.

(** [_museair_read_u64] and [_museair_read_u32] of a build with
    [MUSEAIR_BSWAP > 0]. *)
Definition _museair_read_u64_bswap (m : buffer) (p : Z) : option Z :=
  v <- load_be 8 m p ;;
  Some (_museair_bswap_64 v).

Definition _museair_read_u32_bswap (m : buffer) (p : Z) : option Z :=
  v <- load_be 4 m p ;;
  Some (_museair_bswap_32 v).

(** ** The running state: [uint64_t state[6]] *)

Record state6 : Type := State6 {
  st0 : Z; st1 : Z; st2 : Z; st3 : Z; st4 : Z; st5 : Z
}.

Section Layers.

Local Open Scope u64_scope.

(** Returns the new state and the new [*ring_prev]. *)
Definition _museair_layer_12 (BFast : bool) (state : state6) (m : buffer)
    (p : Z) (ring_prev : Z) : option (state6 * Z) :=
  let '(State6 s0 s1 s2 s3 s4 s5) := state in
  if negb BFast then
    w <- _museair_read_u64 m (p + 8 * 0)%Z ;; let s0 := s0 .^ w in
    w <- _museair_read_u64 m (p + 8 * 1)%Z ;; let s1 := s1 .^ w in
    let '(lo0, hi0) := _museair_wmul s0 s1 in
    let s0 := s0 .+ (ring_prev .^ hi0) in

    w <- _museair_read_u64 m (p + 8 * 2)%Z ;; let s1 := s1 .^ w in
    w <- _museair_read_u64 m (p + 8 * 3)%Z ;; let s2 := s2 .^ w in
    let '(lo1, hi1) := _museair_wmul s1 s2 in
    let s1 := s1 .+ (lo0 .^ hi1) in

    w <- _museair_read_u64 m (p + 8 * 4)%Z ;; let s2 := s2 .^ w in
    w <- _museair_read_u64 m (p + 8 * 5)%Z ;; let s3 := s3 .^ w in
    let '(lo2, hi2) := _museair_wmul s2 s3 in
    let s2 := s2 .+ (lo1 .^ hi2) in

    w <- _museair_read_u64 m (p + 8 * 6)%Z ;; let s3 := s3 .^ w in
    w <- _museair_read_u64 m (p + 8 * 7)%Z ;; let s4 := s4 .^ w in
    let '(lo3, hi3) := _museair_wmul s3 s4 in
    let s3 := s3 .+ (lo2 .^ hi3) in

    w <- _museair_read_u64 m (p + 8 * 8)%Z ;; let s4 := s4 .^ w in
    w <- _museair_read_u64 m (p + 8 * 9)%Z ;; let s5 := s5 .^ w in
    let '(lo4, hi4) := _museair_wmul s4 s5 in
    let s4 := s4 .+ (lo3 .^ hi4) in

    w <- _museair_read_u64 m (p + 8 * 10)%Z ;; let s5 := s5 .^ w in
    w <- _museair_read_u64 m (p + 8 * 11)%Z ;; let s0 := s0 .^ w in
    let '(lo5, hi5) := _museair_wmul s5 s0 in
    let s5 := s5 .+ (lo4 .^ hi5) in
    Some (State6 s0 s1 s2 s3 s4 s5, lo5)
  else
    w <- _museair_read_u64 m (p + 8 * 0)%Z ;; let s0 := s0 .^ w in
    w <- _museair_read_u64 m (p + 8 * 1)%Z ;; let s1 := s1 .^ w in
    let '(lo0, hi0) := _museair_wmul s0 s1 in
    let s0 := ring_prev .^ hi0 in

    w <- _museair_read_u64 m (p + 8 * 2)%Z ;; let s1 := s1 .^ w in
    w <- _museair_read_u64 m (p + 8 * 3)%Z ;; let s2 := s2 .^ w in
    let '(lo1, hi1) := _museair_wmul s1 s2 in
    let s1 := lo0 .^ hi1 in

    w <- _museair_read_u64 m (p + 8 * 4)%Z ;; let s2 := s2 .^ w in
    w <- _museair_read_u64 m (p + 8 * 5)%Z ;; let s3 := s3 .^ w in
    let '(lo2, hi2) := _museair_wmul s2 s3 in
    let s2 := lo1 .^ hi2 in

    w <- _museair_read_u64 m (p + 8 * 6)%Z ;; let s3 := s3 .^ w in
    w <- _museair_read_u64 m (p + 8 * 7)%Z ;; let s4 := s4 .^ w in
    let '(lo3, hi3) := _museair_wmul s3 s4 in
    let s3 := lo2 .^ hi3 in

    w <- _museair_read_u64 m (p + 8 * 8)%Z ;; let s4 := s4 .^ w in
    w <- _museair_read_u64 m (p + 8 * 9)%Z ;; let s5 := s5 .^ w in
    let '(lo4, hi4) := _museair_wmul s4 s5 in
    let s4 := lo3 .^ hi4 in

    w <- _museair_read_u64 m (p + 8 * 10)%Z ;; let s5 := s5 .^ w in
    w <- _museair_read_u64 m (p + 8 * 11)%Z ;; let s0 := s0 .^ w in
    let '(lo5, hi5) := _museair_wmul s5 s0 in
    let s5 := lo4 .^ hi5 in
    Some (State6 s0 s1 s2 s3 s4 s5, lo5).

Definition _museair_layer_6 (BFast : bool) (state : state6) (m : buffer)
    (p : Z) : option state6 :=
  let '(State6 s0 s1 s2 s3 s4 s5) := state in
  w0 <- _museair_read_u64 m (p + 8 * 0)%Z ;;
  w1 <- _museair_read_u64 m (p + 8 * 1)%Z ;;
  let '(s0, s1) := _museair_frac_6 BFast s0 s1 w0 w1 in
  w2 <- _museair_read_u64 m (p + 8 * 2)%Z ;;
  w3 <- _museair_read_u64 m (p + 8 * 3)%Z ;;
  let '(s2, s3) := _museair_frac_6 BFast s2 s3 w2 w3 in
  w4 <- _museair_read_u64 m (p + 8 * 4)%Z ;;
  w5 <- _museair_read_u64 m (p + 8 * 5)%Z ;;
  let '(s4, s5) := _museair_frac_6 BFast s4 s5 w4 w5 in
  Some (State6 s0 s1 s2 s3 s4 s5).

Definition _museair_layer_3 (BFast : bool) (state : state6) (m : buffer)
    (p : Z) : option state6 :=
  let '(State6 s0 s1 s2 s3 s4 s5) := state in
  w0 <- _museair_read_u64 m (p + 8 * 0)%Z ;;
  let '(s0, s3) := _museair_frac_3 BFast s0 s3 w0 in
  w1 <- _museair_read_u64 m (p + 8 * 1)%Z ;;
  let '(s1, s4) := _museair_frac_3 BFast s1 s4 w1 in
  w2 <- _museair_read_u64 m (p + 8 * 2)%Z ;;
  let '(s2, s5) := _museair_frac_3 BFast s2 s5 w2 in
  Some (State6 s0 s1 s2 s3 s4 s5).

(** The first [if] of [_museair_layer_0]: the words [(i, j, k)] read
    from the [q] bytes left. *)
Definition layer_0_words (m : buffer) (p : Z) (q : Z) : option (Z * Z * Z) :=
  if q <=? 8 * 2 then
    '(i_, j_) <- _museair_read_short m p q ;;
    Some (i_, j_, 0)
  else
    i <- _museair_read_u64 m p ;;
    j <- _museair_read_u64 m (p + 8)%Z ;;
    k <- _museair_read_u64 m (p + q - 8)%Z ;;
    Some (i, j, k).

(** Returns [(i, j, k)]; the state is local to the caller and dead after
    this call, so its last value is not returned. *)
Definition _museair_layer_0 (state : state6) (m : buffer) (p : Z) (q : Z)
    (len : Z) : option (Z * Z * Z) :=
  let '(State6 s0 s1 s2 s3 s4 s5) := state in
  '(i, j, k) <- layer_0_words m p q ;;
  if len >=? 8 * 3 then
    let '(s0, s2, s4) := _museair_chixx s0 s2 s4 in
    let '(s1, s3, s5) := _museair_chixx s1 s3 s5 in
    let i := i .^ (s0 .+ s1) in
    let j := j .^ (s2 .+ s3) in
    let k := k .^ (s4 .+ s5) in
    Some (i, j, k)
  else
    let i := i .^ s0 in
    let j := j .^ s1 in
    let k := k .^ s2 in
    Some (i, j, k).

Definition _museair_layer_f (BFast : bool) (len : Z) (i j k : Z)
  : Z * Z * Z :=
  let rot := (len mod 256) .& 63 in
  let '(i, j, k) := _museair_chixx i j k in
  let i := _museair_rotl i rot in
  let j := _museair_rotr j rot in
  let k := k .^ len in
  if negb BFast then
    let '(lo0, hi0) := _museair_wmul (i .^ MUSEAIR_SECRET_3) j in
    let '(lo1, hi1) := _museair_wmul (j .^ MUSEAIR_SECRET_4) k in
    let '(lo2, hi2) := _museair_wmul (k .^ MUSEAIR_SECRET_5) i in
    let i := i .^ (lo0 .^ hi2) in
    let j := j .^ (lo1 .^ hi0) in
    let k := k .^ (lo2 .^ hi1) in
    (i, j, k)
  else
    let '(lo0, hi0) := _museair_wmul i j in
    let '(lo1, hi1) := _museair_wmul j k in
    let '(lo2, hi2) := _museair_wmul k i in
    let i := lo0 .^ hi2 in
    let j := lo1 .^ hi0 in
    let k := lo2 .^ hi1 in
    (i, j, k).

End Layers.

(** ** Towers *)

Section Towers.

Local Open Scope u64_scope.

(** The [do { ... } while (q >= 8 * 12)] of [_museair_tower_loong].  Each
    turn takes 96 from [q], so [q / 96] turns are enough; [None] when the
    fuel is spent.  Returns the state, [p], [q] and [ring_prev]. *)
Fixpoint tower_loong_do_while (fuel : nat) (BFast : bool) (state : state6)
    (m : buffer) (p q : Z) (ring_prev : Z) : option (state6 * Z * Z * Z) :=
  match fuel with
  | O => None
  | S fuel' =>
      '(state, ring_prev) <- _museair_layer_12 BFast state m p ring_prev ;;
      let p := (p + 8 * 12)%Z in
      let q := (q - 8 * 12)%Z in
      if q >=? 8 * 12 then
        tower_loong_do_while fuel' BFast state m p q ring_prev
      else
        Some (state, p, q, ring_prev)
  end.

(** The declaration of [state] in [_museair_tower_loong]. *)
Definition tower_loong_state (seed : Z) : state6 :=
  State6 (MUSEAIR_SECRET_0 .+ seed) (MUSEAIR_SECRET_1 .- seed)
         (MUSEAIR_SECRET_2 .^ seed)
         MUSEAIR_SECRET_3 MUSEAIR_SECRET_4 MUSEAIR_SECRET_5.

(** The block [if (q >= 8 * 12) { ... }] of [_museair_tower_loong].
    Returns the state, [p] and [q]. *)
Definition tower_loong_ring (BFast : bool) (m : buffer) (seed : Z)
    (state : state6) (p q : Z) : option (state6 * Z * Z) :=
  if q >=? 8 * 12 then
    let '(State6 s0 s1 s2 s3 s4 s5) := state in
    let s3 := s3 .+ seed in
    let s4 := s4 .- seed in
    let s5 := s5 .^ seed in
    let ring_prev := MUSEAIR_RING_PREV in
    '(state, p, q, ring_prev) <-
      tower_loong_do_while (Z.to_nat (q / (8 * 12))) BFast
        (State6 s0 s1 s2 s3 s4 s5) m p q ring_prev ;;
    let '(State6 s0 s1 s2 s3 s4 s5) := state in
    let s0 := s0 .^ ring_prev in
    Some (State6 s0 s1 s2 s3 s4 s5, p, q)
  else
    Some (state, p, q).

(** The rest of [_museair_tower_loong]: the 6-word block, the 3-word
    block, the tail fold and the final layer.  Returns [(i, j, k)]. *)
Definition tower_loong_tail (BFast : bool) (m : buffer) (len : Z)
    (state : state6) (p q : Z) : option (Z * Z * Z) :=
  '(state, p, q) <-
    (if q >=? 8 * 6 then
       state <- _museair_layer_6 BFast state m p ;;
       Some (state, (p + 8 * 6)%Z, (q - 8 * 6)%Z)
     else Some (state, p, q)) ;;
  '(state, p, q) <-
    (if q >=? 8 * 3 then
       state <- _museair_layer_3 BFast state m p ;;
       Some (state, (p + 8 * 3)%Z, (q - 8 * 3)%Z)
     else Some (state, p, q)) ;;
  '(i, j, k) <- _museair_layer_0 state m p q len ;;
  Some (_museair_layer_f BFast len i j k).

Definition _museair_tower_loong (BFast : bool) (m : buffer) (len : Z)
    (seed : Z) : option (Z * Z * Z) :=
  let p := 0 in
  let q := len in
  let state := tower_loong_state seed in
  '(state, p, q) <- tower_loong_ring BFast m seed state p q ;;
  tower_loong_tail BFast m len state p q.

Definition _museair_tower_short (m : buffer) (len : Z) (seed : Z)
  : option (Z * Z) :=
  '(i, j) <- _museair_read_short m 0 len ;;
  let '(lo, hi) :=
    _museair_wmul (seed .^ MUSEAIR_SECRET_0) (len .^ MUSEAIR_SECRET_1) in
  let i := i .^ (lo .^ len) in
  let j := j .^ (hi .^ seed) in
  Some (i, j).

End Towers.

(** ** Epilogues *)

Section Epilogues.

Local Open Scope u64_scope.

Definition _museair_epi_short (i j : Z) : Z * Z :=
  let i := i .^ MUSEAIR_SECRET_2 in
  let j := j .^ MUSEAIR_SECRET_3 in
  let '(lo, hi) := _museair_wmul i j in
  let i := i .^ (lo .^ MUSEAIR_SECRET_4) in
  let j := j .^ (hi .^ MUSEAIR_SECRET_5) in
  let '(lo, hi) := _museair_wmul i j in
  let i := i .^ (j .^ lo .^ hi) in
  (i, j).

Definition _museair_epi_short_128 (BFast : bool) (i j : Z) : Z * Z :=
  if negb BFast then
    let '(lo0, hi0) := _museair_wmul (i .^ MUSEAIR_SECRET_2) j in
    let '(lo1, hi1) := _museair_wmul i (j .^ MUSEAIR_SECRET_3) in
    let i := i .^ (lo0 .^ hi1) in
    let j := j .^ (lo1 .^ hi0) in
    let '(lo0, hi0) := _museair_wmul (i .^ MUSEAIR_SECRET_4) j in
    let '(lo1, hi1) := _museair_wmul i (j .^ MUSEAIR_SECRET_5) in
    let i := i .^ (lo0 .^ hi1) in
    let j := j .^ (lo1 .^ hi0) in
    (i, j)
  else
    let '(lo0, hi0) := _museair_wmul i j in
    let '(lo1, hi1) :=
      _museair_wmul (i .^ MUSEAIR_SECRET_2) (j .^ MUSEAIR_SECRET_3) in
    let i := lo0 .^ hi1 in
    let j := lo1 .^ hi0 in
    let '(lo0, hi0) := _museair_wmul i j in
    let '(lo1, hi1) :=
      _museair_wmul (i .^ MUSEAIR_SECRET_4) (j .^ MUSEAIR_SECRET_5) in
    let i := lo0 .^ hi1 in
    let j := lo1 .^ hi0 in
    (i, j).

Definition _museair_epi_loong (BFast : bool) (i j k : Z) : Z * Z * Z :=
  let '(i, j, k) :=
    if negb BFast then
      let '(lo0, hi0) := _museair_wmul (i .^ MUSEAIR_SECRET_0) j in
      let '(lo1, hi1) := _museair_wmul (j .^ MUSEAIR_SECRET_1) k in
      let '(lo2, hi2) := _museair_wmul (k .^ MUSEAIR_SECRET_2) i in
      let i := i .^ (lo0 .^ hi2) in
      let j := j .^ (lo1 .^ hi0) in
      let k := k .^ (lo2 .^ hi1) in
      (i, j, k)
    else
      let '(lo0, hi0) := _museair_wmul i j in
      let '(lo1, hi1) := _museair_wmul j k in
      let '(lo2, hi2) := _museair_wmul k i in
      let i := lo0 .^ hi2 in
      let j := lo1 .^ hi0 in
      let k := lo2 .^ hi1 in
      (i, j, k) in
  let i := i .+ (j .+ k) in
  (i, j, k).

Definition _museair_epi_loong_128 (BFast : bool) (i j k : Z) : Z * Z * Z :=
  if negb BFast then
    let '(lo0, hi0) := _museair_wmul (i .^ MUSEAIR_SECRET_0) j in
    let '(lo1, hi1) := _museair_wmul (j .^ MUSEAIR_SECRET_1) k in
    let '(lo2, hi2) := _museair_wmul (k .^ MUSEAIR_SECRET_2) i in
    let i := i .^ (lo0 .^ lo1 .^ hi2) in
    let j := j .^ (hi0 .^ hi1 .^ lo2) in
    (i, j, k)
  else
    let '(lo0, hi0) := _museair_wmul i j in
    let '(lo1, hi1) := _museair_wmul j k in
    let '(lo2, hi2) := _museair_wmul k i in
    let i := lo0 .^ lo1 .^ hi2 in
    let j := hi0 .^ hi1 .^ lo2 in
    (i, j, k).

End Epilogues.

(** ** The hash *)

Definition _museair_hash_short (m : buffer) (len seed : Z) : option (Z * Z) :=
  '(i, j) <- _museair_tower_short m len seed ;;
  Some (_museair_epi_short i j).

Definition _museair_hash_short_128 (BFast : bool) (m : buffer) (len seed : Z)
  : option (Z * Z) :=
  '(i, j) <- _museair_tower_short m len seed ;;
  Some (_museair_epi_short_128 BFast i j).

Definition _museair_hash_loong (BFast : bool) (m : buffer) (len seed : Z)
  : option (Z * Z * Z) :=
  '(i, j, k) <- _museair_tower_loong BFast m len seed ;;
  Some (_museair_epi_loong BFast i j k).

Definition _museair_hash_loong_128 (BFast : bool) (m : buffer) (len seed : Z)
  : option (Z * Z * Z) :=
  '(i, j, k) <- _museair_tower_loong BFast m len seed ;;
  Some (_museair_epi_loong_128 BFast i j k).

(** Returns [i]. *)
Definition _museair_hash (BFast : bool) (m : buffer) (len seed : Z)
  : option Z :=
  if len <=? 16 then
    '(i, j) <- _museair_hash_short m len seed ;;
    Some i
  else
    '(i, j, k) <- _museair_hash_loong BFast m len seed ;;
    Some i.

(** Returns [(i, j)]: the value returned and the one stored in
    [*upper_half]. *)
Definition _museair_hash_128 (BFast : bool) (m : buffer) (len seed : Z)
  : option (Z * Z) :=
  if len <=? 16 then
    '(i, j) <- _museair_hash_short_128 BFast m len seed ;;
    Some (i, j)
  else
    '(i, j, k) <- _museair_hash_loong_128 BFast m len seed ;;
    Some (i, j).

Definition museair_hash (m : buffer) (len seed : Z) : option Z :=
  _museair_hash false m len seed.

Definition museair_hash_128 (m : buffer) (len seed : Z) : option (Z * Z) :=
  _museair_hash_128 false m len seed.

Definition museair_bfast_hash (m : buffer) (len seed : Z) : option Z :=
  _museair_hash true m len seed.

Definition museair_bfast_hash_128 (m : buffer) (len seed : Z)
  : option (Z * Z) :=
  _museair_hash_128 true m len seed.

(** ** The self-test of [selftests.c] *)

Definition byte_of_Z (z : Z) : byte :=
  match Byte.of_N (Z.to_N (z mod 256)) with
  | Some b => b
  | None => Byte.x00
  end.

(** The [n] bytes of [w], least significant first. *)
Fixpoint le_split (n : nat) (w : Z) : list byte :=
  match n with
  | O => []
  | S n' => byte_of_Z w :: le_split n' (Z.shiftr w 8)
  end.

(** [calloc(n, 1)]. *)
Definition calloc (n : Z) : buffer := repeat Byte.x00 (Z.to_nat n).

(** Storing the bytes [bs] at offset [p] of [m]. *)
Definition store (m : buffer) (p : Z) (bs : list byte) : buffer :=
  firstn (Z.to_nat p) m ++ bs ++ skipn (Z.to_nat p + length bs) m.

(** The harness calls a hash as [HASH(in, len, seed, out)] and reads the
    digest at [out]; here such a hash returns the bytes it leaves there.
    The entry points of [museair.h] return the digest instead ([main]
    passes them as they are), so [out64] and [out128] store it: the 64-bit
    value little-endian, or the value returned followed by the upper
    half. *)
Definition hash_fn : Type := buffer -> Z -> Z -> option (list byte).

Definition out64 (h : buffer -> Z -> Z -> option Z) : hash_fn :=
  fun m len seed =>
    i <- h m len seed ;;
    Some (le_split 8 i).

Definition out128 (h : buffer -> Z -> Z -> option (Z * Z)) : hash_fn :=
  fun m len seed =>
    '(i, j) <- h m len seed ;;
    Some (le_split 8 i ++ le_split 8 j).

Definition HASH_INIT (seed : Z) : Z := seed.

(** The loop [for (int i = 0; i < 256; i++)] of [ComputedVerifyImpl], with
    [n] turns left.  Returns [hashes]. *)
Fixpoint verify_loop (n : nat) (HASH : hash_fn) (hashbytes : Z) (i : Z)
    (key hashes : buffer) : option buffer :=
  match n with
  | O => Some hashes
  | S n' =>
      let seed := 256 - i in
      let seed := HASH_INIT seed in
      out <- HASH key i seed ;;
      let hashes := store hashes (i * hashbytes) out in
      let key := store key i [byte_of_Z i] in
      verify_loop n' HASH hashbytes (i + 1) key hashes
  end.

Definition ComputedVerifyImpl (hashbits : Z) (HASH : hash_fn) : option Z :=
  let hashbytes := hashbits / 8 in
  let key := calloc 256 in
  let hashes := calloc (hashbytes * 256) in
  hashes <- verify_loop 256 HASH hashbytes 0 key hashes ;;
  let seed := HASH_INIT 0 in
  total <- HASH hashes (hashbytes * 256) seed ;;
  load_le 4 total 0.

(** * The notions of the statements *)

(** ** Buffers *)

(** The number of bytes of a buffer. *)
Definition size (m : buffer) : Z := Z.of_nat (length m).

(** The byte at offset [k]; [0] outside the buffer. *)
Definition byte_at (m : buffer) (k : Z) : Z :=
  byte_val (nth (Z.to_nat k) m Byte.x00).

(** The little-endian value of the [n] bytes from offset [k]. *)
Fixpoint le_at (n : nat) (m : buffer) (k : Z) : Z :=
  match n with
  | O => 0
  | S n' => Z.lor (byte_at m k) (Z.shiftl (le_at n' m (k + 1)) 8)
  end.

(** The [k]-th 64-bit word from offset [p]. *)
Definition word_at (m : buffer) (p : Z) (k : Z) : Z := le_at 8 m (p + 8 * k).

(** The key [{0, 1, ..., n-1}] of the self-test. *)
Definition iota_key (n : nat) : buffer :=
  map (fun k => byte_of_Z (Z.of_nat k)) (seq 0 n).

(** ** The two pipelines *)

(** The short tower and the short epilogue, for the 64-bit and the 128-bit
    digest. *)
Definition short_path (m : buffer) (len seed : Z) : option Z :=
  '(i, j) <- _museair_tower_short m len seed ;;
  Some (fst (_museair_epi_short i j)).

Definition short_path_128 (BFast : bool) (m : buffer) (len seed : Z)
  : option (Z * Z) :=
  '(i, j) <- _museair_tower_short m len seed ;;
  Some (_museair_epi_short_128 BFast i j).

(** The block compressor and the long epilogue. *)
Definition loong_path (BFast : bool) (m : buffer) (len seed : Z) : option Z :=
  '(i, j, k) <- _museair_tower_loong BFast m len seed ;;
  Some (fst (fst (_museair_epi_loong BFast i j k))).

Definition loong_path_128 (BFast : bool) (m : buffer) (len seed : Z)
  : option (Z * Z) :=
  '(i, j, k) <- _museair_tower_loong BFast m len seed ;;
  Some (fst (_museair_epi_loong_128 BFast i j k)).

(** ** The ring of the 12-word block *)

(** One pair of the ring, as the code has it: the two words are mixed into
    the pair, the pair is multiplied, and the first word becomes its value
    plus (carry XOR high half) in the full variant, and carry XOR high half
    in the fast one.  Returns the first word, the second word and the low
    half, which is the carry of the next pair. *)
Definition ring_pair (BFast : bool) (a b w1 w2 carry : Z) : Z * Z * Z :=
  let a := Z.lxor a w1 in
  let b := Z.lxor b w2 in
  let '(lo, hi) := _museair_wmul a b in
  (if BFast then Z.lxor carry hi else U64.add a (Z.lxor carry hi), b, lo).

(** The same pair in the words of the specification: the fast variant
    stores the low half. *)
Definition ring_pair_claimed (BFast : bool) (a b w1 w2 carry : Z)
  : Z * Z * Z :=
  let a := Z.lxor a w1 in
  let b := Z.lxor b w2 in
  let '(lo, hi) := _museair_wmul a b in
  (if BFast then lo else U64.add a (Z.lxor carry hi), b, lo).

(** The six pairs [(0,1), (1,2), (2,3), (3,4), (4,5), (5,0)] over the
    words [w 0 .. w 11], the carry going from each pair to the next. *)
Definition ring_block (pair : Z -> Z -> Z -> Z -> Z -> Z * Z * Z)
    (state : state6) (w : Z -> Z) (carry : Z) : state6 * Z :=
  let '(State6 s0 s1 s2 s3 s4 s5) := state in
  let '(a0, b1, c0) := pair s0 s1 (w 0) (w 1) carry in
  let '(a1, b2, c1) := pair b1 s2 (w 2) (w 3) c0 in
  let '(a2, b3, c2) := pair b2 s3 (w 4) (w 5) c1 in
  let '(a3, b4, c3) := pair b3 s4 (w 6) (w 7) c2 in
  let '(a4, b5, c4) := pair b4 s5 (w 8) (w 9) c3 in
  let '(a5, b0, c5) := pair b5 a0 (w 10) (w 11) c4 in
  (State6 b0 a1 a2 a3 a4 a5, c5).

(** ** States *)

Definition state_in_range (st : state6) : Prop :=
  U64.in_range (st0 st) /\ U64.in_range (st1 st) /\ U64.in_range (st2 st) /\
  U64.in_range (st3 st) /\ U64.in_range (st4 st) /\ U64.in_range (st5 st).

(** The state the 12-word loop starts from: all six words combined with
    the seed. *)
Definition seeded_six (seed : Z) : state6 :=
  State6 (U64.add MUSEAIR_SECRET_0 seed) (U64.sub MUSEAIR_SECRET_1 seed)
         (Z.lxor MUSEAIR_SECRET_2 seed)
         (U64.add MUSEAIR_SECRET_3 seed) (U64.sub MUSEAIR_SECRET_4 seed)
         (Z.lxor MUSEAIR_SECRET_5 seed).

(** The carry of the last block XORed into word 0. *)
Definition ring_fold (st : state6) (r : Z) : state6 :=
  State6 (Z.lxor (st0 st) r) (st1 st) (st2 st) (st3 st) (st4 st) (st5 st).

(** A state word made of the secret word [s] and the seed by an add, a
    subtract or a xor. *)
Definition seed_combined (s seed x : Z) : Prop :=
  x = U64.add s seed \/ x = U64.sub s seed \/ x = Z.lxor s seed.

Definition sixfold_seeded (seed : Z) (st : state6) : Prop :=
  seed_combined MUSEAIR_SECRET_0 seed (st0 st) /\
  seed_combined MUSEAIR_SECRET_1 seed (st1 st) /\
  seed_combined MUSEAIR_SECRET_2 seed (st2 st) /\
  seed_combined MUSEAIR_SECRET_3 seed (st3 st) /\
  seed_combined MUSEAIR_SECRET_4 seed (st4 st) /\
  seed_combined MUSEAIR_SECRET_5 seed (st5 st).

(** The blocks of [_museair_tower_loong]: the function from the
    declaration of [state] up to the call of [_museair_layer_0], that is
    the 12-word loop with its fold, the 6-word block and the 3-word block.
    Returns the state, [p] and [q] that the call of [_museair_layer_0]
    gets. *)
Definition tower_loong_blocks (BFast : bool) (m : buffer) (len seed : Z)
  : option (state6 * Z * Z) :=
  '(state, p, q) <-
    tower_loong_ring BFast m seed (tower_loong_state seed) 0 len ;;
  '(state, p, q) <-
    (if q >=? 8 * 6 then
       state <- _museair_layer_6 BFast state m p ;;
       Some (state, p + 8 * 6, q - 8 * 6)
     else Some (state, p, q)) ;;
  if q >=? 8 * 3 then
    state <- _museair_layer_3 BFast state m p ;;
    Some (state, p + 8 * 3, q - 8 * 3)
  else Some (state, p, q).

(** ** The final layer *)

(** The three multiplications that end [_museair_layer_f], as the code has
    them: in the full variant the first operand of each product is XORed
    with the secret words 3, 4, 5 and the halves are XORed into the words;
    in the fast variant the operands are bare and the halves replace the
    words. *)
Definition twist_mul (BFast : bool) (i j k : Z) : Z * Z * Z :=
  if BFast then
    let '(lo0, hi0) := _museair_wmul i j in
    let '(lo1, hi1) := _museair_wmul j k in
    let '(lo2, hi2) := _museair_wmul k i in
    (Z.lxor lo0 hi2, Z.lxor lo1 hi0, Z.lxor lo2 hi1)
  else
    let '(lo0, hi0) := _museair_wmul (Z.lxor i MUSEAIR_SECRET_3) j in
    let '(lo1, hi1) := _museair_wmul (Z.lxor j MUSEAIR_SECRET_4) k in
    let '(lo2, hi2) := _museair_wmul (Z.lxor k MUSEAIR_SECRET_5) i in
    (Z.lxor i (Z.lxor lo0 hi2),
     Z.lxor j (Z.lxor lo1 hi0),
     Z.lxor k (Z.lxor lo2 hi1)).




(** ** Buffers that agree *)

(** The buffers [m1] and [m2] hold the same bytes, or both none, at the
    offsets from [lo] to [hi - 1]. *)
Definition agree (m1 m2 : buffer) (lo hi : Z) : Prop :=
  forall k, lo <= k < hi -> load m1 k = load m2 k.

(** The big-endian value of the [n] bytes from offset [k]. *)
Fixpoint be_at (n : nat) (m : buffer) (k : Z) : Z :=
  match n with
  | O => 0
  | S n' =>
      Z.lor (Z.shiftl (byte_at m k) (8 * Z.of_nat n')) (be_at n' m (k + 1))
  end.

(** The key that starts with the 64-bit words [ws], little-endian, and
    goes on with the bytes [0, 1, ..., n-1]. *)
Definition words_key (ws : list Z) (n : nat) : buffer :=
  flat_map (le_split 8) ws ++ iota_key n.

(** ** Keys with chosen words *)

Section Keys.
Local Open Scope u64_scope.

(** The 16-byte key whose short packing is [(i, j)]. *)
Definition short_key (i j : Z) : buffer :=
  le_split 4 (i >> 32) ++ le_split 4 (j >> 32) ++ le_split 4 j ++
  le_split 4 i.

(** What [_museair_tower_short] XORs onto the two packed words. *)
Definition short_pad (len seed : Z) : Z * Z :=
  let '(lo, hi) :=
    _museair_wmul (seed .^ MUSEAIR_SECRET_0) (len .^ MUSEAIR_SECRET_1) in
  (lo .^ len, hi .^ seed).

(** A 23-byte key for [seed]: its second word is state word 1, and its
    first and its last word, which shares a byte with the second, differ
    from state words 0 and 2 by the same value; [t] sets the 7 bytes of this
    value that are free. *)
Definition zero_key (seed t : Z) : buffer :=
  let w1 := MUSEAIR_SECRET_1 .- seed in
  let c := (t << 8) .| ((w1 >> 56) .^ ((MUSEAIR_SECRET_2 .^ seed) .& 255)) in
  le_split 8 (c .^ (MUSEAIR_SECRET_0 .+ seed)) ++ le_split 8 w1 ++
  le_split 7 ((c .^ (MUSEAIR_SECRET_2 .^ seed)) >> 8).

End Keys.

(** ** The small blocks *)

(** The 6-word block on the words [w 0 .. w 5]: the pairs (0,1), (2,3),
    (4,5), each with its own two words. *)
Definition block_6 (BFast : bool) (st : state6) (w : Z -> Z) : state6 :=
  let '(a0, a1) := _museair_frac_6 BFast (st0 st) (st1 st) (w 0) (w 1) in
  let '(a2, a3) := _museair_frac_6 BFast (st2 st) (st3 st) (w 2) (w 3) in
  let '(a4, a5) := _museair_frac_6 BFast (st4 st) (st5 st) (w 4) (w 5) in
  State6 a0 a1 a2 a3 a4 a5.

(** The 3-word block on the words [w 0 .. w 2]: the pairs (0,3), (1,4),
    (2,5), each with one word. *)
Definition block_3 (BFast : bool) (st : state6) (w : Z -> Z) : state6 :=
  let '(a0, a3) := _museair_frac_3 BFast (st0 st) (st3 st) (w 0) in
  let '(a1, a4) := _museair_frac_3 BFast (st1 st) (st4 st) (w 1) in
  let '(a2, a5) := _museair_frac_3 BFast (st2 st) (st5 st) (w 2) in
  State6 a0 a1 a2 a3 a4 a5.

(** ** The sweep of the self-test *)

(** The digests of the keys [{}], [{0}], ..., [{0, ..., n-2}], each with
    the seed 256 minus its length, one after the other. *)
Fixpoint sweep (n : nat) (HASH : hash_fn) : option (list byte) :=
  match n with
  | O => Some []
  | S n' =>
      ds <- sweep n' HASH ;;
      d <- HASH (iota_key n') (Z.of_nat n') (256 - Z.of_nat n') ;;
      Some (ds ++ d)
  end.

(** * Properties *)

(** ** Bits of the 64-bit operations *)

Lemma wrap_range (x : Z) : U64.in_range (U64.wrap x).
Proof.
  unfold U64.in_range, U64.wrap, U64.modulus.
  apply Z.mod_pos_bound. reflexivity.
Qed.

Lemma wrap_small (x : Z) : U64.in_range x -> U64.wrap x = x.
Proof.
  unfold U64.in_range, U64.wrap. intros H. apply Z.mod_small. exact H.
Qed.

Lemma wrap_testbit (x n : Z) :
  Z.testbit (U64.wrap x) n = (n <? 64) && Z.testbit x n.
Proof.
  unfold U64.wrap, U64.modulus. apply Z.testbit_mod_pow2. lia.
Qed.

Lemma not_testbit (x n : Z) :
  0 <= n -> Z.testbit (U64.not x) n = (n <? 64) && negb (Z.testbit x n).
Proof.
  intros Hn. unfold U64.not. rewrite wrap_testbit, Z.lnot_spec by exact Hn.
  reflexivity.
Qed.

Ltac euclid := Z.to_euclidean_division_equations; lia.

Ltac bitwise n Hn :=
  apply Z.bits_inj'; intros n Hn;
  repeat first
    [ rewrite Z.lxor_spec | rewrite Z.land_spec | rewrite Z.lor_spec
    | rewrite not_testbit by exact Hn | rewrite wrap_testbit ].

(** ChiMix, bit by bit: outside the low 64 bits nothing moves. *)
Lemma chixx_bits (t u v n : Z) :
  0 <= n ->
  let '(t', u', v') := _museair_chixx t u v in
  Z.testbit t' n =
    xorb (Z.testbit t n) ((n <? 64) && negb (Z.testbit u n) && Z.testbit v n) /\
  Z.testbit u' n =
    xorb (Z.testbit u n) ((n <? 64) && negb (Z.testbit v n) && Z.testbit t n) /\
  Z.testbit v' n =
    xorb (Z.testbit v n) ((n <? 64) && negb (Z.testbit t n) && Z.testbit u n).
Proof.
  intros Hn. unfold _museair_chixx.
  rewrite !Z.lxor_spec, !Z.land_spec, !not_testbit by exact Hn.
  repeat split; reflexivity.
Qed.

Lemma chixx_twice (t u v : Z) :
  let '(t', u', v') := _museair_chixx t u v in
  _museair_chixx t' u' v' = (t, u, v).
Proof.
  unfold _museair_chixx.
  f_equal; [f_equal|]; bitwise n Hn;
    destruct (n <? 64), (Z.testbit t n), (Z.testbit u n), (Z.testbit v n);
    reflexivity.
Qed.

(** ** Reads inside the buffer *)

Lemma byte_val_range (b : byte) : 0 <= byte_val b < 256.
Proof.
  unfold byte_val. pose proof (Byte.to_N_bounded b) as H. lia.
Qed.

Lemma load_inside (m : buffer) (p : Z) :
  0 <= p < size m -> load m p = Some (byte_at m p).
Proof.
  unfold size, load, byte_at. intros [H0 H1].
  destruct (Z.ltb_spec p 0) as [Hneg|_]; [lia|].
  assert (Hlt : (Z.to_nat p < length m)%nat) by lia.
  rewrite (nth_error_nth' m Byte.x00 Hlt). reflexivity.
Qed.

Lemma load_le_inside (n : nat) (m : buffer) (p : Z) :
  0 <= p -> p + Z.of_nat n <= size m -> load_le n m p = Some (le_at n m p).
Proof.
  revert p. induction n as [|n IH]; intros p H0 H1; [reflexivity|].
  cbn [load_le le_at].
  rewrite load_inside by lia. cbn [bind].
  rewrite IH by lia. reflexivity.
Qed.

Lemma le_at_range (n : nat) (m : buffer) (k : Z) :
  0 <= le_at n m k < 2 ^ (8 * Z.of_nat n).
Proof.
  revert k. induction n as [|n IH]; intros k; [cbn; lia|].
  cbn [le_at].
  pose proof (byte_val_range (nth (Z.to_nat k) m Byte.x00)) as Hb.
  fold (byte_at m k) in Hb.
  specialize (IH (k + 1)).
  split.
  - apply Z.lor_nonneg. split; [lia|]. apply Z.shiftl_nonneg. lia.
  - assert (Hnn : 0 <= Z.lor (byte_at m k) (Z.shiftl (le_at n m (k + 1)) 8)).
    { apply Z.lor_nonneg. split; [lia|]. apply Z.shiftl_nonneg. lia. }
    destruct (Z.eq_dec (Z.lor (byte_at m k) (Z.shiftl (le_at n m (k + 1)) 8)) 0)
      as [E|NE]; [rewrite E; apply Z.pow_pos_nonneg; lia|].
    apply Z.log2_lt_pow2; [lia|].
    rewrite Z.log2_lor by (try lia; apply Z.shiftl_nonneg; lia).
    apply Z.max_lub_lt.
    + destruct (Z.eq_dec (byte_at m k) 0) as [E0|N0].
      * rewrite E0. cbn. lia.
      * apply Z.log2_lt_pow2; [lia|].
        apply Z.lt_le_trans with (2 ^ 8); [cbn; lia|].
        apply Z.pow_le_mono_r; lia.
    + destruct (Z.eq_dec (le_at n m (k + 1)) 0) as [E0|N0].
      * rewrite E0, Z.shiftl_0_l. cbn. lia.
      * rewrite Z.log2_shiftl by lia.
        assert (Z.log2 (le_at n m (k + 1)) < 8 * Z.of_nat n)
          by (apply Z.log2_lt_pow2; lia).
        lia.
Qed.

Lemma read_u32_inside (m : buffer) (p : Z) :
  0 <= p -> p + 4 <= size m -> _museair_read_u32 m p = Some (le_at 4 m p).
Proof. intros. apply load_le_inside; lia. Qed.

Lemma read_u64_inside (m : buffer) (p : Z) :
  0 <= p -> p + 8 <= size m -> _museair_read_u64 m p = Some (le_at 8 m p).
Proof. intros. apply load_le_inside; lia. Qed.

Lemma le_at_4_range (m : buffer) (k : Z) : 0 <= le_at 4 m k < 2 ^ 32.
Proof. apply (le_at_range 4). Qed.

Lemma le_at_8_range (m : buffer) (k : Z) : U64.in_range (le_at 8 m k).
Proof. apply (le_at_range 8). Qed.

Lemma iota_key_size (n : nat) : size (iota_key n) = Z.of_nat n.
Proof.
  unfold size, iota_key. rewrite length_map, length_seq. reflexivity.
Qed.

(** ** The short packing *)

Lemma shl_small (k a n : Z) :
  0 <= n -> 0 <= k -> k + n <= 64 -> 0 <= a < 2 ^ k ->
  U64.shl a n = Z.shiftl a n.
Proof.
  intros Hn Hk Hkn Ha. unfold U64.shl. apply wrap_small.
  unfold U64.in_range, U64.modulus. rewrite Z.shiftl_mul_pow2 by exact Hn.
  assert (Hle : 2 ^ (k + n) <= 2 ^ 64) by (apply Z.pow_le_mono_r; lia).
  rewrite Z.pow_add_r in Hle by lia.
  assert (0 < 2 ^ n) by (apply Z.pow_pos_nonneg; lia).
  nia.
Qed.

Lemma read_short_off (len : Z) :
  4 <= len <= 16 ->
  U64.shr (Z.land len 24) (U64.shr len 3) = if 8 <=? len then 4 else 0.
Proof.
  intros H.
  assert (E : len = 4 \/ len = 5 \/ len = 6 \/ len = 7 \/ len = 8 \/ len = 9 \/
              len = 10 \/ len = 11 \/ len = 12 \/ len = 13 \/ len = 14 \/
              len = 15 \/ len = 16) by lia.
  repeat (destruct E as [E|E]; [subst len; reflexivity|]).
  subst len; reflexivity.
Qed.

Lemma read_short_empty (m : buffer) (p : Z) :
  _museair_read_short m p 0 = Some (0, 0).
Proof. reflexivity. Qed.

Lemma read_short_bytes (m : buffer) (p len : Z) :
  0 <= p -> 1 <= len <= 3 -> p + len <= size m ->
  _museair_read_short m p len =
    Some (Z.lor (Z.lor (Z.shiftl (byte_at m p) 48)
                       (Z.shiftl (byte_at m (p + Z.shiftr len 1)) 24))
                (byte_at m (p + (len - 1))),
          0).
Proof.
  intros Hp Hlen Hm. unfold _museair_read_short.
  rewrite Z.geb_leb. destruct (Z.leb_spec 4 len) as [H4|_]; [lia|].
  rewrite Z.gtb_ltb. destruct (Z.ltb_spec 0 len) as [_|H0]; [|lia].
  assert (Hs : 0 <= Z.shiftr len 1 < len).
  { rewrite Z.shiftr_div_pow2 by lia. change (2 ^ 1) with 2.
    split; [apply Z.div_pos; lia|apply Z.div_lt_upper_bound; lia]. }
  unfold U64.shr at 1.
  rewrite !load_inside by lia. cbn [bind].
  assert (B : forall k, 0 <= byte_at m k < 2 ^ 8)
    by (intros k; apply byte_val_range).
  rewrite !(shl_small 8) by (try lia; apply B).
  reflexivity.
Qed.

Lemma read_short_words (m : buffer) (p len : Z) :
  0 <= p -> 4 <= len <= 16 -> p + len <= size m ->
  let off := if 8 <=? len then 4 else 0 in
  _museair_read_short m p len =
    Some (Z.lor (Z.shiftl (le_at 4 m p) 32) (le_at 4 m (p + len - 4)),
          Z.lor (Z.shiftl (le_at 4 m (p + off)) 32)
                (le_at 4 m (p + len - 4 - off))).
Proof.
  intros Hp Hlen Hm off. unfold _museair_read_short.
  rewrite Z.geb_leb. destruct (Z.leb_spec 4 len) as [_|H4]; [|lia].
  rewrite read_short_off by exact Hlen. fold off.
  assert (Hoff : 0 <= off /\ off + 4 <= len).
  { unfold off. destruct (Z.leb_spec 8 len); lia. }
  rewrite !read_u32_inside by lia. cbn [bind].
  rewrite !(shl_small 32) by (try lia; apply le_at_4_range).
  reflexivity.
Qed.

(** C7: the short packing for every length in [0, 16] of a buffer that
    holds that many bytes: nothing for length 0; for lengths 1 to 3 the
    bytes at 0, [len >> 1] and [len - 1] at bit positions 48, 24 and 0 of
    [i], with [j = 0] (so length 1 repeats byte 0 three times and length 2
    its last byte twice); for lengths 4 to 16 the little-endian 32-bit
    reads at 0, [len - 4], [off] and [len - 4 - off], where [off] is 4
    exactly from length 8 on and 0 below. *)
Theorem read_short_packing (m : buffer) (p len : Z) :
  0 <= p -> 0 <= len <= 16 -> p + len <= size m ->
  (len = 0 -> _museair_read_short m p len = Some (0, 0)) /\
  (1 <= len <= 3 ->
     _museair_read_short m p len =
       Some (Z.lor (Z.lor (Z.shiftl (byte_at m p) 48)
                          (Z.shiftl (byte_at m (p + Z.shiftr len 1)) 24))
                   (byte_at m (p + (len - 1))),
             0)) /\
  (len = 1 ->
     _museair_read_short m p len =
       Some (Z.lor (Z.lor (Z.shiftl (byte_at m p) 48)
                          (Z.shiftl (byte_at m p) 24))
                   (byte_at m p),
             0)) /\
  (len = 2 ->
     _museair_read_short m p len =
       Some (Z.lor (Z.lor (Z.shiftl (byte_at m p) 48)
                          (Z.shiftl (byte_at m (p + 1)) 24))
                   (byte_at m (p + 1)),
             0)) /\
  (4 <= len <= 16 ->
     let off := if 8 <=? len then 4 else 0 in
     _museair_read_short m p len =
       Some (Z.lor (Z.shiftl (le_at 4 m p) 32) (le_at 4 m (p + len - 4)),
             Z.lor (Z.shiftl (le_at 4 m (p + off)) 32)
                   (le_at 4 m (p + len - 4 - off)))).
Proof.
  intros Hp Hlen Hm. repeat split.
  - intros ->. apply read_short_empty.
  - intros H. apply read_short_bytes; assumption.
  - intros ->. rewrite read_short_bytes by lia.
    change (Z.shiftr 1 1) with 0. change (1 - 1) with 0.
    rewrite Z.add_0_r. reflexivity.
  - intros ->. rewrite read_short_bytes by lia. reflexivity.
  - intros H. apply read_short_words; assumption.
Qed.

Lemma read_short_packing_witness :
  _museair_read_short (iota_key 16) 1 0 = Some (0, 0) /\
  _museair_read_short (iota_key 16) 1 3 = Some (0x0001000002000003, 0) /\
  _museair_read_short (iota_key 16) 1 1 = Some (0x0001000001000001, 0) /\
  _museair_read_short (iota_key 16) 1 2 = Some (0x0001000002000002, 0) /\
  _museair_read_short (iota_key 16) 0 7 =
    Some (0x0302010006050403, 0x0302010006050403) /\
  _museair_read_short (iota_key 16) 0 8 =
    Some (0x0302010007060504, 0x0706050403020100).
Proof.
  assert (Hm : forall p len, p + len <= 16 -> p + len <= size (iota_key 16))
    by (intros; rewrite iota_key_size; lia).
  split; [|split; [|split; [|split; [|split]]]].
  - destruct (read_short_packing (iota_key 16) 1 0) as (A & _); try lia.
    { apply Hm; lia. }
    apply A. reflexivity.
  - destruct (read_short_packing (iota_key 16) 1 3) as (_ & A & _); try lia.
    { apply Hm; lia. }
    rewrite A by lia. reflexivity.
  - destruct (read_short_packing (iota_key 16) 1 1) as (_ & _ & A & _);
      try lia.
    { apply Hm; lia. }
    rewrite A by lia. reflexivity.
  - destruct (read_short_packing (iota_key 16) 1 2) as (_ & _ & _ & A & _);
      try lia.
    { apply Hm; lia. }
    rewrite A by lia. reflexivity.
  - destruct (read_short_packing (iota_key 16) 0 7) as (_ & _ & _ & _ & A);
      try lia.
    { apply Hm; lia. }
    rewrite A by lia. reflexivity.
  - destruct (read_short_packing (iota_key 16) 0 8) as (_ & _ & _ & _ & A);
      try lia.
    { apply Hm; lia. }
    rewrite A by lia. reflexivity.
Defined.

(** C9: for lengths 4 to 7 the offset of word [j] is 0, so the two words
    of the short packing are the same. *)
Theorem read_short_equal_words (m : buffer) (p len : Z) :
  0 <= p -> 4 <= len <= 7 -> p + len <= size m ->
  exists w, _museair_read_short m p len = Some (w, w).
Proof.
  intros Hp Hlen Hm.
  rewrite read_short_words by lia.
  destruct (Z.leb_spec 8 len) as [H8|_]; [lia|].
  rewrite Z.add_0_r, Z.sub_0_r. eexists. reflexivity.
Qed.

Lemma read_short_equal_words_witness :
  exists w, _museair_read_short (iota_key 16) 0 5 = Some (w, w).
Proof.
  apply read_short_equal_words; try lia.
  rewrite iota_key_size. lia.
Defined.

(** ** ChiMix *)

Lemma not_small (u : Z) : U64.in_range u -> U64.not u = U64.max - u.
Proof.
  unfold U64.in_range, U64.not, U64.wrap, U64.max, U64.modulus, Z.lnot.
  intros H. symmetry. apply (Z.mod_unique _ _ (-1)); lia.
Qed.

(** C8, first half as claimed and second half as the code has it: on
    64-bit words ChiMix is [(t ^ (~u & v), u ^ (~v & t), v ^ (~t & u))],
    [~] being the 64-bit complement, and applying it twice gives the
    triple back. *)
Theorem chixx_formula_involution (t u v : Z) :
  U64.in_range t -> U64.in_range u -> U64.in_range v ->
  _museair_chixx t u v =
    (Z.lxor t (Z.land (U64.max - u) v),
     Z.lxor u (Z.land (U64.max - v) t),
     Z.lxor v (Z.land (U64.max - t) u)) /\
  (let '(t', u', v') := _museair_chixx t u v in
   _museair_chixx t' u' v' = (t, u, v)).
Proof.
  intros Ht Hu Hv. split.
  - unfold _museair_chixx. rewrite !not_small by assumption. reflexivity.
  - apply chixx_twice.
Qed.

Lemma chixx_formula_involution_witness :
  _museair_chixx 1 2 3 = (0, 2, 1) /\ _museair_chixx 0 2 1 = (1, 2, 3).
Proof.
  assert (R : forall x, 0 <= x < 4 -> U64.in_range x)
    by (unfold U64.in_range, U64.modulus; lia).
  destruct (chixx_formula_involution 1 2 3) as [E1 E2]; try (apply R; lia).
  split; [exact E1 | exact E2].
Defined.

(** The claim of C8 that some triple does not come back after two
    applications is refuted: there is none. *)
Lemma chixx_no_triple_moves :
  ~ (exists t u v : Z,
       U64.in_range t /\ U64.in_range u /\ U64.in_range v /\
       (let '(t', u', v') := _museair_chixx t u v in
        _museair_chixx t' u' v') <> (t, u, v)).
Proof.
  intros (t & u & v & _ & _ & _ & H). apply H. apply chixx_twice.
Qed.

(** ** Dispatch on the length *)

Lemma hash_short_path (BFast : bool) (m : buffer) (len seed : Z) :
  len <= 16 ->
  _museair_hash BFast m len seed = short_path m len seed /\
  _museair_hash_128 BFast m len seed = short_path_128 BFast m len seed.
Proof.
  intros H.
  unfold _museair_hash, _museair_hash_128, short_path, short_path_128,
    _museair_hash_short, _museair_hash_short_128.
  destruct (Z.leb_spec len 16) as [_|H']; [|lia].
  destruct (_museair_tower_short m len seed) as [[i j]|]; cbn [bind]; split;
    try reflexivity.
  destruct (_museair_epi_short_128 BFast i j); reflexivity.
Qed.

Lemma hash_loong_path (BFast : bool) (m : buffer) (len seed : Z) :
  16 < len ->
  _museair_hash BFast m len seed = loong_path BFast m len seed /\
  _museair_hash_128 BFast m len seed = loong_path_128 BFast m len seed.
Proof.
  intros H.
  unfold _museair_hash, _museair_hash_128, loong_path, loong_path_128,
    _museair_hash_loong, _museair_hash_loong_128.
  destruct (Z.leb_spec len 16) as [H'|_]; [lia|].
  destruct (_museair_tower_loong BFast m len seed) as [[[i j] k]|];
    cbn [bind]; split; try reflexivity.
  - destruct (_museair_epi_loong BFast i j k) as [[? ?] ?]; reflexivity.
  - destruct (_museair_epi_loong_128 BFast i j k) as [[? ?] ?]; reflexivity.
Qed.

(** C2: each of the four entry points runs the short tower and the short
    epilogue when the length is at most 16, and the block compressor and
    the long epilogue when it is more. *)
Theorem dispatch_cutoff (m : buffer) (len seed : Z) :
  (len <= 16 ->
     museair_hash m len seed = short_path m len seed /\
     museair_bfast_hash m len seed = short_path m len seed /\
     museair_hash_128 m len seed = short_path_128 false m len seed /\
     museair_bfast_hash_128 m len seed = short_path_128 true m len seed) /\
  (16 < len ->
     museair_hash m len seed = loong_path false m len seed /\
     museair_bfast_hash m len seed = loong_path true m len seed /\
     museair_hash_128 m len seed = loong_path_128 false m len seed /\
     museair_bfast_hash_128 m len seed = loong_path_128 true m len seed).
Proof.
  unfold museair_hash, museair_bfast_hash, museair_hash_128,
    museair_bfast_hash_128.
  split; intros H.
  - destruct (hash_short_path false m len seed H),
      (hash_short_path true m len seed H). auto.
  - destruct (hash_loong_path false m len seed H),
      (hash_loong_path true m len seed H). auto.
Qed.

(** Lengths 16 and 17 of one key: the first goes through the short path,
    the second through the long one, and on the 17 bytes the short path
    would have given another digest. *)
Lemma dispatch_cutoff_witness :
  (museair_hash (iota_key 17) 16 0 = short_path (iota_key 17) 16 0 /\
   museair_hash (iota_key 17) 17 0 = loong_path false (iota_key 17) 17 0) /\
  short_path (iota_key 17) 17 0 <> museair_hash (iota_key 17) 17 0.
Proof.
  split; [split|].
  - apply (proj1 (dispatch_cutoff (iota_key 17) 16 0)). lia.
  - apply (proj2 (dispatch_cutoff (iota_key 17) 17 0)). lia.
  - vm_compute. discriminate.
Defined.

(** ** Length 0 *)

(** C10: with length 0 no byte is read, so any two buffers give the same
    digest, through each of the four entry points. *)
Theorem empty_input_ignores_buffer (seed : Z) (b1 b2 : buffer) :
  (exists d, museair_hash b1 0 seed = Some d /\
             museair_hash b2 0 seed = Some d) /\
  (exists d, museair_hash_128 b1 0 seed = Some d /\
             museair_hash_128 b2 0 seed = Some d) /\
  (exists d, museair_bfast_hash b1 0 seed = Some d /\
             museair_bfast_hash b2 0 seed = Some d) /\
  (exists d, museair_bfast_hash_128 b1 0 seed = Some d /\
             museair_bfast_hash_128 b2 0 seed = Some d).
Proof.
  assert (T : forall m, _museair_tower_short m 0 seed =
                        _museair_tower_short [] 0 seed) by reflexivity.
  assert (S : exists ij, _museair_tower_short [] 0 seed = Some ij).
  { unfold _museair_tower_short. rewrite read_short_empty. cbn [bind].
    destruct (_museair_wmul _ _). eexists. reflexivity. }
  destruct S as [[i j] S].
  unfold museair_hash, museair_hash_128, museair_bfast_hash,
    museair_bfast_hash_128, _museair_hash, _museair_hash_128,
    _museair_hash_short, _museair_hash_short_128.
  change (0 <=? 16) with true. cbv iota.
  rewrite (T b1), (T b2), S. cbn [bind].
  destruct (_museair_epi_short i j) as [i1 j1].
  destruct (_museair_epi_short_128 false i j) as [i2 j2].
  destruct (_museair_epi_short_128 true i j) as [i3 j3].
  repeat split; eexists; split; reflexivity.
Qed.

(** ** The 12-word block *)

Lemma layer_12_inside (BFast : bool) (st : state6) (m : buffer) (p r : Z) :
  0 <= p -> p + 96 <= size m ->
  _museair_layer_12 BFast st m p r =
    Some (ring_block (ring_pair BFast) st (word_at m p) r).
Proof.
  intros Hp Hm. destruct st as [s0 s1 s2 s3 s4 s5].
  unfold _museair_layer_12, word_at.
  destruct BFast; cbn [negb];
    rewrite !read_u64_inside by lia; reflexivity.
Qed.

(** C5, as the code has it: a 12-word block inside the buffer is the ring
    of the six pairs; in each pair the first word becomes its mixed value
    plus (carry XOR high half) in the full variant and carry XOR high half
    in the fast variant; the low half is the carry of the next pair, and
    that of the last pair is the carry handed to the next block. *)
Theorem layer_12_ring (BFast : bool) (st : state6) (m : buffer) (p q r : Z)
    (fuel : nat) :
  0 <= p -> p + 96 <= size m ->
  _museair_layer_12 BFast st m p r =
    Some (ring_block (ring_pair BFast) st (word_at m p) r) /\
  (2 * 96 <= q ->
   tower_loong_do_while (S fuel) BFast st m p q r =
     let '(st', r') := ring_block (ring_pair BFast) st (word_at m p) r in
     tower_loong_do_while fuel BFast st' m (p + 96) (q - 96) r').
Proof.
  intros Hp Hm. split; [apply layer_12_inside; assumption|].
  intros Hq. cbn [tower_loong_do_while].
  rewrite layer_12_inside by assumption. cbn [bind].
  destruct (ring_block (ring_pair BFast) st (word_at m p) r) as [st' r'].
  change (8 * 12) with 96.
  rewrite Z.geb_leb. destruct (Z.leb_spec 96 (q - 96)) as [_|H]; [|lia].
  reflexivity.
Qed.

Lemma layer_12_ring_witness :
  _museair_layer_12 true (tower_loong_state 0) (iota_key 192) 0
      MUSEAIR_RING_PREV =
    Some (ring_block (ring_pair true) (tower_loong_state 0)
            (word_at (iota_key 192) 0) MUSEAIR_RING_PREV) /\
  tower_loong_do_while 2 true (tower_loong_state 0) (iota_key 192) 0 192
      MUSEAIR_RING_PREV =
    (let '(st', r') :=
       ring_block (ring_pair true) (tower_loong_state 0)
         (word_at (iota_key 192) 0) MUSEAIR_RING_PREV in
     tower_loong_do_while 1 true st' (iota_key 192) (0 + 96) (192 - 96) r').
Proof.
  assert (Hm : 0 + 96 <= size (iota_key 192))
    by (rewrite iota_key_size; lia).
  destruct (layer_12_ring true (tower_loong_state 0) (iota_key 192) 0 192
              MUSEAIR_RING_PREV 1 ltac:(lia) Hm) as [A B].
  split; [exact A | apply B; lia].
Defined.

(** C5 as claimed, with the fast variant storing the low half, fails on
    the first block of the key [{0, ..., 95}]. *)
Lemma layer_12_fast_not_low_half :
  ~ (forall (BFast : bool) (st : state6) (m : buffer) (p r : Z),
       state_in_range st -> U64.in_range r ->
       0 <= p -> p + 96 <= size m ->
       _museair_layer_12 BFast st m p r =
         Some (ring_block (ring_pair_claimed BFast) st (word_at m p) r)).
Proof.
  intros H.
  assert (Hs : state_in_range (tower_loong_state 0))
    by (vm_compute; repeat split; discriminate).
  assert (Hr : U64.in_range MUSEAIR_RING_PREV)
    by (vm_compute; split; [discriminate|reflexivity]).
  assert (Hm : 0 + 96 <= size (iota_key 96))
    by (rewrite iota_key_size; lia).
  specialize (H true (tower_loong_state 0) (iota_key 96) 0 MUSEAIR_RING_PREV
                Hs Hr ltac:(lia) Hm).
  vm_compute in H. discriminate H.
Qed.

(** ** The block compressor stays inside the buffer *)

Lemma do_while_inside (fuel : nat) (BFast : bool) (st : state6) (m : buffer)
    (p q r : Z) :
  0 <= p -> 96 <= q -> p + q <= size m -> q / 96 <= Z.of_nat fuel ->
  exists st' r',
    tower_loong_do_while fuel BFast st m p q r =
      Some (st', p + 96 * (q / 96), q mod 96, r').
Proof.
  revert st p q r.
  induction fuel as [|fuel IH]; intros st p q r Hp Hq Hm Hf.
  - exfalso. assert (1 <= q / 96) by (apply Z.div_le_lower_bound; lia). lia.
  - cbn [tower_loong_do_while].
    rewrite layer_12_inside by lia. cbn [bind].
    destruct (ring_block (ring_pair BFast) st (word_at m p) r) as [st1 r1].
    change (8 * 12) with 96.
    assert (Hd : q / 96 = (q - 96) / 96 + 1 /\ q mod 96 = (q - 96) mod 96).
    { replace q with ((q - 96) + 1 * 96) at 1 3 by lia.
      rewrite Z.div_add, Z.mod_add by lia. split; reflexivity. }
    destruct Hd as [Hd Hmod].
    rewrite Z.geb_leb. destruct (Z.leb_spec 96 (q - 96)) as [Hge|Hlt].
    + destruct (IH st1 (p + 96) (q - 96) r1) as (st' & r' & E); try lia.
      exists st', r'. rewrite E, Hd, Hmod. do 4 f_equal. lia.
    + exists st1, r1.
      assert (E0 : (q - 96) / 96 = 0) by (apply Z.div_small; lia).
      assert (E1 : (q - 96) mod 96 = q - 96) by (apply Z.mod_small; lia).
      rewrite Hd, Hmod, E0, E1. do 4 f_equal.
Qed.

Lemma ring_below_96 (BFast : bool) (m : buffer) (seed : Z) (st : state6)
    (p q : Z) :
  q < 96 -> tower_loong_ring BFast m seed st p q = Some (st, p, q).
Proof.
  intros H. unfold tower_loong_ring. change (8 * 12) with 96.
  rewrite Z.geb_leb. destruct (Z.leb_spec 96 q); [lia|reflexivity].
Qed.

Lemma ring_from_96 (BFast : bool) (m : buffer) (seed : Z) (len : Z) :
  96 <= len <= size m ->
  exists st r,
    tower_loong_do_while (Z.to_nat (len / 96)) BFast (seeded_six seed) m 0 len
        MUSEAIR_RING_PREV =
      Some (st, 96 * (len / 96), len mod 96, r) /\
    tower_loong_ring BFast m seed (tower_loong_state seed) 0 len =
      Some (ring_fold st r, 96 * (len / 96), len mod 96).
Proof.
  intros [H96 Hm].
  destruct (do_while_inside (Z.to_nat (len / 96)) BFast (seeded_six seed) m
              0 len MUSEAIR_RING_PREV) as (st & r & E); try lia.
  rewrite Z.add_0_l in E.
  exists st, r. split; [exact E|].
  unfold tower_loong_ring, tower_loong_state. change (8 * 12) with 96.
  rewrite Z.geb_leb. destruct (Z.leb_spec 96 len) as [_|H]; [|lia].
  fold (seeded_six seed). rewrite E. cbn [bind].
  destruct st; reflexivity.
Qed.

Lemma read_short_inside (m : buffer) (p q : Z) :
  0 <= p -> 0 <= q <= 16 -> p + q <= size m ->
  exists i j, _museair_read_short m p q = Some (i, j).
Proof.
  intros Hp Hq Hm.
  destruct (Z.eq_dec q 0) as [->|Hq0].
  - rewrite read_short_empty. eauto.
  - destruct (Z_lt_le_dec q 4) as [Hlt|Hge].
    + rewrite read_short_bytes by lia. eauto.
    + rewrite read_short_words by lia. eauto.
Qed.

Lemma layer_0_words_long (m : buffer) (p q : Z) :
  0 <= p -> 16 < q -> p + q <= size m ->
  layer_0_words m p q =
    Some (le_at 8 m p, le_at 8 m (p + 8), le_at 8 m (p + q - 8)).
Proof.
  intros Hp Hq Hm. unfold layer_0_words. change (8 * 2) with 16.
  destruct (Z.leb_spec q 16) as [H|_]; [lia|].
  rewrite !read_u64_inside by lia. reflexivity.
Qed.

Lemma layer_0_words_inside (m : buffer) (p q : Z) :
  0 <= p -> 0 <= q -> p + q <= size m ->
  exists i j k, layer_0_words m p q = Some (i, j, k).
Proof.
  intros Hp Hq Hm.
  destruct (Z_le_gt_dec q 16) as [Hle|Hgt].
  - unfold layer_0_words. change (8 * 2) with 16.
    destruct (Z.leb_spec q 16) as [_|H]; [|lia].
    destruct (read_short_inside m p q) as (i & j & E); try lia.
    rewrite E. cbn [bind]. eauto.
  - rewrite layer_0_words_long by lia. eauto.
Qed.

Lemma layer_0_inside (st : state6) (m : buffer) (p q len : Z) :
  0 <= p -> 0 <= q -> p + q <= size m ->
  exists i j k, _museair_layer_0 st m p q len = Some (i, j, k).
Proof.
  intros Hp Hq Hm.
  destruct (layer_0_words_inside m p q) as (i & j & k & E); try lia.
  destruct st as [s0 s1 s2 s3 s4 s5]. unfold _museair_layer_0.
  rewrite E. cbn [bind].
  destruct (len >=? 8 * 3).
  - destruct (_museair_chixx s0 s2 s4) as [[? ?] ?].
    destruct (_museair_chixx s1 s3 s5) as [[? ?] ?]. eauto.
  - eauto.
Qed.

Lemma layer_6_inside (BFast : bool) (st : state6) (m : buffer) (p : Z) :
  0 <= p -> p + 48 <= size m ->
  exists st', _museair_layer_6 BFast st m p = Some st'.
Proof.
  intros Hp Hm. destruct st as [s0 s1 s2 s3 s4 s5].
  unfold _museair_layer_6.
  rewrite !read_u64_inside by lia. cbn [bind].
  repeat match goal with
         | |- context [_museair_frac_6 ?b ?x ?y ?v ?w] =>
             destruct (_museair_frac_6 b x y v w)
         end.
  eauto.
Qed.

Lemma layer_3_inside (BFast : bool) (st : state6) (m : buffer) (p : Z) :
  0 <= p -> p + 24 <= size m ->
  exists st', _museair_layer_3 BFast st m p = Some st'.
Proof.
  intros Hp Hm. destruct st as [s0 s1 s2 s3 s4 s5].
  unfold _museair_layer_3.
  rewrite !read_u64_inside by lia. cbn [bind].
  repeat match goal with
         | |- context [_museair_frac_3 ?b ?x ?y ?w] =>
             destruct (_museair_frac_3 b x y w)
         end.
  eauto.
Qed.

Lemma tail_reaches_fold (BFast : bool) (m : buffer) (len : Z) (st : state6)
    (p q : Z) :
  0 <= p -> 0 <= q < 96 -> p + q <= size m ->
  exists st' p' q',
    0 <= p' /\ 0 <= q' < 24 /\ p' + q' = p + q /\
    tower_loong_tail BFast m len st p q =
      ('(i, j, k) <- _museair_layer_0 st' m p' q' len ;;
       Some (_museair_layer_f BFast len i j k)).
Proof.
  intros Hp Hq Hm. unfold tower_loong_tail.
  change (8 * 6) with 48. change (8 * 3) with 24.
  assert (S6 : exists st1 p1 q1,
            (if q >=? 48
             then st' <- _museair_layer_6 BFast st m p ;;
                  Some (st', p + 48, q - 48)
             else Some (st, p, q)) = Some (st1, p1, q1) /\
            0 <= p1 /\ 0 <= q1 < 48 /\ p1 + q1 = p + q).
  { rewrite Z.geb_leb. destruct (Z.leb_spec 48 q) as [H|H].
    - destruct (layer_6_inside BFast st m p) as [st' E]; try lia.
      rewrite E. cbn [bind]. exists st', (p + 48), (q - 48).
      repeat split; lia.
    - exists st, p, q. repeat split; lia. }
  destruct S6 as (st1 & p1 & q1 & E6 & Hp1 & Hq1 & Hm1).
  rewrite E6. cbn [bind].
  assert (S3 : exists st2 p2 q2,
            (if q1 >=? 24
             then st' <- _museair_layer_3 BFast st1 m p1 ;;
                  Some (st', p1 + 24, q1 - 24)
             else Some (st1, p1, q1)) = Some (st2, p2, q2) /\
            0 <= p2 /\ 0 <= q2 < 24 /\ p2 + q2 = p + q).
  { rewrite Z.geb_leb. destruct (Z.leb_spec 24 q1) as [H|H].
    - destruct (layer_3_inside BFast st1 m p1) as [st' E]; try lia.
      rewrite E. cbn [bind]. exists st', (p1 + 24), (q1 - 24).
      repeat split; lia.
    - exists st1, p1, q1. repeat split; lia. }
  destruct S3 as (st2 & p2 & q2 & E3 & Hp2 & Hq2 & Hm2).
  rewrite E3. cbn [bind].
  exists st2, p2, q2. repeat split; try lia.
Qed.

Lemma tail_inside (BFast : bool) (m : buffer) (len : Z) (st : state6)
    (p q : Z) :
  0 <= p -> 0 <= q < 96 -> p + q <= size m ->
  exists i j k,
    tower_loong_tail BFast m len st p q =
      Some (_museair_layer_f BFast len i j k).
Proof.
  intros Hp Hq Hm.
  destruct (tail_reaches_fold BFast m len st p q Hp Hq Hm)
    as (st' & p' & q' & Hp' & Hq' & Hpq & E).
  rewrite E.
  destruct (layer_0_inside st' m p' q' len) as (i & j & k & E0); try lia.
  rewrite E0. cbn [bind]. eauto.
Qed.

(** The long tower always ends with the tail fold on fewer than 24 bytes
    and the final layer. *)
Lemma tower_loong_reaches_fold (BFast : bool) (m : buffer) (len seed : Z) :
  0 <= len <= size m ->
  exists st' p' q',
    0 <= p' /\ 0 <= q' < 24 /\ p' + q' = len /\
    _museair_tower_loong BFast m len seed =
      ('(i, j, k) <- _museair_layer_0 st' m p' q' len ;;
       Some (_museair_layer_f BFast len i j k)).
Proof.
  intros [H0 Hm]. unfold _museair_tower_loong.
  destruct (Z_lt_le_dec len 96) as [Hlt|Hge].
  - rewrite ring_below_96 by exact Hlt. cbn [bind].
    destruct (tail_reaches_fold BFast m len (tower_loong_state seed) 0 len)
      as (st' & p' & q' & Hp' & Hq' & Hpq & E); try lia.
    exists st', p', q'. repeat split; try lia. exact E.
  - destruct (ring_from_96 BFast m seed len) as (st & r & _ & E); [lia|].
    rewrite E. cbn [bind].
    assert (Hd : 0 <= 96 * (len / 96) /\ 0 <= len mod 96 < 96 /\
                 96 * (len / 96) + len mod 96 = len)
      by euclid.
    destruct (tail_reaches_fold BFast m len (ring_fold st r)
                (96 * (len / 96)) (len mod 96))
      as (st' & p' & q' & Hp' & Hq' & Hpq & E'); try lia.
    exists st', p', q'. repeat split; try lia. exact E'.
Qed.

Lemma tower_loong_inside (BFast : bool) (m : buffer) (len seed : Z) :
  0 <= len <= size m ->
  exists i j k,
    _museair_tower_loong BFast m len seed =
      Some (_museair_layer_f BFast len i j k).
Proof.
  intros H.
  destruct (tower_loong_reaches_fold BFast m len seed H)
    as (st' & p' & q' & Hp' & Hq' & Hpq & E).
  rewrite E.
  destruct (layer_0_inside st' m p' q' len) as (i & j & k & E0); try lia.
  rewrite E0. cbn [bind]. eauto.
Qed.

(** ** The tail fold *)

Lemma layer_0_chi (st : state6) (m : buffer) (p q len : Z) :
  24 <= len ->
  _museair_layer_0 st m p q len =
    ('(i, j, k) <- layer_0_words m p q ;;
     let '(a0, a2, a4) := _museair_chixx (st0 st) (st2 st) (st4 st) in
     let '(a1, a3, a5) := _museair_chixx (st1 st) (st3 st) (st5 st) in
     Some (Z.lxor i (U64.add a0 a1),
           Z.lxor j (U64.add a2 a3),
           Z.lxor k (U64.add a4 a5))).
Proof.
  intros H. destruct st as [s0 s1 s2 s3 s4 s5].
  unfold _museair_layer_0. cbn [st0 st1 st2 st3 st4 st5].
  change (8 * 3) with 24. rewrite Z.geb_leb.
  destruct (Z.leb_spec 24 len) as [_|H']; [|lia].
  destruct (layer_0_words m p q) as [[[i j] k]|]; reflexivity.
Qed.

Lemma layer_0_plain (st : state6) (m : buffer) (p q len : Z) :
  len < 24 ->
  _museair_layer_0 st m p q len =
    ('(i, j, k) <- layer_0_words m p q ;;
     Some (Z.lxor i (st0 st), Z.lxor j (st1 st), Z.lxor k (st2 st))).
Proof.
  intros H. destruct st as [s0 s1 s2 s3 s4 s5].
  unfold _museair_layer_0. cbn [st0 st1 st2 st3 st4 st5].
  change (8 * 3) with 24. rewrite Z.geb_leb.
  destruct (Z.leb_spec 24 len) as [H'|_]; [lia|].
  destruct (layer_0_words m p q) as [[[i j] k]|]; reflexivity.
Qed.

(** The long tower is its blocks, then the tail fold on the state, the
    offset and the length that the blocks leave, then the final layer. *)
Lemma tower_loong_blocks_fold (BFast : bool) (m : buffer) (len seed : Z) :
  _museair_tower_loong BFast m len seed =
    ('(st', p', q') <- tower_loong_blocks BFast m len seed ;;
     '(i, j, k) <- _museair_layer_0 st' m p' q' len ;;
     Some (_museair_layer_f BFast len i j k)).
Proof.
  unfold _museair_tower_loong, tower_loong_blocks. cbv zeta.
  destruct (tower_loong_ring BFast m seed (tower_loong_state seed) 0 len)
    as [[[st p] q]|]; [|reflexivity].
  cbn [bind]. unfold tower_loong_tail.
  destruct (q >=? 8 * 6).
  - destruct (_museair_layer_6 BFast st m p) as [st1|]; [|reflexivity].
    cbn [bind].
    destruct (q - 8 * 6 >=? 8 * 3); [|reflexivity].
    destruct (_museair_layer_3 BFast st1 m (p + 8 * 6)) as [st2|];
      reflexivity.
  - cbn [bind].
    destruct (q >=? 8 * 3); [|reflexivity].
    destruct (_museair_layer_3 BFast st m p) as [st2|]; reflexivity.
Qed.

(** The 6-word and the 3-word block after the ring: on fewer than 96
    bytes inside the buffer they leave fewer than 24. *)
Lemma blocks_after_ring (BFast : bool) (m : buffer) (st : state6)
    (p q : Z) :
  0 <= p -> 0 <= q < 96 -> p + q <= size m ->
  exists st',
    ('(state, p, q) <-
       (if q >=? 8 * 6 then
          state <- _museair_layer_6 BFast st m p ;;
          Some (state, p + 8 * 6, q - 8 * 6)
        else Some (st, p, q)) ;;
     if q >=? 8 * 3 then
       state <- _museair_layer_3 BFast state m p ;;
       Some (state, p + 8 * 3, q - 8 * 3)
     else Some (state, p, q)) =
    Some (st', p + 24 * (q / 24), q mod 24).
Proof.
  intros Hp Hq Hm. change (8 * 6) with 48. change (8 * 3) with 24.
  rewrite Z.geb_leb. destruct (Z.leb_spec 48 q) as [H48|H48].
  - destruct (layer_6_inside BFast st m p) as [st1 E1]; [lia|lia|].
    rewrite E1. cbn [bind].
    rewrite Z.geb_leb. destruct (Z.leb_spec 24 (q - 48)) as [H24|H24].
    + destruct (layer_3_inside BFast st1 m (p + 48)) as [st2 E2];
        [lia|lia|].
      rewrite E2. cbn [bind]. exists st2.
      replace (p + 48 + 24) with (p + 24 * (q / 24)) by euclid.
      replace (q - 48 - 24) with (q mod 24) by euclid.
      reflexivity.
    + exists st1.
      replace (p + 48) with (p + 24 * (q / 24)) by euclid.
      replace (q - 48) with (q mod 24) by euclid.
      reflexivity.
  - cbn [bind].
    rewrite Z.geb_leb. destruct (Z.leb_spec 24 q) as [H24|H24].
    + destruct (layer_3_inside BFast st m p) as [st2 E2]; [lia|lia|].
      rewrite E2. cbn [bind]. exists st2.
      replace (p + 24) with (p + 24 * (q / 24)) by euclid.
      replace (q - 24) with (q mod 24) by euclid.
      reflexivity.
    + exists st.
      replace (p + 24 * (q / 24)) with p by euclid.
      replace (q mod 24) with q by euclid.
      reflexivity.
Qed.

(** Inside the buffer the blocks take the first [24 * (len / 24)] bytes
    and leave [len mod 24]. *)
Lemma tower_loong_blocks_inside (BFast : bool) (m : buffer)
    (len seed : Z) :
  0 <= len <= size m ->
  exists st',
    tower_loong_blocks BFast m len seed =
      Some (st', 24 * (len / 24), len mod 24).
Proof.
  intros [H0 Hm]. unfold tower_loong_blocks.
  destruct (Z_lt_le_dec len 96) as [Hlt|Hge].
  - rewrite ring_below_96 by exact Hlt. cbn [bind].
    destruct (blocks_after_ring BFast m (tower_loong_state seed) 0 len)
      as [st' E]; try lia.
    exists st'. rewrite E, Z.add_0_l. reflexivity.
  - destruct (ring_from_96 BFast m seed len) as (st & r & _ & E); [lia|].
    rewrite E. cbn [bind].
    destruct (blocks_after_ring BFast m (ring_fold st r)
                (96 * (len / 96)) (len mod 96)) as [st' E']; try euclid.
    exists st'. rewrite E'.
    replace (96 * (len / 96) + 24 * (len mod 96 / 24))
      with (24 * (len / 24)) by euclid.
    replace (len mod 96 mod 24) with (len mod 24) by euclid.
    reflexivity.
Qed.

(** C3: when the total length is at least 24, the tail fold applies ChiMix
    to the state words (0, 2, 4) and to (1, 3, 5) and XORs the sums
    [s0 + s1], [s2 + s3], [s4 + s5] into [i], [j], [k]; when it is less,
    it applies no ChiMix and XORs the state words 0, 1, 2.  So does the
    long tower.  From 24 bytes on, its blocks take the first
    [24 * (len / 24)] bytes and leave a state [st']; the result of the
    tower is the final layer of the first fold, with ChiMix, of this very
    state [st'] and of the words read from the [len mod 24] bytes that are
    left.  For the total lengths 17 to 23 no block runs, [st'] is the state
    of the declaration, and the result is the final layer of the second
    fold, without ChiMix, on its words 0, 1, 2. *)
Theorem tail_fold (BFast : bool) (st : state6) (m : buffer)
    (p q len seed : Z) :
  (24 <= len ->
     _museair_layer_0 st m p q len =
       ('(i, j, k) <- layer_0_words m p q ;;
        let '(a0, a2, a4) := _museair_chixx (st0 st) (st2 st) (st4 st) in
        let '(a1, a3, a5) := _museair_chixx (st1 st) (st3 st) (st5 st) in
        Some (Z.lxor i (U64.add a0 a1),
              Z.lxor j (U64.add a2 a3),
              Z.lxor k (U64.add a4 a5)))) /\
  (len < 24 ->
     _museair_layer_0 st m p q len =
       ('(i, j, k) <- layer_0_words m p q ;;
        Some (Z.lxor i (st0 st), Z.lxor j (st1 st), Z.lxor k (st2 st)))) /\
  (24 <= len <= size m ->
     exists st',
       tower_loong_blocks BFast m len seed =
         Some (st', 24 * (len / 24), len mod 24) /\
       _museair_tower_loong BFast m len seed =
         ('(i, j, k) <- layer_0_words m (24 * (len / 24)) (len mod 24) ;;
          let '(a0, a2, a4) :=
            _museair_chixx (st0 st') (st2 st') (st4 st') in
          let '(a1, a3, a5) :=
            _museair_chixx (st1 st') (st3 st') (st5 st') in
          Some (_museair_layer_f BFast len
                  (Z.lxor i (U64.add a0 a1))
                  (Z.lxor j (U64.add a2 a3))
                  (Z.lxor k (U64.add a4 a5))))) /\
  (17 <= len <= 23 -> len <= size m ->
     tower_loong_blocks BFast m len seed =
       Some (tower_loong_state seed, 0, len) /\
     _museair_tower_loong BFast m len seed =
       Some (_museair_layer_f BFast len
               (Z.lxor (le_at 8 m 0) (U64.add MUSEAIR_SECRET_0 seed))
               (Z.lxor (le_at 8 m 8) (U64.sub MUSEAIR_SECRET_1 seed))
               (Z.lxor (le_at 8 m (len - 8))
                       (Z.lxor MUSEAIR_SECRET_2 seed)))).
Proof.
  split; [apply layer_0_chi|].
  split; [apply layer_0_plain|].
  split.
  - intros H.
    destruct (tower_loong_blocks_inside BFast m len seed) as [st' E];
      [lia|].
    exists st'. split; [exact E|].
    rewrite tower_loong_blocks_fold, E. cbn [bind].
    rewrite layer_0_chi by lia.
    destruct (layer_0_words m (24 * (len / 24)) (len mod 24))
      as [[[i j] k]|]; [|reflexivity].
    cbn [bind].
    destruct (_museair_chixx (st0 st') (st2 st') (st4 st')) as [[a0 a2] a4].
    destruct (_museair_chixx (st1 st') (st3 st') (st5 st')) as [[a1 a3] a5].
    reflexivity.
  - intros H Hm.
    assert (E48 : (len >=? 48) = false)
      by (rewrite Z.geb_leb; apply Z.leb_gt; lia).
    assert (E24 : (len >=? 24) = false)
      by (rewrite Z.geb_leb; apply Z.leb_gt; lia).
    assert (B : tower_loong_blocks BFast m len seed =
                Some (tower_loong_state seed, 0, len)).
    { unfold tower_loong_blocks. rewrite ring_below_96 by lia.
      cbn [bind]. change (8 * 6) with 48. change (8 * 3) with 24.
      rewrite E48. cbn [bind]. rewrite E24. reflexivity. }
    split; [exact B|].
    rewrite tower_loong_blocks_fold, B. cbn [bind].
    rewrite layer_0_plain by lia.
    rewrite layer_0_words_long by lia. cbn [bind].
    rewrite Z.add_0_l. reflexivity.
Qed.

Lemma tail_fold_witness :
  _museair_layer_0 (tower_loong_state 1) (iota_key 24) 24 0 24 =
    Some (0xa34b6650eb4bf8f9, 0x45e5aff3ab01b134,
          0x17dbde771ef29fc6) /\
  _museair_layer_0 (tower_loong_state 1) (iota_key 23) 0 23 23 =
    Some (Z.lxor 0x0706050403020100 (st0 (tower_loong_state 1)),
          Z.lxor 0x0f0e0d0c0b0a0908 (st1 (tower_loong_state 1)),
          Z.lxor 0x161514131211100f (st2 (tower_loong_state 1))) /\
  (exists st',
     tower_loong_blocks false (iota_key 24) 24 1 = Some (st', 24, 0) /\
     _museair_layer_3 false (tower_loong_state 1) (iota_key 24) 0 =
       Some st' /\
     _museair_tower_loong false (iota_key 24) 24 1 =
       (let '(a0, a2, a4) := _museair_chixx (st0 st') (st2 st') (st4 st') in
        let '(a1, a3, a5) := _museair_chixx (st1 st') (st3 st') (st5 st') in
        Some (_museair_layer_f false 24
                (Z.lxor 0 (U64.add a0 a1))
                (Z.lxor 0 (U64.add a2 a3))
                (Z.lxor 0 (U64.add a4 a5)))) /\
     _museair_tower_loong false (iota_key 24) 24 1 <>
       Some (_museair_layer_f false 24
               (Z.lxor 0 (st0 st')) (Z.lxor 0 (st1 st'))
               (Z.lxor 0 (st2 st')))) /\
  tower_loong_blocks false (iota_key 17) 17 1 =
    Some (tower_loong_state 1, 0, 17) /\
  _museair_tower_loong false (iota_key 17) 17 1 =
    Some (_museair_layer_f false 17
            (Z.lxor 0x0706050403020100 (U64.add MUSEAIR_SECRET_0 1))
            (Z.lxor 0x0f0e0d0c0b0a0908 (U64.sub MUSEAIR_SECRET_1 1))
            (Z.lxor 0x100f0e0d0c0b0a09 (Z.lxor MUSEAIR_SECRET_2 1))).
Proof.
  split; [|split; [|split]].
  - rewrite (proj1 (tail_fold false (tower_loong_state 1) (iota_key 24)
                      24 0 24 1)) by lia.
    vm_compute. reflexivity.
  - rewrite (proj1 (proj2 (tail_fold false (tower_loong_state 1) (iota_key 23)
                             0 23 23 1))) by lia.
    reflexivity.
  - destruct (proj1 (proj2 (proj2 (tail_fold false (tower_loong_state 1)
                                     (iota_key 24) 0 24 24 1))))
      as (st' & B & T); [rewrite iota_key_size; lia|].
    change (24 * (24 / 24)) with 24 in B, T.
    change (24 mod 24) with 0 in B, T.
    assert (L : _museair_layer_3 false (tower_loong_state 1) (iota_key 24) 0 =
                Some st').
    { revert B. unfold tower_loong_blocks.
      rewrite ring_below_96 by lia. cbn [bind].
      change (24 >=? 8 * 6) with false. cbn [bind].
      change (24 >=? 8 * 3) with true.
      destruct (_museair_layer_3 false (tower_loong_state 1) (iota_key 24) 0)
        as [s|]; [|discriminate].
      cbn [bind]. intros B. assert (E : s = st') by congruence.
      rewrite E. reflexivity. }
    assert (V := L). vm_compute in V. injection V as V. subst st'.
    eexists. split; [exact B|]. split; [exact L|]. split; [exact T|].
    vm_compute. discriminate.
  - destruct (proj2 (proj2 (proj2 (tail_fold false (tower_loong_state 1)
                                     (iota_key 17) 0 17 17 1))))
      as [B T]; [lia|rewrite iota_key_size; lia|].
    split; [exact B|]. rewrite T. reflexivity.
Defined.

(** ** The final layer *)

Lemma range_high_bits (v k : Z) :
  U64.in_range v -> 64 <= k -> Z.testbit v k = false.
Proof.
  intros Hv Hk. rewrite <- (wrap_small v Hv), wrap_testbit.
  destruct (Z.ltb_spec k 64); [lia|reflexivity].
Qed.

Lemma land_63 (x : Z) : Z.land x 63 = x mod 64.
Proof. change 63 with (Z.ones 6). rewrite Z.land_ones by lia. reflexivity. Qed.

Lemma rotl_bits (v n b : Z) :
  U64.in_range v -> 0 <= b < 64 ->
  Z.testbit (_museair_rotl v (Z.land n 63)) b = Z.testbit v ((b - n) mod 64).
Proof.
  intros Hv Hb. unfold _museair_rotl, U64.shl, U64.shr.
  rewrite Z.lor_spec, wrap_testbit, Z.shiftl_spec, Z.shiftr_spec by lia.
  rewrite !land_63.
  destruct (Z.ltb_spec b 64) as [_|]; [|lia]. cbn [andb].
  destruct (Z.eq_dec (n mod 64) 0) as [E|NE].
  - rewrite E. replace (- 0 mod 64) with 0 by reflexivity.
    replace ((b - n) mod 64) with b by euclid.
    rewrite Z.sub_0_r, Z.add_0_r. apply orb_diag.
  - replace (- (n mod 64) mod 64) with (64 - n mod 64) by euclid.
    destruct (Z_lt_le_dec b (n mod 64)) as [Hlt|Hge].
    + rewrite (Z.testbit_neg_r v (b - n mod 64)) by euclid.
      cbn [orb]. f_equal. euclid.
    + rewrite (range_high_bits v (b + (64 - n mod 64)))
        by (try assumption; lia).
      rewrite orb_false_r. f_equal. euclid.
Qed.

Lemma rotr_bits (v n b : Z) :
  U64.in_range v -> 0 <= b < 64 ->
  Z.testbit (_museair_rotr v (Z.land n 63)) b = Z.testbit v ((b + n) mod 64).
Proof.
  intros Hv Hb. unfold _museair_rotr, U64.shl, U64.shr.
  rewrite Z.lor_spec, wrap_testbit, Z.shiftl_spec, Z.shiftr_spec by lia.
  rewrite !land_63.
  destruct (Z.ltb_spec b 64) as [_|]; [|lia]. cbn [andb].
  destruct (Z.eq_dec (n mod 64) 0) as [E|NE].
  - rewrite E. replace (- 0 mod 64) with 0 by reflexivity.
    replace ((b + n) mod 64) with b by euclid.
    rewrite Z.sub_0_r, Z.add_0_r. apply orb_diag.
  - replace (- (n mod 64) mod 64) with (64 - n mod 64) by euclid.
    destruct (Z_lt_le_dec (b + n mod 64) 64) as [Hlt|Hge].
    + rewrite (Z.testbit_neg_r v (b - (64 - n mod 64))) by euclid.
      rewrite orb_false_r. f_equal. euclid.
    + rewrite (range_high_bits v (b + n mod 64)) by (try assumption; lia).
      cbn [orb]. f_equal. euclid.
Qed.

(** The wide multiplication is exact on 64-bit words. *)
Lemma wmul_exact (a b : Z) :
  U64.in_range a -> U64.in_range b ->
  let '(lo, hi) := _museair_wmul a b in
  lo + U64.modulus * hi = a * b /\ U64.in_range lo /\ U64.in_range hi.
Proof.
  unfold U64.in_range, _museair_wmul, U64.wrap, U64.modulus.
  intros Ha Hb. rewrite Z.shiftr_div_pow2 by lia.
  assert (Hab : 0 <= a * b < 2 ^ 64 * 2 ^ 64) by nia.
  assert (Hhi : 0 <= a * b / 2 ^ 64 < 2 ^ 64).
  { split; [apply Z.div_pos; lia|apply Z.div_lt_upper_bound; lia]. }
  rewrite (Z.mod_small (a * b / 2 ^ 64)) by exact Hhi.
  split; [|split]; [|apply Z.mod_pos_bound; lia|exact Hhi].
  rewrite Z.add_comm. symmetry. apply Z.div_mod. lia.
Qed.

Lemma land_u8_63 (len : Z) : Z.land (len mod 256) 63 = Z.land len 63.
Proof.
  change 256 with (2 ^ 8). change 63 with (Z.ones 6).
  apply Z.bits_inj'; intros n Hn.
  rewrite !Z.land_spec, Z.testbit_mod_pow2, Z.testbit_ones_nonneg by lia.
  destruct (Z.ltb_spec n 8), (Z.ltb_spec n 6); try lia;
    destruct (Z.testbit len n); reflexivity.
Qed.

Lemma layer_f_steps (BFast : bool) (len i j k : Z) :
  _museair_layer_f BFast len i j k =
    let '(i1, j1, k1) := _museair_chixx i j k in
    twist_mul BFast (_museair_rotl i1 (Z.land len 63))
                    (_museair_rotr j1 (Z.land len 63))
                    (Z.lxor k1 len).
Proof.
  unfold _museair_layer_f, twist_mul. rewrite land_u8_63.
  destruct (_museair_chixx i j k) as [[i1 j1] k1].
  destruct BFast; reflexivity.
Qed.




(** ** Seeding and the ring carry *)

(** C6, as the code has it.  The state is declared with the words 0, 1, 2
    combined with the seed (add, subtract, xor) and the words 3, 4, 5 bare.
    Below 96 bytes this is the state the rest of the compressor works on:
    the ring block does nothing, and no carry is folded.  From 96 bytes on
    the words 3, 4, 5 are combined too (add, subtract, xor) before the
    first 12-word block, the loop runs until fewer than 96 bytes are left,
    and its last carry is XORed into word 0, once. *)
Theorem seeding_and_ring_fold (BFast : bool) (m : buffer) (len seed : Z) :
  16 < len <= size m ->
  _museair_tower_loong BFast m len seed =
    ('(st, p, q) <-
       tower_loong_ring BFast m seed (tower_loong_state seed) 0 len ;;
     tower_loong_tail BFast m len st p q) /\
  (len < 96 ->
     tower_loong_ring BFast m seed (tower_loong_state seed) 0 len =
       Some (State6 (U64.add MUSEAIR_SECRET_0 seed)
                    (U64.sub MUSEAIR_SECRET_1 seed)
                    (Z.lxor MUSEAIR_SECRET_2 seed)
                    MUSEAIR_SECRET_3 MUSEAIR_SECRET_4 MUSEAIR_SECRET_5,
             0, len)) /\
  (96 <= len ->
     sixfold_seeded seed (seeded_six seed) /\
     exists st r,
       tower_loong_do_while (Z.to_nat (len / 96)) BFast (seeded_six seed) m
           0 len MUSEAIR_RING_PREV =
         Some (st, 96 * (len / 96), len mod 96, r) /\
       len mod 96 < 96 /\
       tower_loong_ring BFast m seed (tower_loong_state seed) 0 len =
         Some (State6 (Z.lxor (st0 st) r) (st1 st) (st2 st) (st3 st)
                      (st4 st) (st5 st),
               96 * (len / 96), len mod 96)).
Proof.
  intros H. split; [reflexivity|]. split.
  - intros Hlt. rewrite ring_below_96 by exact Hlt. reflexivity.
  - intros Hge. split.
    + unfold sixfold_seeded, seed_combined, seeded_six.
      cbn [st0 st1 st2 st3 st4 st5]. tauto.
    + destruct (ring_from_96 BFast m seed len) as (st & r & E1 & E2); [lia|].
      exists st, r. split; [exact E1|]. split; [|exact E2].
      apply Z.mod_pos_bound. lia.
Qed.

Lemma seeding_and_ring_fold_witness :
  tower_loong_ring false (iota_key 17) 1 (tower_loong_state 1) 0 17 =
    Some (State6 (U64.add MUSEAIR_SECRET_0 1) (U64.sub MUSEAIR_SECRET_1 1)
                 (Z.lxor MUSEAIR_SECRET_2 1)
                 MUSEAIR_SECRET_3 MUSEAIR_SECRET_4 MUSEAIR_SECRET_5,
          0, 17) /\
  exists st r,
    tower_loong_do_while 2 false (seeded_six 1) (iota_key 200) 0 200
        MUSEAIR_RING_PREV =
      Some (st, 192, 8, r) /\
    tower_loong_ring false (iota_key 200) 1 (tower_loong_state 1) 0 200 =
      Some (State6 (Z.lxor (st0 st) r) (st1 st) (st2 st) (st3 st) (st4 st)
                   (st5 st),
            192, 8).
Proof.
  split.
  - assert (H : 16 < 17 <= size (iota_key 17))
      by (rewrite iota_key_size; lia).
    apply (proj1 (proj2 (seeding_and_ring_fold false (iota_key 17) 17 1 H))).
    lia.
  - assert (H : 16 < 200 <= size (iota_key 200))
      by (rewrite iota_key_size; lia).
    destruct (proj2 (proj2 (seeding_and_ring_fold false (iota_key 200) 200 1
                              H)) ltac:(lia))
      as (_ & st & r & E1 & _ & E2).
    exists st, r. split; [exact E1 | exact E2].
Defined.

(** C6 as claimed fails twice for a key of 17 bytes and seed 1.  The
    words 3, 4, 5 of the state that the compressor works on are the bare
    secret words, not combined with the seed; and no ring carry is XORed
    into word 0, although the 12-word loop is over (it never ran, and the
    carry is still [MUSEAIR_RING_PREV]). *)
Lemma entry_state_not_sixfold :
  ~ (forall (BFast : bool) (m : buffer) (len seed : Z),
       16 < len <= size m -> U64.in_range seed ->
       exists st p q,
         tower_loong_ring BFast m seed (tower_loong_state seed) 0 len =
           Some (st, p, q) /\
         (len < 96 -> sixfold_seeded seed st)) /\
  ~ (forall (BFast : bool) (m : buffer) (len seed : Z),
       16 < len <= size m -> U64.in_range seed -> len < 96 ->
       tower_loong_ring BFast m seed (tower_loong_state seed) 0 len =
         Some (ring_fold (tower_loong_state seed) MUSEAIR_RING_PREV, 0, len)).
Proof.
  assert (Hm : 16 < 17 <= size (iota_key 17))
    by (rewrite iota_key_size; lia).
  assert (Hs : U64.in_range 1) by (unfold U64.in_range, U64.modulus; lia).
  split; intros H.
  - destruct (H false (iota_key 17) 17 1 Hm Hs) as (st & p & q & E & S).
    rewrite ring_below_96 in E by lia.
    injection E as <- _ _.
    destruct (S ltac:(lia)) as (_ & _ & _ & [C|[C|C]] & _);
      vm_compute in C; discriminate C.
  - specialize (H false (iota_key 17) 17 1 Hm Hs ltac:(lia)).
    rewrite ring_below_96 in H by lia.
    vm_compute in H. discriminate H.
Qed.

(** ** The hash is defined on every input that lies in its buffer *)

Lemma tower_short_inside (m : buffer) (len seed : Z) :
  0 <= len <= 16 -> len <= size m ->
  exists i j, _museair_tower_short m len seed = Some (i, j).
Proof.
  intros Hlen Hm. unfold _museair_tower_short.
  destruct (read_short_inside m 0 len) as (i & j & E); try lia.
  rewrite E. cbn [bind]. destruct (_museair_wmul _ _). eauto.
Qed.

Lemma hash_inside (BFast : bool) (m : buffer) (len seed : Z) :
  0 <= len <= size m ->
  (exists d, _museair_hash BFast m len seed = Some d) /\
  (exists d, _museair_hash_128 BFast m len seed = Some d).
Proof.
  intros H. destruct (Z_le_gt_dec len 16) as [Hle|Hgt].
  - destruct (hash_short_path BFast m len seed Hle) as [-> ->].
    unfold short_path, short_path_128.
    destruct (tower_short_inside m len seed) as (i & j & E); try lia.
    rewrite E. cbn [bind]. split; eexists; reflexivity.
  - destruct (hash_loong_path BFast m len seed) as [-> ->]; [lia|].
    unfold loong_path, loong_path_128.
    destruct (tower_loong_inside BFast m len seed) as (i & j & k & E);
      [lia|].
    rewrite E. cbn [bind].
    destruct (_museair_layer_f BFast len i j k) as [[i' j'] k'].
    split; eexists; reflexivity.
Qed.

(** ** The conformance values *)

(** C1: for each of the four entry points, the sweep over the keys
    [{}, {0}, {0,1}, ...] of lengths 0..255 with seed [256 - k], the 256
    digests stored little-endian one after the other and hashed again with
    seed 0, gives the published value in the first four bytes. *)
Theorem conformance_values :
  ComputedVerifyImpl 64 (out64 museair_hash) = Some 0x46B2D34D /\
  ComputedVerifyImpl 128 (out128 museair_hash_128) = Some 0xCABAA4CD /\
  ComputedVerifyImpl 64 (out64 museair_bfast_hash) = Some 0x98CDFE3E /\
  ComputedVerifyImpl 128 (out128 museair_bfast_hash_128) = Some 0x81D30B6E.
Proof.
  split; [|split; [|split]]; vm_compute; reflexivity.
Qed.

(** * Supporting lemmas *)

(** ** Words stay 64-bit words *)

Lemma in_range_wrap (x : Z) : U64.in_range x <-> U64.wrap x = x.
Proof.
  split; [apply wrap_small|]. intros <-. apply wrap_range.
Qed.

Lemma in_range_bits (x : Z) :
  0 <= x -> (forall n, 64 <= n -> Z.testbit x n = false) -> U64.in_range x.
Proof.
  intros H0 H. apply in_range_wrap. apply Z.bits_inj'; intros n Hn.
  rewrite wrap_testbit. destruct (Z.ltb_spec n 64) as [Hlt|Hge].
  - reflexivity.
  - rewrite H by lia. reflexivity.
Qed.

Lemma in_range_nonneg (x : Z) : U64.in_range x -> 0 <= x.
Proof. unfold U64.in_range. lia. Qed.

Lemma lxor_range (a b : Z) :
  U64.in_range a -> U64.in_range b -> U64.in_range (Z.lxor a b).
Proof.
  intros Ha Hb. apply in_range_bits.
  - apply Z.lxor_nonneg. pose proof (in_range_nonneg a Ha).
    pose proof (in_range_nonneg b Hb). tauto.
  - intros n Hn. rewrite Z.lxor_spec, !range_high_bits by assumption.
    reflexivity.
Qed.

Lemma lor_range (a b : Z) :
  U64.in_range a -> U64.in_range b -> U64.in_range (Z.lor a b).
Proof.
  intros Ha Hb. apply in_range_bits.
  - apply Z.lor_nonneg. pose proof (in_range_nonneg a Ha).
    pose proof (in_range_nonneg b Hb). tauto.
  - intros n Hn. rewrite Z.lor_spec, !range_high_bits by assumption.
    reflexivity.
Qed.

Lemma land_range_r (a b : Z) : U64.in_range b -> U64.in_range (Z.land a b).
Proof.
  intros Hb. apply in_range_bits.
  - apply Z.land_nonneg. right. apply in_range_nonneg. exact Hb.
  - intros n Hn. rewrite Z.land_spec, (range_high_bits b) by assumption.
    apply andb_false_r.
Qed.

Lemma shr_range (v n : Z) :
  U64.in_range v -> 0 <= n -> U64.in_range (U64.shr v n).
Proof.
  intros Hv Hn. unfold U64.shr. apply in_range_bits.
  - apply Z.shiftr_nonneg. apply in_range_nonneg. exact Hv.
  - intros k Hk. rewrite Z.shiftr_spec by lia.
    apply range_high_bits; [exact Hv|lia].
Qed.

Lemma land_63_range (n : Z) : 0 <= Z.land n 63 < 64.
Proof. rewrite land_63. apply Z.mod_pos_bound. lia. Qed.

Lemma rotl_range (v n : Z) :
  U64.in_range v -> U64.in_range (_museair_rotl v (Z.land n 63)).
Proof.
  intros Hv. unfold _museair_rotl. apply lor_range.
  - apply wrap_range.
  - apply shr_range; [exact Hv|]. apply land_63_range.
Qed.

Lemma rotr_range (v n : Z) :
  U64.in_range v -> U64.in_range (_museair_rotr v (Z.land n 63)).
Proof.
  intros Hv. unfold _museair_rotr. apply lor_range.
  - apply shr_range; [exact Hv|]. apply land_63_range.
  - apply wrap_range.
Qed.

Lemma chixx_range (t u v : Z) :
  U64.in_range t -> U64.in_range u -> U64.in_range v ->
  let '(t', u', v') := _museair_chixx t u v in
  U64.in_range t' /\ U64.in_range u' /\ U64.in_range v'.
Proof.
  intros Ht Hu Hv. unfold _museair_chixx.
  repeat split; apply lxor_range; try assumption; apply land_range_r;
    assumption.
Qed.

Lemma wmul_range (a b : Z) :
  U64.in_range (fst (_museair_wmul a b)) /\
  U64.in_range (snd (_museair_wmul a b)).
Proof. split; apply wrap_range. Qed.

(** ** Rotations *)

Lemma rotr_rotl (v n : Z) :
  U64.in_range v ->
  _museair_rotr (_museair_rotl v (Z.land n 63)) (Z.land n 63) = v.
Proof.
  intros Hv. apply Z.bits_inj'; intros b Hb.
  destruct (Z_lt_le_dec b 64) as [Hlt|Hge].
  - rewrite rotr_bits by (try apply rotl_range; try assumption; lia).
    rewrite rotl_bits by (try assumption; apply Z.mod_pos_bound; lia).
    f_equal. euclid.
  - rewrite !range_high_bits;
      try reflexivity; try assumption.
    apply rotr_range, rotl_range, Hv.
Qed.

Lemma rotl_rotr (v n : Z) :
  U64.in_range v ->
  _museair_rotl (_museair_rotr v (Z.land n 63)) (Z.land n 63) = v.
Proof.
  intros Hv. apply Z.bits_inj'; intros b Hb.
  destruct (Z_lt_le_dec b 64) as [Hlt|Hge].
  - rewrite rotl_bits by (try apply rotr_range; try assumption; lia).
    rewrite rotr_bits by (try assumption; apply Z.mod_pos_bound; lia).
    f_equal. euclid.
  - rewrite !range_high_bits;
      try reflexivity; try assumption.
    apply rotl_range, rotr_range, Hv.
Qed.

Lemma rot_zero (v : Z) :
  U64.in_range v -> _museair_rotl v 0 = v /\ _museair_rotr v 0 = v.
Proof.
  intros Hv. unfold _museair_rotl, _museair_rotr, U64.shl, U64.shr.
  change (Z.land (- 0) 63) with 0.
  rewrite Z.shiftl_0_r, Z.shiftr_0_r, wrap_small by exact Hv.
  rewrite Z.lor_diag. split; reflexivity.
Qed.

(** ** Buffers that agree on the bytes read *)

Lemma agree_sub (m1 m2 : buffer) (lo hi lo' hi' : Z) :
  agree m1 m2 lo hi -> lo <= lo' -> hi' <= hi -> agree m1 m2 lo' hi'.
Proof. intros H Hlo Hhi k Hk. apply H. lia. Qed.

Lemma load_le_agree (n : nat) (m1 m2 : buffer) (p : Z) :
  agree m1 m2 p (p + Z.of_nat n) -> load_le n m1 p = load_le n m2 p.
Proof.
  revert p. induction n as [|n IH]; intros p H; [reflexivity|].
  cbn [load_le]. rewrite (H p) by lia.
  rewrite (IH (p + 1)) by (eapply agree_sub; [exact H|lia|lia]).
  reflexivity.
Qed.

Lemma read_u64_agree (m1 m2 : buffer) (p : Z) :
  agree m1 m2 p (p + 8) -> _museair_read_u64 m1 p = _museair_read_u64 m2 p.
Proof. apply (load_le_agree 8). Qed.

Lemma read_u32_agree (m1 m2 : buffer) (p : Z) :
  agree m1 m2 p (p + 4) -> _museair_read_u32 m1 p = _museair_read_u32 m2 p.
Proof. apply (load_le_agree 4). Qed.

Ltac sub_agree :=
  match goal with
  | H : agree ?m1 ?m2 _ _ |- agree ?m1 ?m2 _ _ =>
      eapply agree_sub; [exact H|lia|lia]
  end.

Lemma read_short_agree (m1 m2 : buffer) (p len : Z) :
  len <= 16 -> agree m1 m2 p (p + len) ->
  _museair_read_short m1 p len = _museair_read_short m2 p len.
Proof.
  intros Hlen H. unfold _museair_read_short.
  rewrite Z.geb_leb. destruct (Z.leb_spec 4 len) as [H4|H4].
  - rewrite read_short_off by lia.
    assert (Hoff : 0 <= (if 8 <=? len then 4 else 0) /\
                   (if 8 <=? len then 4 else 0) + 4 <= len)
      by (destruct (Z.leb_spec 8 len); lia).
    rewrite !(read_u32_agree m1 m2) by sub_agree. reflexivity.
  - rewrite Z.gtb_ltb. destruct (Z.ltb_spec 0 len) as [H0|H0]; [|reflexivity].
    assert (Hs : 0 <= Z.shiftr len 1 < len).
    { rewrite Z.shiftr_div_pow2 by lia. change (2 ^ 1) with 2.
      split; [apply Z.div_pos; lia|apply Z.div_lt_upper_bound; lia]. }
    unfold U64.shr at 1 2.
    rewrite (H p), (H (p + Z.shiftr len 1)), (H (p + (len - 1))) by lia.
    reflexivity.
Qed.

Lemma layer_12_agree (BFast : bool) (st : state6) (m1 m2 : buffer) (p r : Z) :
  agree m1 m2 p (p + 96) ->
  _museair_layer_12 BFast st m1 p r = _museair_layer_12 BFast st m2 p r.
Proof.
  intros H. unfold _museair_layer_12.
  rewrite !(read_u64_agree m1 m2) by sub_agree. reflexivity.
Qed.

Lemma layer_6_agree (BFast : bool) (st : state6) (m1 m2 : buffer) (p : Z) :
  agree m1 m2 p (p + 48) ->
  _museair_layer_6 BFast st m1 p = _museair_layer_6 BFast st m2 p.
Proof.
  intros H. unfold _museair_layer_6.
  rewrite !(read_u64_agree m1 m2) by sub_agree. reflexivity.
Qed.

Lemma layer_3_agree (BFast : bool) (st : state6) (m1 m2 : buffer) (p : Z) :
  agree m1 m2 p (p + 24) ->
  _museair_layer_3 BFast st m1 p = _museair_layer_3 BFast st m2 p.
Proof.
  intros H. unfold _museair_layer_3.
  rewrite !(read_u64_agree m1 m2) by sub_agree. reflexivity.
Qed.

Lemma layer_0_words_agree (m1 m2 : buffer) (p q : Z) :
  agree m1 m2 p (p + q) -> layer_0_words m1 p q = layer_0_words m2 p q.
Proof.
  intros H. unfold layer_0_words. change (8 * 2) with 16.
  destruct (Z.leb_spec q 16) as [Hq|Hq].
  - rewrite (read_short_agree m1 m2) by assumption. reflexivity.
  - rewrite !(read_u64_agree m1 m2) by sub_agree. reflexivity.
Qed.

Lemma layer_0_agree (st : state6) (m1 m2 : buffer) (p q len : Z) :
  agree m1 m2 p (p + q) ->
  _museair_layer_0 st m1 p q len = _museair_layer_0 st m2 p q len.
Proof.
  intros H. unfold _museair_layer_0.
  rewrite (layer_0_words_agree m1 m2) by assumption. reflexivity.
Qed.

Lemma do_while_agree (fuel : nat) (BFast : bool) (st : state6)
    (m1 m2 : buffer) (p q r : Z) :
  96 <= q -> agree m1 m2 p (p + q) ->
  tower_loong_do_while fuel BFast st m1 p q r =
    tower_loong_do_while fuel BFast st m2 p q r.
Proof.
  revert st p q r. induction fuel as [|fuel IH]; intros st p q r Hq H;
    [reflexivity|].
  cbn [tower_loong_do_while].
  rewrite (layer_12_agree BFast st m1 m2) by sub_agree.
  destruct (_museair_layer_12 BFast st m2 p r) as [[st' r']|];
    [|reflexivity].
  cbn [bind]. change (8 * 12) with 96.
  rewrite Z.geb_leb. destruct (Z.leb_spec 96 (q - 96)) as [Hge|Hlt];
    [|reflexivity].
  apply IH; [lia|sub_agree].
Qed.

(** Where the 12-word loop stops when it returns. *)
Lemma do_while_exit (fuel : nat) (BFast : bool) (st : state6) (m : buffer)
    (p q r : Z) (st' : state6) (p' q' r' : Z) :
  96 <= q ->
  tower_loong_do_while fuel BFast st m p q r = Some (st', p', q', r') ->
  p' + q' = p + q /\ 0 <= q' < 96 /\ p <= p'.
Proof.
  revert st p q r. induction fuel as [|fuel IH]; intros st p q r Hq E;
    [discriminate E|].
  cbn [tower_loong_do_while] in E.
  destruct (_museair_layer_12 BFast st m p r) as [[st1 r1]|];
    [|discriminate E].
  cbn [bind] in E. change (8 * 12) with 96 in E.
  rewrite Z.geb_leb in E.
  destruct (Z.leb_spec 96 (q - 96)) as [Hge|Hlt].
  - apply IH in E; lia.
  - injection E as <- <- <- <-. lia.
Qed.

Lemma ring_agree (BFast : bool) (m1 m2 : buffer) (seed : Z) (st : state6)
    (p q : Z) :
  agree m1 m2 p (p + q) ->
  tower_loong_ring BFast m1 seed st p q = tower_loong_ring BFast m2 seed st p q.
Proof.
  intros H. unfold tower_loong_ring. change (8 * 12) with 96.
  rewrite Z.geb_leb. destruct (Z.leb_spec 96 q) as [Hge|Hlt]; [|reflexivity].
  destruct st as [s0 s1 s2 s3 s4 s5].
  rewrite (do_while_agree _ BFast _ m1 m2) by assumption. reflexivity.
Qed.

Lemma ring_exit (BFast : bool) (m : buffer) (seed : Z) (st : state6)
    (p q : Z) (st' : state6) (p' q' : Z) :
  0 <= q ->
  tower_loong_ring BFast m seed st p q = Some (st', p', q') ->
  p' + q' = p + q /\ 0 <= q' < 96 /\ p <= p'.
Proof.
  intros Hq. unfold tower_loong_ring. change (8 * 12) with 96.
  rewrite Z.geb_leb. destruct (Z.leb_spec 96 q) as [Hge|Hlt].
  - destruct st as [s0 s1 s2 s3 s4 s5].
    destruct (tower_loong_do_while _ _ _ _ _ _ _)
      as [[[[st1 p1] q1] r1]|] eqn:E; [|discriminate].
    cbn [bind]. destruct st1. intros H. injection H as <- <- <-.
    apply do_while_exit in E; lia.
  - intros H. injection H as <- <- <-. lia.
Qed.

Lemma tail_agree (BFast : bool) (m1 m2 : buffer) (len : Z) (st : state6)
    (p q : Z) :
  0 <= q -> agree m1 m2 p (p + q) ->
  tower_loong_tail BFast m1 len st p q = tower_loong_tail BFast m2 len st p q.
Proof.
  intros Hq H. unfold tower_loong_tail.
  change (8 * 6) with 48. change (8 * 3) with 24.
  assert (E6 : exists o,
            (if q >=? 48
             then st' <- _museair_layer_6 BFast st m1 p ;;
                  Some (st', p + 48, q - 48)
             else Some (st, p, q)) = o /\
            (if q >=? 48
             then st' <- _museair_layer_6 BFast st m2 p ;;
                  Some (st', p + 48, q - 48)
             else Some (st, p, q)) = o /\
            forall st1 p1 q1, o = Some (st1, p1, q1) ->
              0 <= q1 /\ agree m1 m2 p1 (p1 + q1)).
  { rewrite Z.geb_leb. destruct (Z.leb_spec 48 q) as [Hge|Hlt].
    - rewrite (layer_6_agree BFast st m1 m2) by sub_agree.
      eexists. split; [reflexivity|]. split; [reflexivity|].
      intros st1 p1 q1.
      destruct (_museair_layer_6 BFast st m2 p); [|discriminate].
      cbn [bind]. intros E. injection E as <- <- <-.
      split; [lia|sub_agree].
    - eexists. split; [reflexivity|]. split; [reflexivity|].
      intros st1 p1 q1 E. injection E as <- <- <-. split; assumption. }
  destruct E6 as (o & -> & -> & Ho).
  destruct o as [[[st1 p1] q1]|]; [|reflexivity].
  destruct (Ho st1 p1 q1 eq_refl) as [Hq1 H1]. cbn [bind].
  assert (E3 : exists o,
            (if q1 >=? 24
             then st' <- _museair_layer_3 BFast st1 m1 p1 ;;
                  Some (st', p1 + 24, q1 - 24)
             else Some (st1, p1, q1)) = o /\
            (if q1 >=? 24
             then st' <- _museair_layer_3 BFast st1 m2 p1 ;;
                  Some (st', p1 + 24, q1 - 24)
             else Some (st1, p1, q1)) = o /\
            forall st2 p2 q2, o = Some (st2, p2, q2) ->
              agree m1 m2 p2 (p2 + q2)).
  { rewrite Z.geb_leb. destruct (Z.leb_spec 24 q1) as [Hge|Hlt].
    - rewrite (layer_3_agree BFast st1 m1 m2) by sub_agree.
      eexists. split; [reflexivity|]. split; [reflexivity|].
      intros st2 p2 q2.
      destruct (_museair_layer_3 BFast st1 m2 p1); [|discriminate].
      cbn [bind]. intros E. injection E as <- <- <-. sub_agree.
    - eexists. split; [reflexivity|]. split; [reflexivity|].
      intros st2 p2 q2 E. injection E as <- <- <-. assumption. }
  destruct E3 as (o & -> & -> & Ho3).
  destruct o as [[[st2 p2] q2]|]; [|reflexivity].
  cbn [bind].
  rewrite (layer_0_agree st2 m1 m2) by (apply (Ho3 st2); reflexivity).
  reflexivity.
Qed.

Lemma tower_loong_agree (BFast : bool) (m1 m2 : buffer) (len seed : Z) :
  0 <= len -> agree m1 m2 0 len ->
  _museair_tower_loong BFast m1 len seed =
    _museair_tower_loong BFast m2 len seed.
Proof.
  intros Hlen H. unfold _museair_tower_loong.
  rewrite (ring_agree BFast m1 m2) by (rewrite Z.add_0_l; exact H).
  destruct (tower_loong_ring BFast m2 seed (tower_loong_state seed) 0 len)
    as [[[st p] q]|] eqn:E; [|reflexivity].
  cbn [bind]. apply ring_exit in E; [|exact Hlen].
  apply tail_agree; [lia|sub_agree].
Qed.

Lemma tower_short_agree (m1 m2 : buffer) (len seed : Z) :
  len <= 16 -> agree m1 m2 0 len ->
  _museair_tower_short m1 len seed = _museair_tower_short m2 len seed.
Proof.
  intros Hlen H. unfold _museair_tower_short.
  rewrite (read_short_agree m1 m2) by (try rewrite Z.add_0_l; assumption).
  reflexivity.
Qed.

Lemma hash_agree (BFast : bool) (m1 m2 : buffer) (len seed : Z) :
  agree m1 m2 0 len ->
  _museair_hash BFast m1 len seed = _museair_hash BFast m2 len seed /\
  _museair_hash_128 BFast m1 len seed = _museair_hash_128 BFast m2 len seed.
Proof.
  intros H.
  unfold _museair_hash, _museair_hash_128, _museair_hash_short,
    _museair_hash_short_128, _museair_hash_loong, _museair_hash_loong_128.
  destruct (Z.leb_spec len 16) as [Hle|Hgt].
  - rewrite (tower_short_agree m1 m2) by assumption. split; reflexivity.
  - rewrite (tower_loong_agree BFast m1 m2) by (try lia; assumption).
    split; reflexivity.
Qed.

(** ** Reads outside the buffer *)

Lemma load_outside (m : buffer) (p : Z) :
  p < 0 \/ size m <= p -> load m p = None.
Proof.
  unfold load, size. intros H.
  destruct (Z.ltb_spec p 0) as [_|H0]; [reflexivity|].
  destruct (nth_error m (Z.to_nat p)) eqn:E; [|reflexivity].
  assert (Hlt : (Z.to_nat p < length m)%nat).
  { apply nth_error_Some. rewrite E. discriminate. }
  lia.
Qed.

Lemma load_le_outside (n : nat) (m : buffer) (p : Z) :
  (0 < n)%nat -> p < 0 \/ size m < p + Z.of_nat n -> load_le n m p = None.
Proof.
  revert p. induction n as [|n IH]; intros p Hn H; [lia|].
  cbn [load_le].
  destruct (load m p) as [b|] eqn:E; [|reflexivity]. cbn [bind].
  destruct n as [|n'].
  - rewrite load_outside in E by lia. discriminate E.
  - rewrite IH; [reflexivity|lia|].
    destruct (Z_lt_le_dec p 0) as [Hneg|Hpos].
    + rewrite load_outside in E by lia. discriminate E.
    + right. lia.
Qed.

Lemma read_u64_outside (m : buffer) (p : Z) :
  p < 0 \/ size m < p + 8 -> _museair_read_u64 m p = None.
Proof. intros H. apply load_le_outside; [lia|exact H]. Qed.

Lemma read_u32_outside (m : buffer) (p : Z) :
  p < 0 \/ size m < p + 4 -> _museair_read_u32 m p = None.
Proof. intros H. apply load_le_outside; [lia|exact H]. Qed.

Lemma bind_none_r {A B : Type} (c : option A) :
  bind c (fun _ => @None B) = None.
Proof. destruct c; reflexivity. Qed.

Ltac fail_reads :=
  repeat first
    [ reflexivity
    | match goal with
      | |- context [match _museair_wmul ?a ?b with _ => _ end] =>
          destruct (_museair_wmul a b)
      | |- context [match _museair_frac_6 ?f ?a ?b ?c ?d with _ => _ end] =>
          destruct (_museair_frac_6 f a b c d)
      | |- context [match _museair_frac_3 ?f ?a ?b ?c with _ => _ end] =>
          destruct (_museair_frac_3 f a b c)
      | |- context [bind (_museair_read_u64 ?m ?p) _] =>
          destruct (_museair_read_u64 m p); cbn [bind]
      | |- context [bind (_museair_read_u32 ?m ?p) _] =>
          destruct (_museair_read_u32 m p); cbn [bind]
      | |- context [bind (load ?m ?p) _] =>
          destruct (load m p); cbn [bind]
      end ].

Lemma layer_12_outside (BFast : bool) (st : state6) (m : buffer) (p r : Z) :
  0 <= p -> size m < p + 96 -> _museair_layer_12 BFast st m p r = None.
Proof.
  intros Hp H. destruct st as [s0 s1 s2 s3 s4 s5].
  unfold _museair_layer_12.
  rewrite (read_u64_outside m (p + 8 * 11)) by lia.
  destruct BFast; cbn [negb]; fail_reads.
Qed.

Lemma layer_6_outside (BFast : bool) (st : state6) (m : buffer) (p : Z) :
  0 <= p -> size m < p + 48 -> _museair_layer_6 BFast st m p = None.
Proof.
  intros Hp H. destruct st as [s0 s1 s2 s3 s4 s5].
  unfold _museair_layer_6.
  rewrite (read_u64_outside m (p + 8 * 5)) by lia.
  fail_reads.
Qed.

Lemma layer_3_outside (BFast : bool) (st : state6) (m : buffer) (p : Z) :
  0 <= p -> size m < p + 24 -> _museair_layer_3 BFast st m p = None.
Proof.
  intros Hp H. destruct st as [s0 s1 s2 s3 s4 s5].
  unfold _museair_layer_3.
  rewrite (read_u64_outside m (p + 8 * 2)) by lia.
  fail_reads.
Qed.

Lemma read_short_outside (m : buffer) (p len : Z) :
  0 <= p -> 0 < len <= 16 -> size m < p + len ->
  _museair_read_short m p len = None.
Proof.
  intros Hp Hlen H. unfold _museair_read_short.
  rewrite Z.geb_leb. destruct (Z.leb_spec 4 len) as [H4|H4].
  - rewrite (read_u32_outside m (p + len - 4)) by lia. fail_reads.
  - rewrite Z.gtb_ltb. destruct (Z.ltb_spec 0 len) as [_|H0]; [|lia].
    rewrite (load_outside m (p + (len - 1))) by lia. fail_reads.
Qed.

Lemma layer_0_words_outside (m : buffer) (p q : Z) :
  0 <= p -> 0 < q -> size m < p + q -> layer_0_words m p q = None.
Proof.
  intros Hp Hq H. unfold layer_0_words. change (8 * 2) with 16.
  destruct (Z.leb_spec q 16) as [Hle|Hgt].
  - rewrite read_short_outside by lia. reflexivity.
  - rewrite (read_u64_outside m (p + q - 8)) by lia. fail_reads.
Qed.

Lemma do_while_consumed (fuel : nat) (BFast : bool) (st : state6) (m : buffer)
    (p q r : Z) (st' : state6) (p' q' r' : Z) :
  0 <= p -> p <= size m ->
  tower_loong_do_while fuel BFast st m p q r = Some (st', p', q', r') ->
  p' <= size m.
Proof.
  revert st p q r. induction fuel as [|fuel IH]; intros st p q r Hp Hm E;
    [discriminate E|].
  cbn [tower_loong_do_while] in E.
  destruct (Z_lt_le_dec (size m) (p + 96)) as [Hout|Hin].
  - rewrite layer_12_outside in E by assumption. discriminate E.
  - destruct (_museair_layer_12 BFast st m p r) as [[st1 r1]|];
      [|discriminate E].
    cbn [bind] in E. change (8 * 12) with 96 in E.
    destruct (q - 96 >=? 96).
    + apply IH in E; lia.
    + injection E as <- <- <- <-. exact Hin.
Qed.

Lemma tail_outside (BFast : bool) (m : buffer) (len : Z) (st : state6)
    (p q : Z) :
  0 <= p <= size m -> size m < p + q ->
  tower_loong_tail BFast m len st p q = None.
Proof.
  intros Hp H. unfold tower_loong_tail.
  change (8 * 6) with 48. change (8 * 3) with 24.
  assert (E6 : forall st1 p1 q1,
            (if q >=? 48
             then st' <- _museair_layer_6 BFast st m p ;;
                  Some (st', p + 48, q - 48)
             else Some (st, p, q)) = Some (st1, p1, q1) ->
            0 <= p1 <= size m /\ size m < p1 + q1).
  { intros st1 p1 q1. rewrite Z.geb_leb.
    destruct (Z.leb_spec 48 q) as [Hge|Hlt].
    - destruct (Z_lt_le_dec (size m) (p + 48)) as [Hout|Hin].
      + rewrite layer_6_outside by lia. discriminate.
      + destruct (_museair_layer_6 BFast st m p); [|discriminate].
        cbn [bind]. intros E. injection E as <- <- <-. lia.
    - intros E. injection E as <- <- <-. lia. }
  destruct (if q >=? 48 then _ else _) as [[[st1 p1] q1]|];
    [|reflexivity].
  destruct (E6 st1 p1 q1 eq_refl) as [Hp1 H1]. cbn [bind].
  assert (E3 : forall st2 p2 q2,
            (if q1 >=? 24
             then st' <- _museair_layer_3 BFast st1 m p1 ;;
                  Some (st', p1 + 24, q1 - 24)
             else Some (st1, p1, q1)) = Some (st2, p2, q2) ->
            0 <= p2 <= size m /\ size m < p2 + q2).
  { intros st2 p2 q2. rewrite Z.geb_leb.
    destruct (Z.leb_spec 24 q1) as [Hge|Hlt].
    - destruct (Z_lt_le_dec (size m) (p1 + 24)) as [Hout|Hin].
      + rewrite layer_3_outside by lia. discriminate.
      + destruct (_museair_layer_3 BFast st1 m p1); [|discriminate].
        cbn [bind]. intros E. injection E as <- <- <-. lia.
    - intros E. injection E as <- <- <-. lia. }
  destruct (if q1 >=? 24 then _ else _) as [[[st2 p2] q2]|];
    [|reflexivity].
  destruct (E3 st2 p2 q2 eq_refl) as [Hp2 H2]. cbn [bind].
  destruct st2 as [s0 s1 s2 s3 s4 s5]. unfold _museair_layer_0.
  rewrite layer_0_words_outside by lia. reflexivity.
Qed.

Lemma tower_loong_outside (BFast : bool) (m : buffer) (len seed : Z) :
  size m < len -> _museair_tower_loong BFast m len seed = None.
Proof.
  intros H. unfold _museair_tower_loong.
  assert (Hs : 0 <= size m) by (unfold size; lia).
  destruct (tower_loong_ring BFast m seed (tower_loong_state seed) 0 len)
    as [[[st p] q]|] eqn:E; [|reflexivity].
  cbn [bind].
  assert (Hp : p + q = len /\ 0 <= p <= size m).
  { pose proof (ring_exit BFast m seed _ 0 len st p q ltac:(lia) E) as X.
    split; [lia|]. split; [lia|].
    revert E. unfold tower_loong_ring. change (8 * 12) with 96.
    destruct (len >=? 96).
    - destruct (tower_loong_state seed) as [s0 s1 s2 s3 s4 s5].
      destruct (tower_loong_do_while _ _ _ _ _ _ _)
        as [[[[st1 p1] q1] r1]|] eqn:E1; [|discriminate].
      cbn [bind]. destruct st1. intros E. injection E as <- <- <-.
      apply do_while_consumed in E1; lia.
    - intros E. injection E as <- <- <-. lia. }
  apply tail_outside; lia.
Qed.

Lemma hash_outside (BFast : bool) (m : buffer) (len seed : Z) :
  0 <= len -> size m < len ->
  _museair_hash BFast m len seed = None /\
  _museair_hash_128 BFast m len seed = None.
Proof.
  intros H0 H.
  assert (Hs : 0 <= size m) by (unfold size; lia).
  unfold _museair_hash, _museair_hash_128, _museair_hash_short,
    _museair_hash_short_128, _museair_hash_loong, _museair_hash_loong_128.
  destruct (Z.leb_spec len 16) as [Hle|Hgt].
  - unfold _museair_tower_short.
    rewrite read_short_outside by lia. split; reflexivity.
  - rewrite tower_loong_outside by lia. split; reflexivity.
Qed.

(** ** The small blocks, pair by pair *)

Lemma layer_6_block (BFast : bool) (st : state6) (m : buffer) (p : Z) :
  0 <= p -> p + 48 <= size m ->
  _museair_layer_6 BFast st m p = Some (block_6 BFast st (word_at m p)).
Proof.
  intros Hp Hm. destruct st as [s0 s1 s2 s3 s4 s5].
  unfold _museair_layer_6, block_6, word_at.
  rewrite !read_u64_inside by lia. cbn [bind st0 st1 st2 st3 st4 st5].
  repeat match goal with
         | |- context [_museair_frac_6 ?b ?x ?y ?v ?w] =>
             destruct (_museair_frac_6 b x y v w)
         end.
  reflexivity.
Qed.

Lemma layer_3_block (BFast : bool) (st : state6) (m : buffer) (p : Z) :
  0 <= p -> p + 24 <= size m ->
  _museair_layer_3 BFast st m p = Some (block_3 BFast st (word_at m p)).
Proof.
  intros Hp Hm. destruct st as [s0 s1 s2 s3 s4 s5].
  unfold _museair_layer_3, block_3, word_at.
  rewrite !read_u64_inside by lia. cbn [bind st0 st1 st2 st3 st4 st5].
  repeat match goal with
         | |- context [_museair_frac_3 ?b ?x ?y ?w] =>
             destruct (_museair_frac_3 b x y w)
         end.
  reflexivity.
Qed.

(** ** A zero factor in the fast variant *)

Lemma wmul_zero_l (b : Z) : _museair_wmul 0 b = (0, 0).
Proof. unfold _museair_wmul. rewrite Z.mul_0_l. reflexivity. Qed.

Lemma wmul_zero_r (a : Z) : _museair_wmul a 0 = (0, 0).
Proof. unfold _museair_wmul. rewrite Z.mul_0_r. reflexivity. Qed.

Lemma frac_6_fast_blind (a b w : Z) : _museair_frac_6 true a b a w = (0, 0).
Proof.
  unfold _museair_frac_6. cbn [negb].
  rewrite Z.lxor_nilpotent, wmul_zero_l. reflexivity.
Qed.

Lemma frac_6_full_keeps (a b w : Z) :
  _museair_frac_6 false a b a w = (0, Z.lxor b w).
Proof.
  unfold _museair_frac_6. cbn [negb].
  rewrite Z.lxor_nilpotent, wmul_zero_l, !Z.lxor_0_r. reflexivity.
Qed.

Lemma tail_after_6 (BFast : bool) (m : buffer) (len : Z) (st : state6)
    (p q : Z) :
  48 <= q < 96 ->
  tower_loong_tail BFast m len st p q =
    (st' <- _museair_layer_6 BFast st m p ;;
     tower_loong_tail BFast m len st' (p + 48) (q - 48)).
Proof.
  intros Hq. unfold tower_loong_tail. change (8 * 6) with 48.
  assert (E1 : (q >=? 48) = true) by (rewrite Z.geb_leb; apply Z.leb_le; lia).
  assert (E2 : (q - 48 >=? 48) = false)
    by (rewrite Z.geb_leb; apply Z.leb_gt; lia).
  rewrite E1, E2.
  destruct (_museair_layer_6 BFast st m p); reflexivity.
Qed.

Lemma bfast_tower_blind (m1 m2 : buffer) (len seed : Z) :
  48 <= len < 96 -> len <= size m1 -> len <= size m2 ->
  _museair_read_u64 m1 0 = Some (U64.add MUSEAIR_SECRET_0 seed) ->
  agree m1 m2 0 8 -> agree m1 m2 16 len ->
  _museair_tower_loong true m1 len seed =
    _museair_tower_loong true m2 len seed.
Proof.
  intros Hlen H1 H2 Hw A0 A1. unfold _museair_tower_loong.
  rewrite !ring_below_96 by lia. cbn [bind].
  rewrite !tail_after_6 by lia.
  assert (E : _museair_layer_6 true (tower_loong_state seed) m1 0 =
              _museair_layer_6 true (tower_loong_state seed) m2 0).
  { assert (Hw2 : _museair_read_u64 m2 0 = Some (U64.add MUSEAIR_SECRET_0 seed))
      by (rewrite <- (read_u64_agree m1 m2) by exact A0; exact Hw).
    unfold _museair_layer_6, tower_loong_state.
    change (0 + 8 * 0) with 0. rewrite Hw, Hw2.
    rewrite (read_u64_agree m1 m2 (0 + 8 * 2)),
      (read_u64_agree m1 m2 (0 + 8 * 3)),
      (read_u64_agree m1 m2 (0 + 8 * 4)),
      (read_u64_agree m1 m2 (0 + 8 * 5)) by sub_agree.
    rewrite (read_u64_inside m1 (0 + 8 * 1)),
      (read_u64_inside m2 (0 + 8 * 1)) by lia.
    cbn [bind]. rewrite !frac_6_fast_blind. reflexivity. }
  rewrite E.
  destruct (_museair_layer_6 true (tower_loong_state seed) m2 0) as [st'|];
    [|reflexivity].
  cbn [bind]. apply tail_agree; [lia|]. sub_agree.
Qed.

(** ** Where the tail fold reads *)

Lemma do_while_agree_blocks (fuel : nat) (BFast : bool) (st : state6)
    (m1 m2 : buffer) (p q r : Z) :
  96 <= q -> agree m1 m2 p (p + 96 * (q / 96)) ->
  tower_loong_do_while fuel BFast st m1 p q r =
    tower_loong_do_while fuel BFast st m2 p q r.
Proof.
  revert st p q r. induction fuel as [|fuel IH]; intros st p q r Hq H;
    [reflexivity|].
  cbn [tower_loong_do_while].
  rewrite (layer_12_agree BFast st m1 m2)
    by (eapply agree_sub; [exact H|lia|euclid]).
  destruct (_museair_layer_12 BFast st m2 p r) as [[st' r']|];
    [|reflexivity].
  cbn [bind]. change (8 * 12) with 96.
  rewrite Z.geb_leb. destruct (Z.leb_spec 96 (q - 96)) as [Hge|Hlt];
    [|reflexivity].
  apply IH; [lia|]. eapply agree_sub; [exact H|lia|euclid].
Qed.

Lemma ring_agree_blocks (BFast : bool) (m1 m2 : buffer) (seed : Z)
    (st : state6) (p q : Z) :
  agree m1 m2 p (p + 96 * (q / 96)) ->
  tower_loong_ring BFast m1 seed st p q = tower_loong_ring BFast m2 seed st p q.
Proof.
  intros H. unfold tower_loong_ring. change (8 * 12) with 96.
  rewrite Z.geb_leb. destruct (Z.leb_spec 96 q) as [Hge|Hlt]; [|reflexivity].
  destruct st as [s0 s1 s2 s3 s4 s5].
  rewrite (do_while_agree_blocks _ BFast _ m1 m2) by assumption. reflexivity.
Qed.

Lemma tail_schedule_blocks (BFast : bool) (m : buffer) (len : Z)
    (st : state6) (p q : Z) :
  0 <= p -> 0 <= q < 96 -> p + q <= size m ->
  exists st',
    forall m2, p + q <= size m2 -> agree m m2 p (p + 24 * (q / 24)) ->
      tower_loong_tail BFast m2 len st p q =
        ('(i, j, k) <-
           _museair_layer_0 st' m2 (p + 24 * (q / 24)) (q mod 24) len ;;
         Some (_museair_layer_f BFast len i j k)).
Proof.
  intros Hp Hq Hm.
  destruct (Z.leb_spec 48 q) as [H48|H48].
  - destruct (Z.leb_spec 24 (q - 48)) as [H24|H24].
    + eexists. intros m2 Hm2 A. unfold tower_loong_tail.
      change (8 * 6) with 48. change (8 * 3) with 24.
      rewrite Z.geb_leb, (proj2 (Z.leb_le 48 q)) by exact H48.
      rewrite <- (layer_6_agree BFast st m m2)
        by (eapply agree_sub; [exact A|lia|euclid]).
      rewrite layer_6_block by lia. cbn [bind].
      rewrite Z.geb_leb, (proj2 (Z.leb_le 24 (q - 48))) by exact H24.
      rewrite <- (layer_3_agree BFast _ m m2)
        by (eapply agree_sub; [exact A|lia|euclid]).
      rewrite layer_3_block by lia. cbn [bind].
      replace (p + 48 + 24) with (p + 24 * (q / 24)) by euclid.
      replace (q - 48 - 24) with (q mod 24) by euclid.
      reflexivity.
    + eexists. intros m2 Hm2 A. unfold tower_loong_tail.
      change (8 * 6) with 48. change (8 * 3) with 24.
      rewrite Z.geb_leb, (proj2 (Z.leb_le 48 q)) by exact H48.
      rewrite <- (layer_6_agree BFast st m m2)
        by (eapply agree_sub; [exact A|lia|euclid]).
      rewrite layer_6_block by lia. cbn [bind].
      rewrite Z.geb_leb, (proj2 (Z.leb_gt 24 (q - 48))) by exact H24.
      cbn [bind].
      replace (p + 48) with (p + 24 * (q / 24)) by euclid.
      replace (q - 48) with (q mod 24) by euclid.
      reflexivity.
  - destruct (Z.leb_spec 24 q) as [H24|H24].
    + eexists. intros m2 Hm2 A. unfold tower_loong_tail.
      change (8 * 6) with 48. change (8 * 3) with 24.
      rewrite Z.geb_leb, (proj2 (Z.leb_gt 48 q)) by exact H48.
      cbn [bind].
      rewrite Z.geb_leb, (proj2 (Z.leb_le 24 q)) by exact H24.
      rewrite <- (layer_3_agree BFast _ m m2)
        by (eapply agree_sub; [exact A|lia|euclid]).
      rewrite layer_3_block by lia. cbn [bind].
      replace (p + 24) with (p + 24 * (q / 24)) by euclid.
      replace (q - 24) with (q mod 24) by euclid.
      reflexivity.
    + exists st. intros m2 Hm2 A. unfold tower_loong_tail.
      change (8 * 6) with 48. change (8 * 3) with 24.
      rewrite Z.geb_leb, (proj2 (Z.leb_gt 48 q)) by exact H48.
      cbn [bind].
      rewrite Z.geb_leb, (proj2 (Z.leb_gt 24 q)) by exact H24.
      cbn [bind].
      replace (p + 24 * (q / 24)) with p by euclid.
      replace (q mod 24) with q by euclid.
      reflexivity.
Qed.

(** ** Packing without loss *)

Lemma some_pair_inj {A B : Type} (a a' : A) (b b' : B) :
  Some (a, b) = Some (a', b') -> a = a' /\ b = b'.
Proof. intros E. inversion E. split; reflexivity. Qed.

Lemma some_triple_inj {A B C : Type} (a a' : A) (b b' : B) (c c' : C) :
  Some (a, b, c) = Some (a', b', c') -> a = a' /\ b = b' /\ c = c'.
Proof. intros E. inversion E. repeat split; reflexivity. Qed.

Lemma lor_shiftl_add (b r k : Z) :
  0 <= k -> 0 <= b < 2 ^ k -> Z.lor b (Z.shiftl r k) = b + r * 2 ^ k.
Proof.
  intros Hk Hb. rewrite <- Z.shiftl_mul_pow2 by exact Hk.
  rewrite <- Z.add_lor_land.
  replace (Z.land b (Z.shiftl r k)) with 0; [lia|].
  symmetry. apply Z.bits_inj'; intros n Hn.
  rewrite Z.land_spec, Z.bits_0.
  destruct (Z_lt_le_dec n k) as [Hlt|Hge].
  - rewrite Z.shiftl_spec_low by exact Hlt. apply andb_false_r.
  - rewrite <- (Z.mod_small b (2 ^ k)) by exact Hb.
    rewrite Z.mod_pow2_bits_high by lia. reflexivity.
Qed.

Lemma byte_at_range (m : buffer) (k : Z) : 0 <= byte_at m k < 256.
Proof. apply byte_val_range. Qed.

Lemma le_at_step (n : nat) (m : buffer) (p : Z) :
  le_at (S n) m p = byte_at m p + le_at n m (p + 1) * 256.
Proof.
  cbn [le_at]. rewrite lor_shiftl_add; [reflexivity|lia|].
  apply byte_at_range.
Qed.

Lemma le_at_inj (n : nat) (m1 m2 : buffer) (p1 p2 : Z) :
  le_at n m1 p1 = le_at n m2 p2 ->
  forall k, 0 <= k < Z.of_nat n -> byte_at m1 (p1 + k) = byte_at m2 (p2 + k).
Proof.
  revert p1 p2. induction n as [|n IH]; intros p1 p2 E k Hk; [lia|].
  rewrite !le_at_step in E.
  pose proof (byte_at_range m1 p1). pose proof (byte_at_range m2 p2).
  assert (E0 : byte_at m1 p1 = byte_at m2 p2) by lia.
  assert (E1 : le_at n m1 (p1 + 1) = le_at n m2 (p2 + 1)) by lia.
  destruct (Z.eq_dec k 0) as [->|Hk0].
  - rewrite !Z.add_0_r. exact E0.
  - replace (p1 + k) with (p1 + 1 + (k - 1)) by lia.
    replace (p2 + k) with (p2 + 1 + (k - 1)) by lia.
    apply IH; [exact E1|lia].
Qed.

Lemma pack32_inj (a b a' b' : Z) :
  0 <= b < 2 ^ 32 -> 0 <= b' < 2 ^ 32 ->
  Z.lor (Z.shiftl a 32) b = Z.lor (Z.shiftl a' 32) b' -> a = a' /\ b = b'.
Proof.
  intros Hb Hb'. rewrite !(Z.lor_comm (Z.shiftl _ 32)).
  rewrite !lor_shiftl_add by (try lia; assumption).
  change (2 ^ 32) with 4294967296 in *. lia.
Qed.

Lemma pack3_value (b0 b1 b2 : Z) :
  0 <= b0 < 256 -> 0 <= b1 < 256 -> 0 <= b2 < 256 ->
  Z.lor (Z.lor (Z.shiftl b0 48) (Z.shiftl b1 24)) b2 =
    b0 * 2 ^ 48 + b1 * 2 ^ 24 + b2.
Proof.
  intros H0 H1 H2.
  rewrite <- Z.lor_assoc, (Z.lor_comm (Z.shiftl b1 24)).
  rewrite (lor_shiftl_add b2 b1 24) by (cbn; lia).
  rewrite Z.lor_comm, lor_shiftl_add; [lia|lia|].
  change (2 ^ 24) with 16777216. change (2 ^ 48) with 281474976710656. lia.
Qed.

Lemma read_short_injective_at (m1 m2 : buffer) (p1 p2 len : Z) :
  0 <= p1 -> 0 <= p2 -> 0 <= len <= 16 ->
  p1 + len <= size m1 -> p2 + len <= size m2 ->
  _museair_read_short m1 p1 len = _museair_read_short m2 p2 len ->
  forall k, 0 <= k < len -> byte_at m1 (p1 + k) = byte_at m2 (p2 + k).
Proof.
  intros Hp1 Hp2 Hlen H1 H2 E k Hk.
  destruct (Z_lt_le_dec len 4) as [Hlt|Hge].
  - rewrite !read_short_bytes in E by lia.
    apply some_pair_inj in E. destruct E as [E _].
    rewrite !pack3_value in E by apply byte_at_range.
    pose proof (byte_at_range m1 p1). pose proof (byte_at_range m2 p2).
    pose proof (byte_at_range m1 (p1 + Z.shiftr len 1)).
    pose proof (byte_at_range m2 (p2 + Z.shiftr len 1)).
    pose proof (byte_at_range m1 (p1 + (len - 1))).
    pose proof (byte_at_range m2 (p2 + (len - 1))).
    change (2 ^ 24) with 16777216 in E.
    change (2 ^ 48) with 281474976710656 in E.
    assert (E0 : byte_at m1 p1 = byte_at m2 p2) by lia.
    assert (E1 : byte_at m1 (p1 + Z.shiftr len 1) =
                 byte_at m2 (p2 + Z.shiftr len 1)) by lia.
    assert (E2 : byte_at m1 (p1 + (len - 1)) = byte_at m2 (p2 + (len - 1)))
      by lia.
    assert (C : len = 1 \/ len = 2 \/ len = 3) by lia.
    assert (K : k = 0 \/ k = 1 \/ k = 2) by lia.
    destruct C as [-> | [-> | ->]]; destruct K as [-> | [-> | ->]]; try lia;
      rewrite ?Z.add_0_r in *; assumption.
  - rewrite !read_short_words in E by lia.
    apply some_pair_inj in E. destruct E as [Ei Ej].
    apply pack32_inj in Ei; try apply le_at_4_range.
    apply pack32_inj in Ej; try apply le_at_4_range.
    destruct Ei as [Ea Eb]. destruct Ej as [Ec Ed].
    destruct (Z_lt_le_dec k 4) as [Hk4|Hk4].
    + apply (le_at_inj 4 m1 m2 p1 p2 Ea k). lia.
    + destruct (Z_lt_le_dec k (len - 4)) as [Hkl|Hkl].
      * destruct (Z.leb_spec 8 len) as [H8|H8]; [|lia].
        destruct (Z_lt_le_dec k 8) as [Hk8|Hk8].
        -- replace (p1 + k) with (p1 + 4 + (k - 4)) by lia.
           replace (p2 + k) with (p2 + 4 + (k - 4)) by lia.
           apply (le_at_inj 4 m1 m2 _ _ Ec). lia.
        -- replace (p1 + k) with (p1 + len - 4 - 4 + (k - (len - 8))) by lia.
           replace (p2 + k) with (p2 + len - 4 - 4 + (k - (len - 8))) by lia.
           apply (le_at_inj 4 m1 m2 _ _ Ed). lia.
      * replace (p1 + k) with (p1 + len - 4 + (k - (len - 4))) by lia.
        replace (p2 + k) with (p2 + len - 4 + (k - (len - 4))) by lia.
        apply (le_at_inj 4 m1 m2 _ _ Eb). lia.
Qed.

Lemma lxor_cancel_r (a b c : Z) : Z.lxor a c = Z.lxor b c -> a = b.
Proof.
  intros E.
  assert (H : forall x, Z.lxor (Z.lxor x c) c = x)
    by (intros x; rewrite Z.lxor_assoc, Z.lxor_nilpotent; apply Z.lxor_0_r).
  rewrite <- (H a), E. apply H.
Qed.

(** ** The self-test as a sweep over the keys *)

Lemma load_app_l (m t : buffer) (k : Z) :
  k < size m -> load (m ++ t) k = load m k.
Proof.
  intros H. unfold load, size in *.
  destruct (Z.ltb_spec k 0) as [_|H0]; [reflexivity|].
  rewrite nth_error_app1 by lia. reflexivity.
Qed.

Lemma agree_app (m t1 t2 : buffer) (lo hi : Z) :
  hi <= size m -> agree (m ++ t1) (m ++ t2) lo hi.
Proof.
  intros H k Hk. rewrite !load_app_l by lia. reflexivity.
Qed.

Lemma iota_key_S (n : nat) :
  iota_key (S n) = iota_key n ++ [byte_of_Z (Z.of_nat n)].
Proof.
  unfold iota_key. rewrite seq_S, map_app. reflexivity.
Qed.

Lemma store_middle (a b c d : buffer) (p : Z) :
  p = Z.of_nat (length a) -> length b = length c ->
  store (a ++ b ++ d) p c = a ++ c ++ d.
Proof.
  intros -> Hl. unfold store. rewrite Nat2Z.id.
  rewrite firstn_app, firstn_all, Nat.sub_diag, firstn_O, app_nil_r.
  rewrite skipn_app.
  rewrite (skipn_all2 a) by lia.
  replace (length a + length c - length a)%nat with (length b) by lia.
  rewrite skipn_app, skipn_all, Nat.sub_diag, skipn_O. reflexivity.
Qed.

Lemma repeat_S_app {A : Type} (x : A) (n k : nat) :
  repeat x (k + n) = repeat x k ++ repeat x n.
Proof. apply repeat_app. Qed.

Section Sweep.

Variable hb : nat.
Variable HASH : hash_fn.

Hypothesis HASH_reads_len :
  forall m1 m2 len seed,
    agree m1 m2 0 len -> HASH m1 len seed = HASH m2 len seed.

Hypothesis HASH_inside :
  forall m len seed,
    0 <= len <= size m -> exists d, HASH m len seed = Some d /\ length d = hb.

Lemma sweep_length (n : nat) :
  exists D, sweep n HASH = Some D /\ length D = (hb * n)%nat.
Proof.
  induction n as [|n (D & E & L)].
  - exists []. split; [reflexivity|]. cbn. lia.
  - cbn [sweep]. rewrite E. cbn [bind].
    destruct (HASH_inside (iota_key n) (Z.of_nat n) (256 - Z.of_nat n))
      as (d & Ed & Ld).
    { rewrite iota_key_size. lia. }
    rewrite Ed. cbn [bind]. exists (D ++ d). split; [reflexivity|].
    rewrite length_app. lia.
Qed.

Lemma verify_loop_sweep (n i : nat) (D : list byte) :
  sweep i HASH = Some D ->
  exists D',
    sweep (i + n) HASH = Some D' /\
    verify_loop n HASH (Z.of_nat hb) (Z.of_nat i)
      (iota_key i ++ repeat Byte.x00 n)
      (D ++ repeat Byte.x00 (hb * n)) = Some D'.
Proof.
  revert i D. induction n as [|n IH]; intros i D E.
  - exists D. rewrite Nat.add_0_r, Nat.mul_0_r. cbn [repeat verify_loop].
    rewrite app_nil_r. split; [exact E|reflexivity].
  - cbn [verify_loop]. unfold HASH_INIT.
    destruct (sweep_length i) as (D0 & E0 & L).
    assert (D0 = D) by congruence. subst D0.
    destruct (HASH_inside (iota_key i) (Z.of_nat i) (256 - Z.of_nat i))
      as (d & Ed & Ld).
    { rewrite iota_key_size. lia. }
    rewrite (HASH_reads_len _ (iota_key i ++ [])).
    2:{ apply agree_app. rewrite iota_key_size. lia. }
    rewrite app_nil_r, Ed. cbn [bind].
    replace (hb * S n)%nat with (hb + hb * n)%nat by lia.
    rewrite repeat_S_app.
    rewrite (store_middle D (repeat Byte.x00 hb) d)
      by (rewrite ?repeat_length; lia).
    change (repeat Byte.x00 (S n)) with ([Byte.x00] ++ repeat Byte.x00 n).
    rewrite (store_middle (iota_key i) [Byte.x00] [byte_of_Z (Z.of_nat i)])
      by (try reflexivity; pose proof (iota_key_size i) as S; unfold size in S;
          lia).
    rewrite !app_assoc, <- iota_key_S.
    replace (Z.of_nat i + 1) with (Z.of_nat (S i)) by lia.
    destruct (IH (S i) (D ++ d)) as (D' & E' & V).
    { cbn [sweep]. rewrite E. cbn [bind]. rewrite Ed. reflexivity. }
    exists D'. split; [|exact V].
    replace (i + S n)%nat with (S i + n)%nat by lia. exact E'.
Qed.

Lemma verify_is_sweep :
  ComputedVerifyImpl (8 * Z.of_nat hb) HASH =
    (hashes <- sweep 256 HASH ;;
     total <- HASH hashes (Z.of_nat hb * 256) 0 ;;
     load_le 4 total 0).
Proof.
  unfold ComputedVerifyImpl, HASH_INIT, calloc.
  replace (8 * Z.of_nat hb / 8) with (Z.of_nat hb)
    by (rewrite Z.mul_comm, Z.div_mul; lia).
  destruct (verify_loop_sweep 256 0 [] eq_refl) as (D' & E & V).
  cbn [Nat.add app iota_key] in E, V.
  replace (Z.to_nat (Z.of_nat hb * 256)) with (hb * 256)%nat by lia.
  change (Z.to_nat 256) with 256%nat.
  change (iota_key 0 ++ repeat Byte.x00 256) with (repeat Byte.x00 256) in V.
  change (Z.of_nat 0) with 0 in V.
  rewrite V, E. reflexivity.
Qed.

End Sweep.

(** ** Byte swaps *)

Lemma shiftl_bits (a n i : Z) :
  0 <= n -> Z.testbit (Z.shiftl a n) i = Z.testbit a (i - n).
Proof.
  intros Hn. destruct (Z_lt_le_dec i n) as [Hlt|Hge].
  - rewrite Z.shiftl_spec_low by exact Hlt.
    rewrite Z.testbit_neg_r by lia. reflexivity.
  - apply Z.shiftl_spec. lia.
Qed.

Lemma byte_mask_bits (lo i : Z) :
  0 <= lo ->
  Z.testbit (Z.shiftl 255 lo) i = (lo <=? i) && (i <? lo + 8).
Proof.
  intros Hlo. rewrite shiftl_bits by exact Hlo.
  change 255 with (Z.ones 8). rewrite Z.testbit_ones by lia.
  destruct (Z.leb_spec 0 (i - lo)), (Z.leb_spec lo i); try lia;
    destruct (Z.ltb_spec (i - lo) 8), (Z.ltb_spec i (lo + 8)); try lia;
    reflexivity.
Qed.

Lemma byte_bits_out (b j : Z) :
  0 <= b < 256 -> j < 0 \/ 8 <= j -> Z.testbit b j = false.
Proof.
  intros Hb [Hj|Hj]; [apply Z.testbit_neg_r; exact Hj|].
  rewrite <- (Z.mod_small b (2 ^ 8)) by (change (2 ^ 8) with 256; exact Hb).
  apply Z.mod_pow2_bits_high. lia.
Qed.

Ltac split_cmp :=
  repeat match goal with
         | |- context [?a <=? ?b] => destruct (Z.leb_spec a b); try lia
         | |- context [?a <? ?b] => destruct (Z.ltb_spec a b); try lia
         end.

Lemma bswap_64_bits (v i : Z) :
  0 <= i ->
  Z.testbit (_museair_bswap_64 v) i =
    (i <? 64) && Z.testbit v (56 - 8 * (i / 8) + i mod 8).
Proof.
  intros Hi. unfold _museair_bswap_64, U64.shl, U64.shr.
  change 0xFF00000000000000 with (Z.shiftl 255 56).
  change 0x00FF000000000000 with (Z.shiftl 255 48).
  change 0x0000FF0000000000 with (Z.shiftl 255 40).
  change 0x000000FF00000000 with (Z.shiftl 255 32).
  change 0x00000000FF000000 with (Z.shiftl 255 24).
  change 0x0000000000FF0000 with (Z.shiftl 255 16).
  change 0x000000000000FF00 with (Z.shiftl 255 8).
  change 0x00000000000000FF with (Z.shiftl 255 0).
  rewrite !Z.lor_spec, !wrap_testbit, !Z.shiftr_spec, !shiftl_bits by lia.
  rewrite !Z.land_spec, !byte_mask_bits by lia.
  split_cmp; cbn [andb orb];
    rewrite ?andb_false_r, ?andb_true_r, ?orb_false_r; cbn [andb orb];
    try reflexivity; f_equal; euclid.
Qed.

Lemma bswap_32_bits (v i : Z) :
  0 <= i ->
  Z.testbit (_museair_bswap_32 v) i =
    (i <? 32) && Z.testbit v (24 - 8 * (i / 8) + i mod 8).
Proof.
  intros Hi. unfold _museair_bswap_32, shl32, U64.shr.
  change 0xFF000000 with (Z.shiftl 255 24).
  change 0x00FF0000 with (Z.shiftl 255 16).
  change 0x0000FF00 with (Z.shiftl 255 8).
  change 0x000000FF with (Z.shiftl 255 0).
  rewrite !Z.lor_spec, !Z.testbit_mod_pow2, !Z.shiftr_spec, !shiftl_bits
    by lia.
  rewrite !Z.land_spec, !byte_mask_bits by lia.
  split_cmp; cbn [andb orb];
    rewrite ?andb_false_r, ?andb_true_r, ?orb_false_r; cbn [andb orb];
    try reflexivity; f_equal; euclid.
Qed.

Lemma le_at_bits (n : nat) (m : buffer) (p i : Z) :
  0 <= i ->
  Z.testbit (le_at n m p) i =
    (i <? 8 * Z.of_nat n) && Z.testbit (byte_at m (p + i / 8)) (i mod 8).
Proof.
  revert p i. induction n as [|n IH]; intros p i Hi.
  - cbn [le_at]. rewrite Z.bits_0.
    destruct (Z.ltb_spec i (8 * Z.of_nat 0)); [lia|reflexivity].
  - cbn [le_at]. rewrite Z.lor_spec, shiftl_bits by lia.
    destruct (Z_lt_le_dec i 8) as [Hlt|Hge].
    + rewrite (Z.testbit_neg_r _ (i - 8)) by lia. rewrite orb_false_r.
      destruct (Z.ltb_spec i (8 * Z.of_nat (S n))); [|lia].
      cbn [andb]. f_equal; [f_equal|]; euclid.
    + rewrite (byte_bits_out (byte_at m p) i)
        by (try apply byte_at_range; lia).
      rewrite IH by lia. cbn [orb].
      f_equal.
      * destruct (Z.ltb_spec (i - 8) (8 * Z.of_nat n)),
          (Z.ltb_spec i (8 * Z.of_nat (S n))); try lia; reflexivity.
      * f_equal; [f_equal|]; euclid.
Qed.

Lemma be_at_bits (n : nat) (m : buffer) (p i : Z) :
  0 <= i ->
  Z.testbit (be_at n m p) i =
    (i <? 8 * Z.of_nat n) &&
    Z.testbit (byte_at m (p + (Z.of_nat n - 1 - i / 8))) (i mod 8).
Proof.
  revert p i. induction n as [|n IH]; intros p i Hi.
  - cbn [be_at]. rewrite Z.bits_0.
    destruct (Z.ltb_spec i (8 * Z.of_nat 0)); [lia|reflexivity].
  - cbn [be_at]. rewrite Z.lor_spec, shiftl_bits, IH by lia.
    destruct (Z_lt_le_dec i (8 * Z.of_nat n)) as [Hlt|Hge].
    + rewrite (byte_bits_out (byte_at m p))
        by (try apply byte_at_range; lia).
      cbn [orb].
      f_equal.
      * destruct (Z.ltb_spec i (8 * Z.of_nat n)),
          (Z.ltb_spec i (8 * Z.of_nat (S n))); try lia; reflexivity.
      * f_equal. f_equal. lia.
    + destruct (Z.ltb_spec i (8 * Z.of_nat n)); [lia|]. cbn [andb].
      rewrite orb_false_r.
      destruct (Z.ltb_spec i (8 * Z.of_nat (S n))) as [Hin|Hout].
      * cbn [andb]. f_equal; [f_equal|]; euclid.
      * apply byte_bits_out; [apply byte_at_range|lia].
Qed.

Lemma bswap_64_be_at (m : buffer) (p : Z) :
  _museair_bswap_64 (be_at 8 m p) = le_at 8 m p.
Proof.
  apply Z.bits_inj'; intros i Hi.
  rewrite bswap_64_bits, le_at_bits by exact Hi.
  change (8 * Z.of_nat 8) with 64.
  destruct (Z.ltb_spec i 64) as [Hlt|Hge]; [|reflexivity]. cbn [andb].
  rewrite be_at_bits by euclid. change (8 * Z.of_nat 8) with 64.
  destruct (Z.ltb_spec (56 - 8 * (i / 8) + i mod 8) 64); [|euclid].
  cbn [andb]. f_equal; [f_equal|]; euclid.
Qed.

Lemma bswap_32_be_at (m : buffer) (p : Z) :
  _museair_bswap_32 (be_at 4 m p) = le_at 4 m p.
Proof.
  apply Z.bits_inj'; intros i Hi.
  rewrite bswap_32_bits, le_at_bits by exact Hi.
  change (8 * Z.of_nat 4) with 32.
  destruct (Z.ltb_spec i 32) as [Hlt|Hge]; [|reflexivity]. cbn [andb].
  rewrite be_at_bits by euclid. change (8 * Z.of_nat 4) with 32.
  destruct (Z.ltb_spec (24 - 8 * (i / 8) + i mod 8) 32); [|euclid].
  cbn [andb]. f_equal; [f_equal|]; euclid.
Qed.

Lemma bswap_64_range (v : Z) : U64.in_range (_museair_bswap_64 v).
Proof.
  apply in_range_bits.
  - unfold _museair_bswap_64, U64.shl, U64.shr, U64.wrap, U64.modulus.
    repeat (apply Z.lor_nonneg; split);
      try (apply Z.shiftr_nonneg, Z.land_nonneg; right; lia);
      apply Z.mod_pos_bound; lia.
  - intros n Hn. rewrite bswap_64_bits by lia.
    destruct (Z.ltb_spec n 64); [lia|reflexivity].
Qed.

Lemma bswap_64_twice (v : Z) :
  U64.in_range v -> _museair_bswap_64 (_museair_bswap_64 v) = v.
Proof.
  intros Hv. apply Z.bits_inj'; intros i Hi.
  rewrite bswap_64_bits by exact Hi.
  destruct (Z.ltb_spec i 64) as [Hlt|Hge].
  - cbn [andb]. rewrite bswap_64_bits by euclid.
    destruct (Z.ltb_spec (56 - 8 * (i / 8) + i mod 8) 64); [|euclid].
    cbn [andb]. f_equal. euclid.
  - rewrite (range_high_bits v i) by assumption. reflexivity.
Qed.

Lemma load_be_inside (n : nat) (m : buffer) (p : Z) :
  0 <= p -> p + Z.of_nat n <= size m -> load_be n m p = Some (be_at n m p).
Proof.
  revert p. induction n as [|n IH]; intros p H0 H1; [reflexivity|].
  cbn [load_be be_at].
  rewrite load_inside by lia. cbn [bind].
  rewrite IH by lia. reflexivity.
Qed.

Lemma load_be_outside (n : nat) (m : buffer) (p : Z) :
  (0 < n)%nat -> p < 0 \/ size m < p + Z.of_nat n -> load_be n m p = None.
Proof.
  revert p. induction n as [|n IH]; intros p Hn H; [lia|].
  cbn [load_be].
  destruct (load m p) as [b|] eqn:E; [|reflexivity]. cbn [bind].
  destruct n as [|n'].
  - rewrite load_outside in E by lia. discriminate E.
  - rewrite IH; [reflexivity|lia|].
    destruct (Z_lt_le_dec p 0) as [Hneg|Hpos].
    + rewrite load_outside in E by lia. discriminate E.
    + right. lia.
Qed.

Lemma read_bswap_same (m : buffer) (p : Z) :
  _museair_read_u64_bswap m p = _museair_read_u64 m p /\
  _museair_read_u32_bswap m p = _museair_read_u32 m p.
Proof.
  unfold _museair_read_u64_bswap, _museair_read_u32_bswap.
  split.
  - destruct (Z_lt_le_dec p 0) as [Hn|Hp];
      [|destruct (Z_lt_le_dec (size m) (p + 8)) as [Ho|Hi]].
    + rewrite load_be_outside, read_u64_outside by lia. reflexivity.
    + rewrite load_be_outside, read_u64_outside by lia. reflexivity.
    + rewrite load_be_inside, read_u64_inside by lia. cbn [bind].
      rewrite bswap_64_be_at. reflexivity.
  - destruct (Z_lt_le_dec p 0) as [Hn|Hp];
      [|destruct (Z_lt_le_dec (size m) (p + 4)) as [Ho|Hi]].
    + rewrite load_be_outside, read_u32_outside by lia. reflexivity.
    + rewrite load_be_outside, read_u32_outside by lia. reflexivity.
    + rewrite load_be_inside, read_u32_inside by lia. cbn [bind].
      rewrite bswap_32_be_at. reflexivity.
Qed.

(** ** The digest is a 64-bit word *)

Lemma add_range (a b : Z) : U64.in_range (U64.add a b).
Proof. apply wrap_range. Qed.

Lemma sub_range (a b : Z) : U64.in_range (U64.sub a b).
Proof. apply wrap_range. Qed.

Lemma shl_range (a n : Z) : U64.in_range (U64.shl a n).
Proof. apply wrap_range. Qed.

Lemma secret_range :
  U64.in_range MUSEAIR_SECRET_0 /\ U64.in_range MUSEAIR_SECRET_1 /\
  U64.in_range MUSEAIR_SECRET_2 /\ U64.in_range MUSEAIR_SECRET_3 /\
  U64.in_range MUSEAIR_SECRET_4 /\ U64.in_range MUSEAIR_SECRET_5 /\
  U64.in_range MUSEAIR_RING_PREV.
Proof. vm_compute. repeat split; discriminate. Qed.

Lemma secret_0_range : U64.in_range MUSEAIR_SECRET_0.
Proof. apply secret_range. Qed.
Lemma secret_1_range : U64.in_range MUSEAIR_SECRET_1.
Proof. apply secret_range. Qed.
Lemma secret_2_range : U64.in_range MUSEAIR_SECRET_2.
Proof. apply secret_range. Qed.
Lemma secret_3_range : U64.in_range MUSEAIR_SECRET_3.
Proof. apply secret_range. Qed.
Lemma secret_4_range : U64.in_range MUSEAIR_SECRET_4.
Proof. apply secret_range. Qed.
Lemma secret_5_range : U64.in_range MUSEAIR_SECRET_5.
Proof. apply secret_range. Qed.
Lemma ring_prev_range : U64.in_range MUSEAIR_RING_PREV.
Proof. apply secret_range. Qed.

Lemma zero_range : U64.in_range 0.
Proof. unfold U64.in_range, U64.modulus. lia. Qed.

Lemma word_at_range (m : buffer) (p k : Z) : U64.in_range (word_at m p k).
Proof. apply le_at_8_range. Qed.

Create HintDb u64 discriminated.
#[local] Hint Resolve lxor_range lor_range wrap_range add_range sub_range
  shl_range zero_range le_at_8_range word_at_range secret_0_range
  secret_1_range secret_2_range secret_3_range secret_4_range secret_5_range
  ring_prev_range rotl_range rotr_range : u64.

Ltac range :=
  cbv beta iota zeta delta [fst snd negb];
  repeat match goal with |- _ /\ _ => split end; auto 12 with u64.

Lemma frac_6_range (BFast : bool) (sp sq ip iq : Z) :
  U64.in_range sp -> U64.in_range sq -> U64.in_range ip -> U64.in_range iq ->
  U64.in_range (fst (_museair_frac_6 BFast sp sq ip iq)) /\
  U64.in_range (snd (_museair_frac_6 BFast sp sq ip iq)).
Proof.
  intros. unfold _museair_frac_6, _museair_wmul. destruct BFast; range.
Qed.

Lemma frac_3_range (BFast : bool) (sp sq ip : Z) :
  U64.in_range sp -> U64.in_range sq -> U64.in_range ip ->
  U64.in_range (fst (_museair_frac_3 BFast sp sq ip)) /\
  U64.in_range (snd (_museair_frac_3 BFast sp sq ip)).
Proof.
  intros. unfold _museair_frac_3, _museair_wmul. destruct BFast; range.
Qed.

Lemma block_6_range (BFast : bool) (st : state6) (w : Z -> Z) :
  state_in_range st -> (forall k, U64.in_range (w k)) ->
  state_in_range (block_6 BFast st w).
Proof.
  intros (H0 & H1 & H2 & H3 & H4 & H5) Hw. unfold block_6.
  pose proof (frac_6_range BFast (st0 st) (st1 st) (w 0) (w 1)) as A.
  pose proof (frac_6_range BFast (st2 st) (st3 st) (w 2) (w 3)) as B.
  pose proof (frac_6_range BFast (st4 st) (st5 st) (w 4) (w 5)) as C.
  destruct (_museair_frac_6 BFast (st0 st) _ _ _),
    (_museair_frac_6 BFast (st2 st) _ _ _),
    (_museair_frac_6 BFast (st4 st) _ _ _).
  cbn [fst snd] in *. unfold state_in_range. cbn [st0 st1 st2 st3 st4 st5].
  destruct A, B, C; auto 12.
Qed.

Lemma block_3_range (BFast : bool) (st : state6) (w : Z -> Z) :
  state_in_range st -> (forall k, U64.in_range (w k)) ->
  state_in_range (block_3 BFast st w).
Proof.
  intros (H0 & H1 & H2 & H3 & H4 & H5) Hw. unfold block_3.
  pose proof (frac_3_range BFast (st0 st) (st3 st) (w 0)) as A.
  pose proof (frac_3_range BFast (st1 st) (st4 st) (w 1)) as B.
  pose proof (frac_3_range BFast (st2 st) (st5 st) (w 2)) as C.
  destruct (_museair_frac_3 BFast (st0 st) _ _),
    (_museair_frac_3 BFast (st1 st) _ _),
    (_museair_frac_3 BFast (st2 st) _ _).
  cbn [fst snd] in *. unfold state_in_range. cbn [st0 st1 st2 st3 st4 st5].
  destruct A, B, C; auto 12.
Qed.

Lemma ring_pair_range (BFast : bool) (a b w1 w2 c : Z) :
  U64.in_range a -> U64.in_range b -> U64.in_range w1 -> U64.in_range w2 ->
  U64.in_range c ->
  let '(x, y, z) := ring_pair BFast a b w1 w2 c in
  U64.in_range x /\ U64.in_range y /\ U64.in_range z.
Proof.
  intros. unfold ring_pair, _museair_wmul. destruct BFast; range.
Qed.

Lemma ring_block_range (BFast : bool) (st : state6) (w : Z -> Z) (c : Z) :
  state_in_range st -> (forall k, U64.in_range (w k)) -> U64.in_range c ->
  state_in_range (fst (ring_block (ring_pair BFast) st w c)) /\
  U64.in_range (snd (ring_block (ring_pair BFast) st w c)).
Proof.
  intros (H0 & H1 & H2 & H3 & H4 & H5) Hw Hc.
  destruct st as [s0 s1 s2 s3 s4 s5]. cbn [st0 st1 st2 st3 st4 st5] in *.
  unfold ring_block.
  pose proof (ring_pair_range BFast s0 s1 (w 0) (w 1) c) as P0.
  destruct (ring_pair BFast s0 s1 (w 0) (w 1) c) as [[a0 b1] c0].
  destruct P0 as (? & ? & ?); auto.
  pose proof (ring_pair_range BFast b1 s2 (w 2) (w 3) c0) as P1.
  destruct (ring_pair BFast b1 s2 (w 2) (w 3) c0) as [[a1 b2] c1].
  destruct P1 as (? & ? & ?); auto.
  pose proof (ring_pair_range BFast b2 s3 (w 4) (w 5) c1) as P2.
  destruct (ring_pair BFast b2 s3 (w 4) (w 5) c1) as [[a2 b3] c2].
  destruct P2 as (? & ? & ?); auto.
  pose proof (ring_pair_range BFast b3 s4 (w 6) (w 7) c2) as P3.
  destruct (ring_pair BFast b3 s4 (w 6) (w 7) c2) as [[a3 b4] c3].
  destruct P3 as (? & ? & ?); auto.
  pose proof (ring_pair_range BFast b4 s5 (w 8) (w 9) c3) as P4.
  destruct (ring_pair BFast b4 s5 (w 8) (w 9) c3) as [[a4 b5] c4].
  destruct P4 as (? & ? & ?); auto.
  pose proof (ring_pair_range BFast b5 a0 (w 10) (w 11) c4) as P5.
  destruct (ring_pair BFast b5 a0 (w 10) (w 11) c4) as [[a5 b0] c5].
  destruct P5 as (? & ? & ?); auto.
  cbn [fst snd]. unfold state_in_range. cbn [st0 st1 st2 st3 st4 st5].
  auto 12.
Qed.

(** What a read returns is what lies in the buffer. *)
Lemma read_u64_some (m : buffer) (p v : Z) :
  _museair_read_u64 m p = Some v ->
  0 <= p /\ p + 8 <= size m /\ v = le_at 8 m p.
Proof.
  intros E.
  destruct (Z_lt_le_dec p 0) as [Hn|Hp];
    [rewrite read_u64_outside in E by lia; discriminate E|].
  destruct (Z_lt_le_dec (size m) (p + 8)) as [Ho|Hi];
    [rewrite read_u64_outside in E by lia; discriminate E|].
  rewrite read_u64_inside in E by lia.
  split; [lia|]. split; [lia|congruence].
Qed.

Lemma layer_12_some (BFast : bool) (st : state6) (m : buffer) (p r : Z)
    (o : state6 * Z) :
  0 <= p -> _museair_layer_12 BFast st m p r = Some o ->
  o = ring_block (ring_pair BFast) st (word_at m p) r.
Proof.
  intros Hp E.
  destruct (Z_lt_le_dec (size m) (p + 96)) as [Ho|Hi];
    [rewrite layer_12_outside in E by lia; discriminate E|].
  rewrite layer_12_inside in E by lia. congruence.
Qed.

Lemma layer_6_some (BFast : bool) (st : state6) (m : buffer) (p : Z)
    (o : state6) :
  0 <= p -> _museair_layer_6 BFast st m p = Some o ->
  o = block_6 BFast st (word_at m p).
Proof.
  intros Hp E.
  destruct (Z_lt_le_dec (size m) (p + 48)) as [Ho|Hi];
    [rewrite layer_6_outside in E by lia; discriminate E|].
  rewrite layer_6_block in E by lia. congruence.
Qed.

Lemma layer_3_some (BFast : bool) (st : state6) (m : buffer) (p : Z)
    (o : state6) :
  0 <= p -> _museair_layer_3 BFast st m p = Some o ->
  o = block_3 BFast st (word_at m p).
Proof.
  intros Hp E.
  destruct (Z_lt_le_dec (size m) (p + 24)) as [Ho|Hi];
    [rewrite layer_3_outside in E by lia; discriminate E|].
  rewrite layer_3_block in E by lia. congruence.
Qed.

Lemma do_while_range (fuel : nat) (BFast : bool) (st : state6) (m : buffer)
    (p q r : Z) (st' : state6) (p' q' r' : Z) :
  0 <= p -> state_in_range st -> U64.in_range r ->
  tower_loong_do_while fuel BFast st m p q r = Some (st', p', q', r') ->
  state_in_range st' /\ U64.in_range r'.
Proof.
  revert st p q r. induction fuel as [|fuel IH]; intros st p q r Hp Hs Hr E;
    [discriminate E|].
  cbn [tower_loong_do_while] in E.
  destruct (_museair_layer_12 BFast st m p r) as [[st1 r1]|] eqn:E12;
    [|discriminate E].
  apply layer_12_some in E12; [|exact Hp].
  pose proof (ring_block_range BFast st (word_at m p) r Hs
                (word_at_range m p) Hr) as [Hs1 Hr1].
  rewrite <- E12 in Hs1, Hr1. cbn [fst snd] in Hs1, Hr1.
  cbn [bind] in E. destruct (q - 8 * 12 >=? 8 * 12).
  - apply IH in E; [exact E|lia|exact Hs1|exact Hr1].
  - assert (X : st1 = st' /\ r1 = r') by (split; congruence).
    destruct X as [<- <-]. split; assumption.
Qed.

Lemma tower_loong_state_range (seed : Z) :
  U64.in_range seed -> state_in_range (tower_loong_state seed).
Proof.
  intros Hs. unfold tower_loong_state, state_in_range.
  cbn [st0 st1 st2 st3 st4 st5]. range.
Qed.

Lemma ring_range (BFast : bool) (m : buffer) (seed : Z) (st : state6)
    (p q : Z) (st' : state6) (p' q' : Z) :
  0 <= p -> state_in_range st -> U64.in_range seed ->
  tower_loong_ring BFast m seed st p q = Some (st', p', q') ->
  state_in_range st'.
Proof.
  intros Hp Hs Hseed. unfold tower_loong_ring.
  destruct (q >=? 8 * 12).
  - destruct st as [s0 s1 s2 s3 s4 s5].
    destruct Hs as (H0 & H1 & H2 & H3 & H4 & H5).
    cbn [st0 st1 st2 st3 st4 st5] in *.
    destruct (tower_loong_do_while _ _ _ _ _ _ _)
      as [[[[sa pa] qa] ra]|] eqn:E; [|discriminate].
    apply do_while_range in E; try assumption.
    2:{ unfold state_in_range. cbn [st0 st1 st2 st3 st4 st5]. range. }
    2:{ apply ring_prev_range. }
    destruct E as [(A0 & A1 & A2 & A3 & A4 & A5) Hr].
    cbn [bind]. destruct sa as [t0 t1 t2 t3 t4 t5].
    cbn [st0 st1 st2 st3 st4 st5] in *.
    intros E. apply some_triple_inj in E. destruct E as (<- & _ & _).
    unfold state_in_range. cbn [st0 st1 st2 st3 st4 st5]. range.
  - intros E. apply some_triple_inj in E. destruct E as (<- & _ & _).
    exact Hs.
Qed.

Lemma load_some (m : buffer) (p b : Z) :
  load m p = Some b -> U64.in_range b.
Proof.
  unfold load. destruct (p <? 0); [discriminate|].
  destruct (nth_error m (Z.to_nat p)) as [x|]; [|discriminate].
  intros E. injection E as <-. pose proof (byte_val_range x).
  unfold U64.in_range, U64.modulus. lia.
Qed.

Lemma read_u32_some (m : buffer) (p v : Z) :
  _museair_read_u32 m p = Some v -> U64.in_range v.
Proof.
  intros E.
  destruct (Z_lt_le_dec p 0) as [Hn|Hp];
    [rewrite read_u32_outside in E by lia; discriminate E|].
  destruct (Z_lt_le_dec (size m) (p + 4)) as [Ho|Hi];
    [rewrite read_u32_outside in E by lia; discriminate E|].
  rewrite read_u32_inside in E by lia.
  assert (v = le_at 4 m p) by congruence. subst v.
  pose proof (le_at_4_range m p). unfold U64.in_range, U64.modulus.
  change (2 ^ 32) with 4294967296 in *. lia.
Qed.

Lemma read_u64_range (m : buffer) (p v : Z) :
  _museair_read_u64 m p = Some v -> U64.in_range v.
Proof.
  intros E. apply read_u64_some in E. destruct E as (_ & _ & ->).
  apply le_at_8_range.
Qed.

Lemma read_short_range (m : buffer) (p len i j : Z) :
  _museair_read_short m p len = Some (i, j) ->
  U64.in_range i /\ U64.in_range j.
Proof.
  unfold _museair_read_short. destruct (len >=? 4).
  - destruct (_museair_read_u32 m p) as [a|] eqn:Ea; [|discriminate].
    destruct (_museair_read_u32 m (p + len - 4)) as [b|] eqn:Eb;
      [|discriminate].
    destruct (_museair_read_u32 m (p + _)) as [c|] eqn:Ec; [|discriminate].
    destruct (_museair_read_u32 m (p + len - 4 - _)) as [d|] eqn:Ed;
      [|discriminate].
    cbn [bind]. intros E. apply some_pair_inj in E. destruct E as [<- <-].
    apply read_u32_some in Eb, Ed. range.
  - destruct (len >? 0).
    + destruct (load m p) as [b0|] eqn:E0; [|discriminate].
      destruct (load m (p + _)) as [b1|] eqn:E1; [|discriminate].
      destruct (load m (p + (len - 1))) as [b2|] eqn:E2; [|discriminate].
      cbn [bind]. intros E. apply some_pair_inj in E. destruct E as [<- <-].
      apply load_some in E2. range.
    + intros E. apply some_pair_inj in E. destruct E as [<- <-]. range.
Qed.

Lemma layer_0_words_range (m : buffer) (p q i j k : Z) :
  layer_0_words m p q = Some (i, j, k) ->
  U64.in_range i /\ U64.in_range j /\ U64.in_range k.
Proof.
  unfold layer_0_words. destruct (q <=? 8 * 2).
  - destruct (_museair_read_short m p q) as [[i_ j_]|] eqn:E; [|discriminate].
    apply read_short_range in E. destruct E.
    cbn [bind]. intros E. apply some_triple_inj in E.
    destruct E as (<- & <- & <-). range.
  - destruct (_museair_read_u64 m p) as [a|] eqn:Ea; [|discriminate].
    destruct (_museair_read_u64 m (p + 8)) as [b|] eqn:Eb; [|discriminate].
    destruct (_museair_read_u64 m (p + q - 8)) as [c|] eqn:Ec;
      [|discriminate].
    cbn [bind]. intros E. apply some_triple_inj in E.
    destruct E as (<- & <- & <-).
    apply read_u64_range in Ea, Eb, Ec. range.
Qed.

Lemma layer_0_range (st : state6) (m : buffer) (p q len i j k : Z) :
  state_in_range st ->
  _museair_layer_0 st m p q len = Some (i, j, k) ->
  U64.in_range i /\ U64.in_range j /\ U64.in_range k.
Proof.
  intros (H0 & H1 & H2 & H3 & H4 & H5).
  destruct st as [s0 s1 s2 s3 s4 s5]. cbn [st0 st1 st2 st3 st4 st5] in *.
  unfold _museair_layer_0.
  destruct (layer_0_words m p q) as [[[i0 j0] k0]|] eqn:E; [|discriminate].
  apply layer_0_words_range in E. destruct E as (? & ? & ?).
  cbn [bind]. destruct (len >=? 8 * 3).
  - destruct (_museair_chixx s0 s2 s4) as [[a0 a2] a4].
    destruct (_museair_chixx s1 s3 s5) as [[a1 a3] a5].
    intros E. apply some_triple_inj in E. destruct E as (<- & <- & <-).
    range.
  - intros E. apply some_triple_inj in E. destruct E as (<- & <- & <-).
    range.
Qed.

Lemma twist_mul_range (BFast : bool) (i j k : Z) :
  U64.in_range i -> U64.in_range j -> U64.in_range k ->
  let '(a, b, c) := twist_mul BFast i j k in
  U64.in_range a /\ U64.in_range b /\ U64.in_range c.
Proof.
  intros. unfold twist_mul, _museair_wmul. destruct BFast; range.
Qed.

Lemma layer_f_range (BFast : bool) (len i j k : Z) :
  U64.in_range len -> U64.in_range i -> U64.in_range j -> U64.in_range k ->
  let '(a, b, c) := _museair_layer_f BFast len i j k in
  U64.in_range a /\ U64.in_range b /\ U64.in_range c.
Proof.
  intros Hl Hi Hj Hk. rewrite layer_f_steps.
  pose proof (chixx_range i j k Hi Hj Hk) as C.
  destruct (_museair_chixx i j k) as [[i1 j1] k1]. destruct C as (? & ? & ?).
  apply twist_mul_range; auto with u64.
Qed.

Lemma tail_range (BFast : bool) (m : buffer) (len : Z) (st : state6)
    (p q i j k : Z) :
  0 <= p -> state_in_range st -> U64.in_range len ->
  tower_loong_tail BFast m len st p q = Some (i, j, k) ->
  U64.in_range i /\ U64.in_range j /\ U64.in_range k.
Proof.
  intros Hp Hs Hl. unfold tower_loong_tail.
  assert (S6 : forall st1 p1 q1,
            (if q >=? 8 * 6
             then st' <- _museair_layer_6 BFast st m p ;;
                  Some (st', p + 8 * 6, q - 8 * 6)
             else Some (st, p, q)) = Some (st1, p1, q1) ->
            0 <= p1 /\ state_in_range st1).
  { intros st1 p1 q1. destruct (q >=? 8 * 6).
    - destruct (_museair_layer_6 BFast st m p) as [st'|] eqn:E;
        [|discriminate].
      apply layer_6_some in E; [|exact Hp]. subst st'.
      cbn [bind]. intros E. apply some_triple_inj in E.
      destruct E as (<- & <- & _). split; [lia|].
      apply block_6_range; [exact Hs|apply word_at_range].
    - intros E. apply some_triple_inj in E. destruct E as (<- & <- & _).
      split; assumption. }
  destruct (if q >=? 8 * 6 then _ else _) as [[[st1 p1] q1]|];
    [|discriminate].
  destruct (S6 st1 p1 q1 eq_refl) as [Hp1 Hs1]. cbn [bind].
  assert (S3 : forall st2 p2 q2,
            (if q1 >=? 8 * 3
             then st' <- _museair_layer_3 BFast st1 m p1 ;;
                  Some (st', p1 + 8 * 3, q1 - 8 * 3)
             else Some (st1, p1, q1)) = Some (st2, p2, q2) ->
            state_in_range st2).
  { intros st2 p2 q2. destruct (q1 >=? 8 * 3).
    - destruct (_museair_layer_3 BFast st1 m p1) as [st'|] eqn:E;
        [|discriminate].
      apply layer_3_some in E; [|exact Hp1]. subst st'.
      cbn [bind]. intros E. apply some_triple_inj in E.
      destruct E as (<- & _ & _).
      apply block_3_range; [exact Hs1|apply word_at_range].
    - intros E. apply some_triple_inj in E. destruct E as (<- & _ & _).
      assumption. }
  destruct (if q1 >=? 8 * 3 then _ else _) as [[[st2 p2] q2]|];
    [|discriminate].
  pose proof (S3 st2 p2 q2 eq_refl) as Hs2. cbn [bind].
  destruct (_museair_layer_0 st2 m p2 q2 len) as [[[i0 j0] k0]|] eqn:E0;
    [|discriminate].
  apply layer_0_range in E0; [|exact Hs2]. destruct E0 as (? & ? & ?).
  cbn [bind]. intros E.
  pose proof (layer_f_range BFast len i0 j0 k0) as F.
  destruct (_museair_layer_f BFast len i0 j0 k0) as [[a b] c].
  apply some_triple_inj in E. destruct E as (<- & <- & <-).
  apply F; assumption.
Qed.

Lemma tower_loong_range (BFast : bool) (m : buffer) (len seed i j k : Z) :
  U64.in_range len -> U64.in_range seed ->
  _museair_tower_loong BFast m len seed = Some (i, j, k) ->
  U64.in_range i /\ U64.in_range j /\ U64.in_range k.
Proof.
  intros Hl Hs. unfold _museair_tower_loong.
  destruct (tower_loong_ring BFast m seed (tower_loong_state seed) 0 len)
    as [[[st p] q]|] eqn:E; [|discriminate].
  cbn [bind]. intros T.
  pose proof (ring_exit BFast m seed _ 0 len st p q
                (in_range_nonneg len Hl) E) as X.
  apply ring_range in E; try assumption; try lia.
  2:{ apply tower_loong_state_range. exact Hs. }
  apply tail_range in T; try assumption. lia.
Qed.

Lemma tower_short_range (m : buffer) (len seed i j : Z) :
  U64.in_range len -> U64.in_range seed ->
  _museair_tower_short m len seed = Some (i, j) ->
  U64.in_range i /\ U64.in_range j.
Proof.
  intros Hl Hs. unfold _museair_tower_short.
  destruct (_museair_read_short m 0 len) as [[i0 j0]|] eqn:E; [|discriminate].
  apply read_short_range in E. destruct E.
  cbn [bind]. unfold _museair_wmul.
  intros E. apply some_pair_inj in E. destruct E as [<- <-]. range.
Qed.

Lemma epi_short_range (i j : Z) :
  U64.in_range i -> U64.in_range j ->
  U64.in_range (fst (_museair_epi_short i j)) /\
  U64.in_range (snd (_museair_epi_short i j)).
Proof. intros. unfold _museair_epi_short, _museair_wmul. range. Qed.

Lemma epi_short_128_range (BFast : bool) (i j : Z) :
  U64.in_range i -> U64.in_range j ->
  U64.in_range (fst (_museair_epi_short_128 BFast i j)) /\
  U64.in_range (snd (_museair_epi_short_128 BFast i j)).
Proof.
  intros. unfold _museair_epi_short_128, _museair_wmul.
  destruct BFast; range.
Qed.

Lemma epi_loong_range (BFast : bool) (i j k : Z) :
  U64.in_range (fst (fst (_museair_epi_loong BFast i j k))).
Proof.
  unfold _museair_epi_loong, _museair_wmul. destruct BFast; range.
Qed.

Lemma epi_loong_128_range (BFast : bool) (i j k : Z) :
  U64.in_range i -> U64.in_range j -> U64.in_range k ->
  U64.in_range (fst (fst (_museair_epi_loong_128 BFast i j k))) /\
  U64.in_range (snd (fst (_museair_epi_loong_128 BFast i j k))).
Proof.
  intros. unfold _museair_epi_loong_128, _museair_wmul.
  destruct BFast; range.
Qed.

(** ** A zero factor in the ring *)

Lemma ring_pair_blind (BFast : bool) (a b w c : Z) :
  ring_pair BFast a b a w c =
    (if BFast then Z.lxor c 0 else U64.add 0 (Z.lxor c 0), Z.lxor b w, 0).
Proof.
  unfold ring_pair. rewrite Z.lxor_nilpotent, wmul_zero_l. reflexivity.
Qed.

Lemma ring_block_blind (BFast : bool) (st : state6) (w w' : Z -> Z) (c : Z) :
  w 0 = st0 st -> w' 0 = st0 st ->
  Z.lxor (w 1) (w 2) = Z.lxor (w' 1) (w' 2) ->
  (forall k, 3 <= k <= 11 -> w k = w' k) ->
  ring_block (ring_pair BFast) st w c = ring_block (ring_pair BFast) st w' c.
Proof.
  intros H0 H0' H12 Hk. destruct st as [s0 s1 s2 s3 s4 s5].
  cbn [st0] in H0, H0'. unfold ring_block.
  rewrite H0, H0', !ring_pair_blind.
  rewrite <- !(Hk 3), <- !(Hk 4), <- !(Hk 5), <- !(Hk 6), <- !(Hk 7),
    <- !(Hk 8), <- !(Hk 9), <- !(Hk 10), <- !(Hk 11) by lia.
  assert (E : ring_pair BFast (Z.lxor s1 (w 1)) s2 (w 2) (w 3) 0 =
              ring_pair BFast (Z.lxor s1 (w' 1)) s2 (w' 2) (w 3) 0).
  { unfold ring_pair. rewrite !Z.lxor_assoc, H12. reflexivity. }
  rewrite E. reflexivity.
Qed.

Lemma do_while_first (fuel : nat) (BFast : bool) (st : state6)
    (m1 m2 : buffer) (q r : Z) :
  _museair_layer_12 BFast st m1 0 r = _museair_layer_12 BFast st m2 0 r ->
  agree m1 m2 96 q ->
  tower_loong_do_while fuel BFast st m1 0 q r =
    tower_loong_do_while fuel BFast st m2 0 q r.
Proof.
  intros E A. destruct fuel as [|fuel]; [reflexivity|].
  cbn [tower_loong_do_while]. rewrite E.
  destruct (_museair_layer_12 BFast st m2 0 r) as [[st' r']|];
    [|reflexivity].
  cbn [bind]. change (0 + 8 * 12) with 96. change (8 * 12) with 96.
  rewrite Z.geb_leb. destruct (Z.leb_spec 96 (q - 96)) as [Hge|Hlt];
    [|reflexivity].
  apply do_while_agree; [lia|]. sub_agree.
Qed.

Lemma ring_tower_blind (BFast : bool) (m1 m2 : buffer) (len seed : Z) :
  96 <= len -> len <= size m1 -> len <= size m2 ->
  word_at m1 0 0 = U64.add MUSEAIR_SECRET_0 seed ->
  word_at m2 0 0 = U64.add MUSEAIR_SECRET_0 seed ->
  Z.lxor (word_at m1 0 1) (word_at m1 0 2) =
    Z.lxor (word_at m2 0 1) (word_at m2 0 2) ->
  agree m1 m2 24 len ->
  _museair_tower_loong BFast m1 len seed =
    _museair_tower_loong BFast m2 len seed.
Proof.
  intros Hlen H1 H2 W1 W2 X A. unfold _museair_tower_loong.
  destruct (ring_from_96 BFast m1 seed len) as (st1 & r1 & D1 & ->); [lia|].
  destruct (ring_from_96 BFast m2 seed len) as (st2 & r2 & D2 & ->); [lia|].
  assert (E12 : _museair_layer_12 BFast (seeded_six seed) m1 0
                  MUSEAIR_RING_PREV =
                _museair_layer_12 BFast (seeded_six seed) m2 0
                  MUSEAIR_RING_PREV).
  { rewrite !layer_12_inside by lia. f_equal.
    apply ring_block_blind; try assumption.
    intros k Hk. unfold word_at.
    assert (R : _museair_read_u64 m1 (0 + 8 * k) =
                _museair_read_u64 m2 (0 + 8 * k))
      by (apply read_u64_agree; sub_agree).
    rewrite !read_u64_inside in R by lia. congruence. }
  rewrite (do_while_first _ BFast _ m1 m2 len _ E12) in D1
    by (eapply agree_sub; [exact A|lia|lia]).
  assert (Est : st1 = st2 /\ r1 = r2) by (split; congruence).
  destruct Est as [<- <-]. cbn [bind].
  apply tail_agree; [euclid|].
  eapply agree_sub; [exact A|euclid|euclid].
Qed.

(** ** What a read returns *)

Lemma le_at_8_sum (m : buffer) (p : Z) :
  le_at 8 m p =
    byte_at m p + byte_at m (p + 1) * 2 ^ 8 + byte_at m (p + 2) * 2 ^ 16 +
    byte_at m (p + 3) * 2 ^ 24 + byte_at m (p + 4) * 2 ^ 32 +
    byte_at m (p + 5) * 2 ^ 40 + byte_at m (p + 6) * 2 ^ 48 +
    byte_at m (p + 7) * 2 ^ 56.
Proof.
  rewrite !le_at_step. cbn [le_at].
  replace (p + 1 + 1) with (p + 2) by lia.
  replace (p + 2 + 1) with (p + 3) by lia.
  replace (p + 3 + 1) with (p + 4) by lia.
  replace (p + 4 + 1) with (p + 5) by lia.
  replace (p + 5 + 1) with (p + 6) by lia.
  replace (p + 6 + 1) with (p + 7) by lia.
  lia.
Qed.

Lemma le_at_4_sum (m : buffer) (p : Z) :
  le_at 4 m p =
    byte_at m p + byte_at m (p + 1) * 2 ^ 8 + byte_at m (p + 2) * 2 ^ 16 +
    byte_at m (p + 3) * 2 ^ 24.
Proof.
  rewrite !le_at_step. cbn [le_at].
  replace (p + 1 + 1) with (p + 2) by lia.
  replace (p + 2 + 1) with (p + 3) by lia.
  lia.
Qed.

(** ** Agreement of concrete buffers *)

Lemma agree_skipn (m1 m2 : buffer) (lo hi : Z) :
  0 <= lo -> skipn (Z.to_nat lo) m1 = skipn (Z.to_nat lo) m2 ->
  agree m1 m2 lo hi.
Proof.
  intros Hlo E k Hk. unfold load.
  destruct (Z.ltb_spec k 0) as [|_]; [reflexivity|].
  replace (Z.to_nat k) with (Z.to_nat lo + Z.to_nat (k - lo))%nat by lia.
  rewrite <- !nth_error_skipn, E. reflexivity.
Qed.

Lemma agree_firstn (m1 m2 : buffer) (lo hi : Z) :
  firstn (Z.to_nat hi) m1 = firstn (Z.to_nat hi) m2 -> agree m1 m2 lo hi.
Proof.
  intros E k Hk. unfold load.
  destruct (Z.ltb_spec k 0) as [|H0]; [reflexivity|].
  assert (X : forall m : buffer, nth_error m (Z.to_nat k) =
                        nth_error (firstn (Z.to_nat hi) m) (Z.to_nat k)).
  { intros m. rewrite nth_error_firstn.
    destruct (Nat.ltb_spec (Z.to_nat k) (Z.to_nat hi)); [reflexivity|lia]. }
  rewrite (X m1), (X m2), E. reflexivity.
Qed.

(** ** Zero words in the fast final layers *)

Lemma chixx_diag (c : Z) :
  U64.in_range c -> _museair_chixx c 0 c = (0, 0, c).
Proof.
  intros Hc.
  pose proof (fun n Hn => chixx_bits c 0 c n Hn) as B.
  destruct (_museair_chixx c 0 c) as [[a b] d].
  assert (Hh : forall n, 0 <= n -> (n <? 64) = false -> Z.testbit c n = false).
  { intros n Hn E. apply range_high_bits; [exact Hc|].
    apply Z.ltb_ge in E. exact E. }
  f_equal; [f_equal|]; apply Z.bits_inj'; intros n Hn;
    destruct (B n Hn) as (Ea & Eb & Ed); rewrite ?Ea, ?Eb, ?Ed, ?Z.bits_0;
    pose proof (Hh n Hn) as H64;
    destruct (n <? 64); destruct (Z.testbit c n);
      try reflexivity; discriminate (H64 eq_refl).
Qed.

Lemma rot_of_zero (n : Z) : _museair_rotl 0 n = 0 /\ _museair_rotr 0 n = 0.
Proof.
  unfold _museair_rotl, _museair_rotr, U64.shl, U64.shr.
  rewrite !Z.shiftl_0_l, !Z.shiftr_0_l. split; reflexivity.
Qed.

Lemma layer_f_fast_zero (len c : Z) :
  U64.in_range c -> _museair_layer_f true len c 0 c = (0, 0, 0).
Proof.
  intros Hc. unfold _museair_layer_f. rewrite (chixx_diag c Hc).
  cbv zeta. cbn [negb].
  rewrite (proj1 (rot_of_zero _)), (proj2 (rot_of_zero _)).
  rewrite wmul_zero_l, wmul_zero_r. reflexivity.
Qed.

Lemma epi_loong_fast_zero :
  _museair_epi_loong true 0 0 0 = (0, 0, 0) /\
  _museair_epi_loong_128 true 0 0 0 = (0, 0, 0).
Proof. split; reflexivity. Qed.

Lemma tail_below_24 (BFast : bool) (m : buffer) (len : Z) (st : state6)
    (p q : Z) :
  q < 24 ->
  tower_loong_tail BFast m len st p q =
    ('(i, j, k) <- _museair_layer_0 st m p q len ;;
     Some (_museair_layer_f BFast len i j k)).
Proof.
  intros Hq. unfold tower_loong_tail.
  change (8 * 6) with 48. change (8 * 3) with 24.
  assert (E1 : (q >=? 48) = false) by (rewrite Z.geb_leb; apply Z.leb_gt; lia).
  assert (E2 : (q >=? 24) = false) by (rewrite Z.geb_leb; apply Z.leb_gt; lia).
  rewrite E1. cbn [bind]. rewrite E2. reflexivity.
Qed.

Lemma fast_tower_zero (m : buffer) (len seed : Z) :
  16 < len < 24 -> len <= size m ->
  word_at m 0 1 = U64.sub MUSEAIR_SECRET_1 seed ->
  Z.lxor (word_at m 0 0) (U64.add MUSEAIR_SECRET_0 seed) =
    Z.lxor (le_at 8 m (len - 8)) (Z.lxor MUSEAIR_SECRET_2 seed) ->
  U64.in_range seed ->
  _museair_tower_loong true m len seed = Some (0, 0, 0).
Proof.
  intros Hlen Hm W1 W02 Hs. unfold _museair_tower_loong.
  rewrite ring_below_96 by lia. cbn [bind].
  rewrite tail_below_24, layer_0_plain by lia.
  rewrite layer_0_words_long by lia. cbn [bind].
  unfold tower_loong_state. cbn [st0 st1 st2].
  unfold word_at in W1, W02. change (0 + 8 * 1) with (0 + 8) in W1.
  change (0 + 8 * 0) with 0 in W02.
  replace (0 + len - 8) with (len - 8) by lia.
  rewrite W1, <- W02, Z.lxor_nilpotent.
  rewrite layer_f_fast_zero; [reflexivity|].
  apply lxor_range; [apply le_at_8_range|apply add_range].
Qed.

Lemma fast_short_128_pair :
  _museair_epi_short_128 true 0 MUSEAIR_SECRET_3 =
    (snd (_museair_wmul MUSEAIR_SECRET_4 MUSEAIR_SECRET_5),
     fst (_museair_wmul MUSEAIR_SECRET_4 MUSEAIR_SECRET_5)) /\
  _museair_epi_short_128 true MUSEAIR_SECRET_2 0 =
    (snd (_museair_wmul MUSEAIR_SECRET_4 MUSEAIR_SECRET_5),
     fst (_museair_wmul MUSEAIR_SECRET_4 MUSEAIR_SECRET_5)).
Proof. split; vm_compute; reflexivity. Qed.

Lemma tower_short_pad (m : buffer) (len seed : Z) :
  _museair_tower_short m len seed =
    ('(i, j) <- _museair_read_short m 0 len ;;
     Some (Z.lxor i (fst (short_pad len seed)),
           Z.lxor j (snd (short_pad len seed)))).
Proof.
  unfold _museair_tower_short, short_pad.
  destruct (_museair_read_short m 0 len) as [[i j]|]; [|reflexivity].
  cbn [bind].
  destruct (_museair_wmul _ _) as [lo hi]. reflexivity.
Qed.

(** * Further properties *)

(** ** Primitives *)

(** X1: the wide multiplication of two 64-bit words is exact: the two
    halves are 64-bit words, [lo + 2^64 * hi] is the product in the
    integers, and the order of the factors does not matter. *)
Theorem wmul_exact_product (a b : Z) :
  U64.in_range a -> U64.in_range b ->
  let '(lo, hi) := _museair_wmul a b in
  lo + 2 ^ 64 * hi = a * b /\ U64.in_range lo /\ U64.in_range hi /\
  _museair_wmul b a = (lo, hi).
Proof.
  intros Ha Hb. pose proof (wmul_exact a b Ha Hb) as E.
  unfold _museair_wmul in *. cbv beta iota zeta in *.
  rewrite (Z.mul_comm b a). destruct E as (E & Hlo & Hhi).
  split; [exact E|]. split; [exact Hlo|]. split; [exact Hhi|reflexivity].
Qed.

Lemma wmul_exact_product_witness :
  _museair_wmul (2 ^ 63) 6 = (0, 3) /\ 0 + 2 ^ 64 * 3 = 2 ^ 63 * 6.
Proof.
  assert (Ha : U64.in_range (2 ^ 63))
    by (unfold U64.in_range, U64.modulus; lia).
  assert (Hb : U64.in_range 6) by (unfold U64.in_range, U64.modulus; lia).
  pose proof (wmul_exact_product (2 ^ 63) 6 Ha Hb) as E.
  change (_museair_wmul (2 ^ 63) 6) with (0, 3) in E.
  destruct E as (E & _). split; [reflexivity|exact E].
Defined.

(** X2: on 64-bit words and for any count masked with 63, the two
    rotations undo each other and stay 64-bit words; the count 0, for which
    the second shift is by [(-0) & 63 = 0] and not by 64, leaves the word
    as it is. *)
Theorem rotations_inverse (v n : Z) :
  U64.in_range v ->
  _museair_rotr (_museair_rotl v (Z.land n 63)) (Z.land n 63) = v /\
  _museair_rotl (_museair_rotr v (Z.land n 63)) (Z.land n 63) = v /\
  U64.in_range (_museair_rotl v (Z.land n 63)) /\
  U64.in_range (_museair_rotr v (Z.land n 63)) /\
  _museair_rotl v 0 = v /\ _museair_rotr v 0 = v.
Proof.
  intros Hv. split; [apply rotr_rotl; exact Hv|].
  split; [apply rotl_rotr; exact Hv|].
  split; [apply rotl_range; exact Hv|].
  split; [apply rotr_range; exact Hv|].
  apply rot_zero. exact Hv.
Qed.

Lemma rotations_inverse_witness :
  _museair_rotl 0x8000000000000001 (Z.land 65 63) = 3 /\
  _museair_rotr 3 (Z.land 65 63) = 0x8000000000000001.
Proof.
  assert (Hv : U64.in_range 0x8000000000000001)
    by (unfold U64.in_range, U64.modulus; lia).
  destruct (rotations_inverse 0x8000000000000001 65 Hv) as (E & _).
  split; [reflexivity|exact E].
Defined.

(** X3: ChiMix maps triples of 64-bit words to triples of 64-bit
    words, and no two triples to the same one. *)
Theorem chixx_permutes_words (t u v : Z) :
  U64.in_range t -> U64.in_range u -> U64.in_range v ->
  (let '(t', u', v') := _museair_chixx t u v in
   U64.in_range t' /\ U64.in_range u' /\ U64.in_range v') /\
  (forall t2 u2 v2,
     _museair_chixx t u v = _museair_chixx t2 u2 v2 ->
     (t, u, v) = (t2, u2, v2)).
Proof.
  intros Ht Hu Hv. split; [apply chixx_range; assumption|].
  intros t2 u2 v2 E.
  pose proof (chixx_twice t u v) as A. pose proof (chixx_twice t2 u2 v2) as B.
  rewrite E in A. destruct (_museair_chixx t2 u2 v2) as [[a b] c].
  congruence.
Qed.

Lemma chixx_permutes_words_witness :
  _museair_chixx 1 2 3 = (0, 2, 1) /\
  (forall t2 u2 v2,
     _museair_chixx 1 2 3 = _museair_chixx t2 u2 v2 ->
     (1, 2, 3) = (t2, u2, v2)).
Proof.
  assert (R : forall x, 0 <= x < 4 -> U64.in_range x)
    by (unfold U64.in_range, U64.modulus; lia).
  destruct (chixx_permutes_words 1 2 3) as [_ I]; try (apply R; lia).
  split; [reflexivity|exact I].
Defined.

(** X4: a zero factor in the pair updates.  When the first input word
    of [_museair_frac_6] equals the first state word, the fast variant
    leaves [(0, 0)] whatever the second state and input words are, while the
    full variant keeps their XOR; when the input word of [_museair_frac_3]
    equals the second state word, the fast variant leaves [(0, 0)] and the
    full variant keeps the first state word. *)
Theorem frac_zero_factor (a b w : Z) :
  _museair_frac_6 true a b a w = (0, 0) /\
  _museair_frac_6 false a b a w = (0, Z.lxor b w) /\
  _museair_frac_3 true a b b = (0, 0) /\
  _museair_frac_3 false a b b = (a, 0).
Proof.
  split; [apply frac_6_fast_blind|]. split; [apply frac_6_full_keeps|].
  unfold _museair_frac_3. cbn [negb].
  rewrite Z.lxor_nilpotent, wmul_zero_r, Z.lxor_0_r. split; reflexivity.
Qed.

(** ** Reads *)

(** X5: a read of 8 (of 4) bytes returns a value exactly when the
    bytes lie in the buffer, and the value is the sum of the bytes weighted
    by the powers of 256, the first byte the least significant. *)
Theorem read_value (m : buffer) (p v : Z) :
  (_museair_read_u64 m p = Some v <->
   0 <= p /\ p + 8 <= size m /\
   v = byte_at m p + byte_at m (p + 1) * 2 ^ 8 +
       byte_at m (p + 2) * 2 ^ 16 + byte_at m (p + 3) * 2 ^ 24 +
       byte_at m (p + 4) * 2 ^ 32 + byte_at m (p + 5) * 2 ^ 40 +
       byte_at m (p + 6) * 2 ^ 48 + byte_at m (p + 7) * 2 ^ 56) /\
  (_museair_read_u32 m p = Some v <->
   0 <= p /\ p + 4 <= size m /\
   v = byte_at m p + byte_at m (p + 1) * 2 ^ 8 +
       byte_at m (p + 2) * 2 ^ 16 + byte_at m (p + 3) * 2 ^ 24).
Proof.
  split; split.
  - intros E. apply read_u64_some in E. destruct E as (H0 & H1 & ->).
    rewrite le_at_8_sum. auto.
  - intros (H0 & H1 & ->). rewrite read_u64_inside by lia.
    rewrite le_at_8_sum. reflexivity.
  - intros E.
    destruct (Z_lt_le_dec p 0) as [Hn|Hp];
      [rewrite read_u32_outside in E by lia; discriminate E|].
    destruct (Z_lt_le_dec (size m) (p + 4)) as [Ho|Hi];
      [rewrite read_u32_outside in E by lia; discriminate E|].
    rewrite read_u32_inside, le_at_4_sum in E by lia.
    split; [lia|]. split; [lia|congruence].
  - intros (H0 & H1 & ->). rewrite read_u32_inside by lia.
    rewrite le_at_4_sum. reflexivity.
Qed.

Lemma bswap_32_twice (v : Z) :
  0 <= v < 2 ^ 32 -> _museair_bswap_32 (_museair_bswap_32 v) = v.
Proof.
  intros Hv. apply Z.bits_inj'; intros i Hi.
  rewrite bswap_32_bits by exact Hi.
  destruct (Z.ltb_spec i 32) as [Hlt|Hge].
  - cbn [andb]. rewrite bswap_32_bits by euclid.
    destruct (Z.ltb_spec (24 - 8 * (i / 8) + i mod 8) 32); [|euclid].
    cbn [andb]. f_equal. euclid.
  - rewrite <- (Z.mod_small v (2 ^ 32)) by exact Hv.
    rewrite Z.mod_pow2_bits_high by lia. reflexivity.
Qed.

(** X6: swapping the bytes twice gives the word back, for 64-bit and
    for 32-bit words, and the 64-bit swap of anything is a 64-bit word. *)
Theorem bswap_twice (v : Z) :
  (U64.in_range v -> _museair_bswap_64 (_museair_bswap_64 v) = v) /\
  (0 <= v < 2 ^ 32 -> _museair_bswap_32 (_museair_bswap_32 v) = v) /\
  U64.in_range (_museair_bswap_64 v).
Proof.
  split; [apply bswap_64_twice|]. split; [apply bswap_32_twice|].
  apply bswap_64_range.
Qed.

Lemma bswap_twice_witness :
  _museair_bswap_64 0x0102030405060708 = 0x0807060504030201 /\
  _museair_bswap_64 0x0807060504030201 = 0x0102030405060708 /\
  _museair_bswap_32 0x01020304 = 0x04030201 /\
  _museair_bswap_32 0x04030201 = 0x01020304.
Proof.
  destruct (bswap_twice 0x0102030405060708) as (A & _ & _).
  destruct (bswap_twice 0x01020304) as (_ & B & _).
  split; [reflexivity|]. split.
  - apply A. unfold U64.in_range, U64.modulus. lia.
  - split; [reflexivity|]. apply B. lia.
Defined.

(** X7: a build for a big-endian host reads the same values: the
    swap of the big-endian value of the bytes is their little-endian value,
    and the two reads fail together. *)
Theorem read_same_on_big_endian (m : buffer) (p : Z) :
  _museair_read_u64_bswap m p = _museair_read_u64 m p /\
  _museair_read_u32_bswap m p = _museair_read_u32 m p /\
  _museair_bswap_64 (be_at 8 m p) = le_at 8 m p /\
  _museair_bswap_32 (be_at 4 m p) = le_at 4 m p.
Proof.
  destruct (read_bswap_same m p) as [A B].
  split; [exact A|]. split; [exact B|].
  split; [apply bswap_64_be_at|apply bswap_32_be_at].
Qed.

(** ** The short packing and the tail words lose nothing *)

(** X8: the short packing loses no byte: two buffers that hold [len]
    bytes, [len] at most 16, and pack to the same two words hold the same
    [len] bytes. *)
Theorem read_short_injective (m1 m2 : buffer) (p1 p2 len : Z) :
  0 <= p1 -> 0 <= p2 -> 0 <= len <= 16 ->
  p1 + len <= size m1 -> p2 + len <= size m2 ->
  _museair_read_short m1 p1 len = _museair_read_short m2 p2 len ->
  forall k, 0 <= k < len -> byte_at m1 (p1 + k) = byte_at m2 (p2 + k).
Proof. apply read_short_injective_at. Qed.

Lemma read_short_injective_witness :
  byte_at (iota_key 16) (0 + 4) = byte_at (iota_key 5 ++ [Byte.xff]) (0 + 4).
Proof.
  apply (read_short_injective (iota_key 16) (iota_key 5 ++ [Byte.xff]) 0 0 5);
    try lia.
  - rewrite iota_key_size. lia.
  - vm_compute. discriminate.
  - reflexivity.
Defined.

(** X9: the words that the tail fold reads lose no byte: two buffers
    that hold [q] bytes, [q] below 24, and give the same three words hold
    the same [q] bytes. *)
Theorem tail_words_injective (m1 m2 : buffer) (p1 p2 q : Z) :
  0 <= p1 -> 0 <= p2 -> 0 <= q < 24 ->
  p1 + q <= size m1 -> p2 + q <= size m2 ->
  layer_0_words m1 p1 q = layer_0_words m2 p2 q ->
  forall k, 0 <= k < q -> byte_at m1 (p1 + k) = byte_at m2 (p2 + k).
Proof.
  intros Hp1 Hp2 Hq H1 H2 E k Hk.
  destruct (Z_le_gt_dec q 16) as [Hle|Hgt].
  - apply (read_short_injective_at m1 m2 p1 p2 q); try lia.
    revert E. unfold layer_0_words. change (8 * 2) with 16.
    destruct (Z.leb_spec q 16) as [_|]; [|lia].
    destruct (read_short_inside m1 p1 q) as (i1 & j1 & ->); try lia.
    destruct (read_short_inside m2 p2 q) as (i2 & j2 & ->); try lia.
    cbn [bind]. intros E. injection E as -> ->. reflexivity.
  - rewrite !layer_0_words_long in E by lia.
    apply some_triple_inj in E. destruct E as (Ei & Ej & Ek).
    destruct (Z_lt_le_dec k 8) as [Hk8|Hk8].
    + apply (le_at_inj 8 m1 m2 p1 p2 Ei k). lia.
    + destruct (Z_lt_le_dec k 16) as [Hk16|Hk16].
      * replace (p1 + k) with (p1 + 8 + (k - 8)) by lia.
        replace (p2 + k) with (p2 + 8 + (k - 8)) by lia.
        apply (le_at_inj 8 m1 m2 _ _ Ej). lia.
      * replace (p1 + k) with (p1 + q - 8 + (k - (q - 8))) by lia.
        replace (p2 + k) with (p2 + q - 8 + (k - (q - 8))) by lia.
        apply (le_at_inj 8 m1 m2 _ _ Ek). lia.
Qed.

Lemma tail_words_injective_witness :
  byte_at (iota_key 24) (0 + 18) =
    byte_at (iota_key 19 ++ [Byte.xff]) (0 + 18).
Proof.
  apply (tail_words_injective (iota_key 24) (iota_key 19 ++ [Byte.xff])
           0 0 19); try lia.
  - rewrite iota_key_size. lia.
  - vm_compute. discriminate.
  - reflexivity.
Defined.

(** X10: before its epilogue the short path tells all inputs of one
    length and one seed apart: equal results of [_museair_tower_short] on
    [len] bytes, [len] at most 16, mean equal bytes. *)
Theorem tower_short_injective (m1 m2 : buffer) (len seed : Z) :
  0 <= len <= 16 -> len <= size m1 -> len <= size m2 ->
  _museair_tower_short m1 len seed = _museair_tower_short m2 len seed ->
  forall k, 0 <= k < len -> byte_at m1 k = byte_at m2 k.
Proof.
  intros Hlen H1 H2 E k Hk.
  pose proof (read_short_injective_at m1 m2 0 0 len) as R.
  rewrite !Z.add_0_l in R. specialize (R ltac:(lia) ltac:(lia) Hlen H1 H2).
  rewrite <- (Z.add_0_l k). apply R; [|exact Hk].
  revert E. unfold _museair_tower_short.
  destruct (read_short_inside m1 0 len) as (i1 & j1 & ->); try lia.
  destruct (read_short_inside m2 0 len) as (i2 & j2 & ->); try lia.
  cbn [bind]. destruct (_museair_wmul _ _) as [lo hi].
  intros E. apply some_pair_inj in E. destruct E as [Ei Ej].
  apply lxor_cancel_r in Ei. apply lxor_cancel_r in Ej. congruence.
Qed.

Lemma tower_short_injective_witness :
  byte_at (iota_key 16) 15 = byte_at (iota_key 16 ++ [Byte.xff]) 15.
Proof.
  apply (tower_short_injective (iota_key 16) (iota_key 16 ++ [Byte.xff])
           16 7); try lia.
  - rewrite iota_key_size. lia.
  - vm_compute. discriminate.
  - reflexivity.
Defined.

(** ** Blocks *)

(** X11: the 6-word block reads 48 bytes and the 3-word block 24: inside
    the buffer they update the pairs (0,1), (2,3), (4,5), respectively
    (0,3), (1,4), (2,5), each pair from its own words only; when the bytes
    do not all lie in the buffer they fail, and so does the 12-word block
    short of 96 bytes. *)
Theorem block_reads (BFast : bool) (st : state6) (m : buffer) (p r : Z) :
  0 <= p ->
  (p + 48 <= size m ->
     _museair_layer_6 BFast st m p = Some (block_6 BFast st (word_at m p))) /\
  (size m < p + 48 -> _museair_layer_6 BFast st m p = None) /\
  (p + 24 <= size m ->
     _museair_layer_3 BFast st m p = Some (block_3 BFast st (word_at m p))) /\
  (size m < p + 24 -> _museair_layer_3 BFast st m p = None) /\
  (size m < p + 96 -> _museair_layer_12 BFast st m p r = None).
Proof.
  intros Hp.
  split; [intros; apply layer_6_block; assumption|].
  split; [intros; apply layer_6_outside; assumption|].
  split; [intros; apply layer_3_block; assumption|].
  split; [intros; apply layer_3_outside; assumption|].
  intros; apply layer_12_outside; assumption.
Qed.

Lemma block_reads_witness :
  _museair_layer_6 true (tower_loong_state 1) (iota_key 48) 0 =
    Some (block_6 true (tower_loong_state 1) (word_at (iota_key 48) 0)) /\
  _museair_layer_6 true (tower_loong_state 1) (iota_key 47) 0 = None /\
  _museair_layer_3 false (tower_loong_state 1) (iota_key 24) 0 =
    Some (block_3 false (tower_loong_state 1) (word_at (iota_key 24) 0)) /\
  _museair_layer_3 false (tower_loong_state 1) (iota_key 23) 0 = None /\
  _museair_layer_12 false (tower_loong_state 1) (iota_key 95) 0
      MUSEAIR_RING_PREV = None.
Proof.
  pose proof (block_reads true (tower_loong_state 1) (iota_key 48) 0 0
                ltac:(lia)) as (A & _).
  pose proof (block_reads true (tower_loong_state 1) (iota_key 47) 0 0
                ltac:(lia)) as (_ & B & _).
  pose proof (block_reads false (tower_loong_state 1) (iota_key 24) 0 0
                ltac:(lia)) as (_ & _ & C & _).
  pose proof (block_reads false (tower_loong_state 1) (iota_key 23) 0 0
                ltac:(lia)) as (_ & _ & _ & D & _).
  pose proof (block_reads false (tower_loong_state 1) (iota_key 95) 0
                MUSEAIR_RING_PREV ltac:(lia)) as (_ & _ & _ & _ & E).
  rewrite iota_key_size in *.
  split; [apply A; lia|]. split; [apply B; lia|].
  split; [apply C; lia|]. split; [apply D; lia|apply E; lia].
Defined.

(** X12: a zero factor in the 12-word block, in both variants: when the
    first word of the block equals state word 0, the second and third words
    count only through their XOR. *)
Theorem layer_12_zero_factor (BFast : bool) (st : state6) (m1 m2 : buffer)
    (p r : Z) :
  0 <= p -> p + 96 <= size m1 -> p + 96 <= size m2 ->
  word_at m1 p 0 = st0 st -> word_at m2 p 0 = st0 st ->
  Z.lxor (word_at m1 p 1) (word_at m1 p 2) =
    Z.lxor (word_at m2 p 1) (word_at m2 p 2) ->
  agree m1 m2 (p + 24) (p + 96) ->
  _museair_layer_12 BFast st m1 p r = _museair_layer_12 BFast st m2 p r.
Proof.
  intros Hp H1 H2 W1 W2 X A.
  rewrite !layer_12_inside by assumption. f_equal.
  apply ring_block_blind; try assumption.
  intros k Hk. unfold word_at.
  assert (R : _museair_read_u64 m1 (p + 8 * k) =
              _museair_read_u64 m2 (p + 8 * k))
    by (apply read_u64_agree; sub_agree).
  rewrite !read_u64_inside in R by lia. congruence.
Qed.

Lemma layer_12_zero_factor_witness :
  words_key [5; 0x11; 0x22] 72 <> words_key [5; 0x10; 0x23] 72 /\
  _museair_layer_12 false (State6 5 1 2 3 4 5)
      (words_key [5; 0x11; 0x22] 72) 0 MUSEAIR_RING_PREV =
    _museair_layer_12 false (State6 5 1 2 3 4 5)
      (words_key [5; 0x10; 0x23] 72) 0 MUSEAIR_RING_PREV.
Proof.
  split; [intros E; vm_compute in E; discriminate E|].
  apply layer_12_zero_factor; try reflexivity; try lia;
    try (vm_compute; discriminate).
  apply agree_skipn; [lia|reflexivity].
Defined.

(** ** The block compressor as a whole *)

(** X13: whatever the length, the blocks of the long tower take the
    first [24 * (len / 24)] bytes and the tail fold works on the
    [len mod 24] bytes that are left: one state enters the tail fold for all
    the buffers that start with these first bytes. *)
Theorem tail_fold_position (BFast : bool) (m : buffer) (len seed : Z) :
  0 <= len <= size m ->
  exists st',
    forall m2, len <= size m2 -> agree m m2 0 (24 * (len / 24)) ->
      _museair_tower_loong BFast m2 len seed =
        ('(i, j, k) <-
           _museair_layer_0 st' m2 (24 * (len / 24)) (len mod 24) len ;;
         Some (_museair_layer_f BFast len i j k)).
Proof.
  intros [H0 Hm].
  destruct (Z_lt_le_dec len 96) as [Hlt|Hge].
  - destruct (tail_schedule_blocks BFast m len (tower_loong_state seed) 0 len)
      as [st' E]; try lia.
    exists st'. intros m2 Hm2 A. unfold _museair_tower_loong.
    rewrite ring_below_96 by exact Hlt. cbn [bind].
    rewrite E, Z.add_0_l by (try rewrite Z.add_0_l; assumption).
    reflexivity.
  - destruct (ring_from_96 BFast m seed len) as (st & r & _ & E); [lia|].
    destruct (tail_schedule_blocks BFast m len (ring_fold st r)
                (96 * (len / 96)) (len mod 96)) as [st' E']; try euclid.
    exists st'. intros m2 Hm2 A. unfold _museair_tower_loong.
    rewrite <- (ring_agree_blocks BFast m m2)
      by (eapply agree_sub; [exact A|lia|euclid]).
    rewrite E. cbn [bind].
    rewrite E'; [| euclid | eapply agree_sub; [exact A|euclid|euclid]].
    replace (96 * (len / 96) + 24 * (len mod 96 / 24))
      with (24 * (len / 24)) by euclid.
    replace (len mod 96 mod 24) with (len mod 24) by euclid.
    reflexivity.
Qed.

Lemma tail_fold_position_witness :
  exists st',
    forall m2, 200 <= size m2 -> agree (iota_key 200) m2 0 192 ->
      _museair_tower_loong false m2 200 1 =
        ('(i, j, k) <- _museair_layer_0 st' m2 192 8 200 ;;
         Some (_museair_layer_f false 200 i j k)).
Proof.
  apply (tail_fold_position false (iota_key 200) 200 1).
  rewrite iota_key_size. lia.
Defined.

(** ** The digest *)

(** X14: the digest depends on the first [len] bytes only: buffers that
    agree there, whatever comes after, hash alike through each of the four
    entry points. *)
Theorem digest_reads_only_len (m1 m2 : buffer) (len seed : Z) :
  agree m1 m2 0 len ->
  museair_hash m1 len seed = museair_hash m2 len seed /\
  museair_hash_128 m1 len seed = museair_hash_128 m2 len seed /\
  museair_bfast_hash m1 len seed = museair_bfast_hash m2 len seed /\
  museair_bfast_hash_128 m1 len seed = museair_bfast_hash_128 m2 len seed.
Proof.
  intros A.
  destruct (hash_agree false m1 m2 len seed A) as [E1 E2].
  destruct (hash_agree true m1 m2 len seed A) as [E3 E4].
  unfold museair_hash, museair_hash_128, museair_bfast_hash,
    museair_bfast_hash_128. auto.
Qed.

Lemma digest_reads_only_len_witness :
  museair_hash (iota_key 17 ++ [Byte.x00]) 17 1 =
    museair_hash (iota_key 17 ++ [Byte.xff; Byte.xfe]) 17 1.
Proof.
  apply (digest_reads_only_len (iota_key 17 ++ [Byte.x00])
           (iota_key 17 ++ [Byte.xff; Byte.xfe]) 17 1).
  apply agree_app. rewrite iota_key_size. lia.
Defined.

(** X15: for a length that is not negative, the hash stays inside the
    buffer exactly when the buffer holds [len] bytes; on a shorter buffer it
    reads past the end. *)
Theorem digest_defined_iff (BFast : bool) (m : buffer) (len seed : Z) :
  0 <= len ->
  ((exists d, _museair_hash BFast m len seed = Some d) <-> len <= size m) /\
  ((exists d, _museair_hash_128 BFast m len seed = Some d) <->
   len <= size m) /\
  (size m < len ->
     _museair_hash BFast m len seed = None /\
     _museair_hash_128 BFast m len seed = None).
Proof.
  intros H0.
  assert (O : size m < len ->
              _museair_hash BFast m len seed = None /\
              _museair_hash_128 BFast m len seed = None)
    by (intros H; apply hash_outside; assumption).
  split; [|split; [|exact O]].
  - split.
    + intros [d E]. destruct (Z_le_gt_dec len (size m)) as [H|H]; [exact H|].
      destruct O as [O _]; [lia|]. congruence.
    + intros H. apply (hash_inside BFast m len seed). lia.
  - split.
    + intros [d E]. destruct (Z_le_gt_dec len (size m)) as [H|H]; [exact H|].
      destruct O as [_ O]; [lia|]. congruence.
    + intros H. apply (hash_inside BFast m len seed). lia.
Qed.

Lemma digest_defined_iff_witness :
  (exists d, _museair_hash false (iota_key 20) 20 1 = Some d) /\
  _museair_hash false (iota_key 20) 21 1 = None.
Proof.
  split.
  - apply (proj1 (digest_defined_iff false (iota_key 20) 20 1 ltac:(lia))).
    rewrite iota_key_size. lia.
  - apply (proj2 (proj2 (digest_defined_iff false (iota_key 20) 21 1
                           ltac:(lia)))).
    rewrite iota_key_size. lia.
Defined.

(** X16: with a 64-bit length and a 64-bit seed every digest word is a
    64-bit word. *)
Theorem digest_is_64_bit (BFast : bool) (m : buffer) (len seed : Z) :
  U64.in_range len -> U64.in_range seed ->
  (forall d, _museair_hash BFast m len seed = Some d -> U64.in_range d) /\
  (forall lo hi,
     _museair_hash_128 BFast m len seed = Some (lo, hi) ->
     U64.in_range lo /\ U64.in_range hi).
Proof.
  intros Hl Hs.
  destruct (Z_le_gt_dec len 16) as [Hle|Hgt].
  - destruct (hash_short_path BFast m len seed Hle) as [-> ->].
    unfold short_path, short_path_128.
    destruct (_museair_tower_short m len seed) as [[i j]|] eqn:E.
    2:{ split; intros; discriminate. }
    apply tower_short_range in E; try assumption. destruct E as [Hi Hj].
    cbn [bind]. split.
    + intros d E. assert (X : fst (_museair_epi_short i j) = d) by congruence.
      rewrite <- X. apply epi_short_range; assumption.
    + intros lo hi E.
      pose proof (epi_short_128_range BFast i j Hi Hj) as R.
      destruct (_museair_epi_short_128 BFast i j).
      apply some_pair_inj in E. destruct E as [<- <-]. exact R.
  - destruct (hash_loong_path BFast m len seed) as [-> ->]; [lia|].
    unfold loong_path, loong_path_128.
    destruct (_museair_tower_loong BFast m len seed) as [[[i j] k]|] eqn:E.
    2:{ split; intros; discriminate. }
    apply tower_loong_range in E; try assumption.
    destruct E as (Hi & Hj & Hk). cbn [bind]. split.
    + intros d E.
      assert (X : fst (fst (_museair_epi_loong BFast i j k)) = d)
        by congruence.
      rewrite <- X. apply epi_loong_range.
    + intros lo hi E.
      pose proof (epi_loong_128_range BFast i j k Hi Hj Hk) as R.
      destruct (_museair_epi_loong_128 BFast i j k) as [[a b] c].
      apply some_pair_inj in E. destruct E as [<- <-]. exact R.
Qed.

Lemma digest_is_64_bit_witness :
  exists d, _museair_hash true (iota_key 100) 100 1 = Some d /\
            U64.in_range d.
Proof.
  assert (R : forall x, 0 <= x <= 100 -> U64.in_range x)
    by (unfold U64.in_range, U64.modulus; lia).
  destruct (hash_inside true (iota_key 100) 100 1) as [[d E] _].
  { rewrite iota_key_size. lia. }
  exists d. split; [exact E|].
  apply (proj1 (digest_is_64_bit true (iota_key 100) 100 1
                  (R 100 ltac:(lia)) (R 1 ltac:(lia)))).
  exact E.
Defined.

(** X17: up to 16 bytes the 64-bit digest of the fast variant is that
    of the standard one. *)
Theorem short_digest_same_in_both_variants (m : buffer) (len seed : Z) :
  len <= 16 -> museair_hash m len seed = museair_bfast_hash m len seed.
Proof.
  intros H. unfold museair_hash, museair_bfast_hash.
  destruct (hash_short_path false m len seed H) as [-> _].
  destruct (hash_short_path true m len seed H) as [-> _]. reflexivity.
Qed.

Lemma short_digest_same_in_both_variants_witness :
  museair_hash (iota_key 16) 16 1 = museair_bfast_hash (iota_key 16) 16 1 /\
  museair_hash (iota_key 17) 17 1 <> museair_bfast_hash (iota_key 17) 17 1.
Proof.
  split.
  - apply short_digest_same_in_both_variants. lia.
  - vm_compute. discriminate.
Defined.

(** ** Inputs that the hash cannot tell apart *)

(** X18: the fast variant, on 48 to 95 bytes: when the first 8 bytes are
    the little-endian bytes of [MUSEAIR_SECRET[0] + seed], the bytes 8 to 15
    do not count; inputs that differ there only have the same digest. *)
Theorem bfast_ignores_second_word (m1 m2 : buffer) (len seed : Z) :
  48 <= len < 96 -> len <= size m1 -> len <= size m2 ->
  word_at m1 0 0 = U64.add MUSEAIR_SECRET_0 seed ->
  agree m1 m2 0 8 -> agree m1 m2 16 len ->
  museair_bfast_hash m1 len seed = museair_bfast_hash m2 len seed /\
  museair_bfast_hash_128 m1 len seed = museair_bfast_hash_128 m2 len seed.
Proof.
  intros Hlen H1 H2 W A0 A1.
  assert (T : _museair_tower_loong true m1 len seed =
              _museair_tower_loong true m2 len seed).
  { apply bfast_tower_blind; try assumption.
    rewrite read_u64_inside by lia. f_equal. exact W. }
  unfold museair_bfast_hash, museair_bfast_hash_128.
  destruct (hash_loong_path true m1 len seed) as [-> ->]; [lia|].
  destruct (hash_loong_path true m2 len seed) as [-> ->]; [lia|].
  unfold loong_path, loong_path_128. rewrite T. split; reflexivity.
Qed.

Lemma bfast_ignores_second_word_witness :
  words_key [U64.add MUSEAIR_SECRET_0 1; 5] 40 <>
    words_key [U64.add MUSEAIR_SECRET_0 1; 6] 40 /\
  museair_bfast_hash (words_key [U64.add MUSEAIR_SECRET_0 1; 5] 40) 50 1 =
    museair_bfast_hash (words_key [U64.add MUSEAIR_SECRET_0 1; 6] 40) 50 1 /\
  museair_hash (words_key [U64.add MUSEAIR_SECRET_0 1; 5] 40) 50 1 <>
    museair_hash (words_key [U64.add MUSEAIR_SECRET_0 1; 6] 40) 50 1.
Proof.
  split; [intros E; vm_compute in E; discriminate E|]. split.
  - apply (bfast_ignores_second_word
             (words_key [U64.add MUSEAIR_SECRET_0 1; 5] 40)
             (words_key [U64.add MUSEAIR_SECRET_0 1; 6] 40) 50 1);
      try lia; try reflexivity; try (vm_compute; discriminate).
    + apply agree_firstn. reflexivity.
    + apply agree_skipn; [lia|reflexivity].
  - vm_compute. discriminate.
Defined.

(** X19: both variants, from 96 bytes on: when the first 8 bytes are the
    little-endian bytes of [MUSEAIR_SECRET[0] + seed], the second and third
    words count only through their XOR; flipping the same bits in both gives
    the same digest, through each of the four entry points. *)
Theorem ring_ignores_common_flips (m1 m2 : buffer) (len seed : Z) :
  96 <= len -> len <= size m1 -> len <= size m2 ->
  word_at m1 0 0 = U64.add MUSEAIR_SECRET_0 seed ->
  word_at m2 0 0 = U64.add MUSEAIR_SECRET_0 seed ->
  Z.lxor (word_at m1 0 1) (word_at m1 0 2) =
    Z.lxor (word_at m2 0 1) (word_at m2 0 2) ->
  agree m1 m2 24 len ->
  museair_hash m1 len seed = museair_hash m2 len seed /\
  museair_hash_128 m1 len seed = museair_hash_128 m2 len seed /\
  museair_bfast_hash m1 len seed = museair_bfast_hash m2 len seed /\
  museair_bfast_hash_128 m1 len seed = museair_bfast_hash_128 m2 len seed.
Proof.
  intros Hlen H1 H2 W1 W2 X A.
  pose proof (ring_tower_blind false m1 m2 len seed Hlen H1 H2 W1 W2 X A)
    as T.
  pose proof (ring_tower_blind true m1 m2 len seed Hlen H1 H2 W1 W2 X A)
    as T'.
  unfold museair_hash, museair_hash_128, museair_bfast_hash,
    museair_bfast_hash_128.
  destruct (hash_loong_path false m1 len seed) as [-> ->]; [lia|].
  destruct (hash_loong_path false m2 len seed) as [-> ->]; [lia|].
  destruct (hash_loong_path true m1 len seed) as [-> ->]; [lia|].
  destruct (hash_loong_path true m2 len seed) as [-> ->]; [lia|].
  unfold loong_path, loong_path_128. rewrite T, T'.
  repeat split; reflexivity.
Qed.

Lemma ring_ignores_common_flips_witness :
  words_key [U64.add MUSEAIR_SECRET_0 1; 0x11; 0x22] 80 <>
    words_key [U64.add MUSEAIR_SECRET_0 1; 0x10; 0x23] 80 /\
  museair_hash (words_key [U64.add MUSEAIR_SECRET_0 1; 0x11; 0x22] 80) 100 1 =
    museair_hash (words_key [U64.add MUSEAIR_SECRET_0 1; 0x10; 0x23] 80)
      100 1.
Proof.
  split; [intros E; vm_compute in E; discriminate E|].
  apply (ring_ignores_common_flips
           (words_key [U64.add MUSEAIR_SECRET_0 1; 0x11; 0x22] 80)
           (words_key [U64.add MUSEAIR_SECRET_0 1; 0x10; 0x23] 80) 100 1);
    try lia; try reflexivity; try (vm_compute; discriminate).
  apply agree_skipn; [lia|reflexivity].
Defined.

(** X20: the fast variant, on 17 to 23 bytes: when the second word is
    state word 1, [MUSEAIR_SECRET[1] - seed], and the first and the last
    word differ from state words 0 and 2 by one and the same value, the
    final layer multiplies by zero and the digest is 0, in 64 and in 128
    bits. *)
Theorem bfast_zero_digest (m : buffer) (len seed : Z) :
  16 < len < 24 -> len <= size m -> U64.in_range seed ->
  word_at m 0 1 = U64.sub MUSEAIR_SECRET_1 seed ->
  Z.lxor (word_at m 0 0) (U64.add MUSEAIR_SECRET_0 seed) =
    Z.lxor (le_at 8 m (len - 8)) (Z.lxor MUSEAIR_SECRET_2 seed) ->
  museair_bfast_hash m len seed = Some 0 /\
  museair_bfast_hash_128 m len seed = Some (0, 0).
Proof.
  intros Hlen Hm Hs W1 W02.
  unfold museair_bfast_hash, museair_bfast_hash_128.
  destruct (hash_loong_path true m len seed) as [-> ->]; [lia|].
  unfold loong_path, loong_path_128.
  rewrite fast_tower_zero by assumption. split; reflexivity.
Qed.

Lemma bfast_zero_digest_witness :
  zero_key 1 5 <> zero_key 1 6 /\
  museair_bfast_hash (zero_key 1 5) 23 1 = Some 0 /\
  museair_bfast_hash (zero_key 1 6) 23 1 = Some 0 /\
  museair_hash (zero_key 1 5) 23 1 <> museair_hash (zero_key 1 6) 23 1.
Proof.
  assert (R : U64.in_range 1) by (unfold U64.in_range, U64.modulus; lia).
  split; [intros E; vm_compute in E; discriminate E|].
  split; [|split].
  - apply (bfast_zero_digest (zero_key 1 5) 23 1); try lia; try exact R;
      try reflexivity.
  - apply (bfast_zero_digest (zero_key 1 6) 23 1); try lia; try exact R;
      try reflexivity.
  - vm_compute. discriminate.
Defined.

(** X21: the fast 128-bit variant, up to 16 bytes: an input whose
    packed words, after the pad of the short tower, are
    [(0, MUSEAIR_SECRET[3])] and one for which they are
    [(MUSEAIR_SECRET[2], 0)] have the same digest, the two halves of
    [MUSEAIR_SECRET[4] * MUSEAIR_SECRET[5]], whatever the seed. *)
Theorem bfast_128_short_collision (m1 m2 : buffer) (len seed : Z) :
  len <= 16 ->
  _museair_read_short m1 0 len =
    Some (fst (short_pad len seed),
          Z.lxor (snd (short_pad len seed)) MUSEAIR_SECRET_3) ->
  _museair_read_short m2 0 len =
    Some (Z.lxor (fst (short_pad len seed)) MUSEAIR_SECRET_2,
          snd (short_pad len seed)) ->
  museair_bfast_hash_128 m1 len seed = museair_bfast_hash_128 m2 len seed /\
  museair_bfast_hash_128 m1 len seed =
    Some (snd (_museair_wmul MUSEAIR_SECRET_4 MUSEAIR_SECRET_5),
          fst (_museair_wmul MUSEAIR_SECRET_4 MUSEAIR_SECRET_5)).
Proof.
  intros Hlen R1 R2.
  unfold museair_bfast_hash_128.
  destruct (hash_short_path true m1 len seed Hlen) as [_ ->].
  destruct (hash_short_path true m2 len seed Hlen) as [_ ->].
  unfold short_path_128. rewrite !tower_short_pad, R1, R2. cbn [bind].
  rewrite !Z.lxor_nilpotent.
  rewrite (Z.lxor_comm (Z.lxor _ MUSEAIR_SECRET_3)), <- Z.lxor_assoc,
    Z.lxor_nilpotent, Z.lxor_0_l.
  rewrite (Z.lxor_comm (Z.lxor _ MUSEAIR_SECRET_2)), <- Z.lxor_assoc,
    Z.lxor_nilpotent, Z.lxor_0_l.
  destruct fast_short_128_pair as [-> ->]. split; reflexivity.
Qed.

Lemma bfast_128_short_collision_witness :
  short_key (fst (short_pad 16 1))
    (Z.lxor (snd (short_pad 16 1)) MUSEAIR_SECRET_3) <>
  short_key (Z.lxor (fst (short_pad 16 1)) MUSEAIR_SECRET_2)
    (snd (short_pad 16 1)) /\
  museair_bfast_hash_128
    (short_key (fst (short_pad 16 1))
       (Z.lxor (snd (short_pad 16 1)) MUSEAIR_SECRET_3)) 16 1 =
  museair_bfast_hash_128
    (short_key (Z.lxor (fst (short_pad 16 1)) MUSEAIR_SECRET_2)
       (snd (short_pad 16 1))) 16 1 /\
  museair_hash_128
    (short_key (fst (short_pad 16 1))
       (Z.lxor (snd (short_pad 16 1)) MUSEAIR_SECRET_3)) 16 1 <>
  museair_hash_128
    (short_key (Z.lxor (fst (short_pad 16 1)) MUSEAIR_SECRET_2)
       (snd (short_pad 16 1))) 16 1.
Proof.
  split; [intros E; vm_compute in E; discriminate E|]. split.
  - apply bfast_128_short_collision; [lia|reflexivity|reflexivity].
  - vm_compute. discriminate.
Defined.

(** ** The self-test *)

Lemma le_split_length (n : nat) (w : Z) : length (le_split n w) = n.
Proof.
  revert w. induction n as [|n IH]; intros w; [reflexivity|].
  cbn [le_split length]. rewrite IH. reflexivity.
Qed.

Lemma out64_reads_len (BFast : bool) (m1 m2 : buffer) (len seed : Z) :
  agree m1 m2 0 len ->
  out64 (_museair_hash BFast) m1 len seed =
    out64 (_museair_hash BFast) m2 len seed.
Proof.
  intros A. unfold out64.
  rewrite (proj1 (hash_agree BFast m1 m2 len seed A)). reflexivity.
Qed.

Lemma out64_inside (BFast : bool) (m : buffer) (len seed : Z) :
  0 <= len <= size m ->
  exists d, out64 (_museair_hash BFast) m len seed = Some d /\
            length d = 8%nat.
Proof.
  intros H. destruct (hash_inside BFast m len seed H) as [[d E] _].
  unfold out64. rewrite E. cbn [bind]. eexists. split; [reflexivity|].
  apply le_split_length.
Qed.

Lemma out128_reads_len (BFast : bool) (m1 m2 : buffer) (len seed : Z) :
  agree m1 m2 0 len ->
  out128 (_museair_hash_128 BFast) m1 len seed =
    out128 (_museair_hash_128 BFast) m2 len seed.
Proof.
  intros A. unfold out128.
  rewrite (proj2 (hash_agree BFast m1 m2 len seed A)). reflexivity.
Qed.

Lemma out128_inside (BFast : bool) (m : buffer) (len seed : Z) :
  0 <= len <= size m ->
  exists d, out128 (_museair_hash_128 BFast) m len seed = Some d /\
            length d = 16%nat.
Proof.
  intros H. destruct (hash_inside BFast m len seed H) as [_ [[lo hi] E]].
  unfold out128. rewrite E. cbn [bind]. eexists. split; [reflexivity|].
  rewrite length_app, !le_split_length. reflexivity.
Qed.

(** X22: for a hash that reads only the first [len] bytes and returns
    [hb] bytes on every input inside its buffer, the self-test, which fills
    one key buffer and one buffer of digests in place, computes the hash of
    the digests of the keys [{}], [{0}], ..., [{0, ..., 254}] put one after
    the other. *)
Theorem self_test_is_sweep (hb : nat) (HASH : hash_fn) :
  (forall m1 m2 len seed,
     agree m1 m2 0 len -> HASH m1 len seed = HASH m2 len seed) ->
  (forall m len seed,
     0 <= len <= size m ->
     exists d, HASH m len seed = Some d /\ length d = hb) ->
  ComputedVerifyImpl (8 * Z.of_nat hb) HASH =
    (hashes <- sweep 256 HASH ;;
     total <- HASH hashes (Z.of_nat hb * 256) 0 ;;
     load_le 4 total 0).
Proof. apply verify_is_sweep. Qed.

Lemma self_test_is_sweep_witness :
  ComputedVerifyImpl 64 (out64 museair_hash) =
    (hashes <- sweep 256 (out64 museair_hash) ;;
     total <- out64 museair_hash hashes 2048 0 ;;
     load_le 4 total 0) /\
  ComputedVerifyImpl 128 (out128 museair_bfast_hash_128) =
    (hashes <- sweep 256 (out128 museair_bfast_hash_128) ;;
     total <- out128 museair_bfast_hash_128 hashes 4096 0 ;;
     load_le 4 total 0).
Proof.
  split.
  - apply (self_test_is_sweep 8 (out64 museair_hash)).
    + apply (out64_reads_len false).
    + apply (out64_inside false).
  - apply (self_test_is_sweep 16 (out128 museair_bfast_hash_128)).
    + apply (out128_reads_len true).
    + apply (out128_inside true).
Defined.
